(** * Container runtime config controller: a shallow embedding

    The reconciliation core of
    [pkg/controller/container-runtime-config/container_runtime_config_controller.go]
    is embedded as executable Rocq functions over an explicit model of the
    cluster (informer caches, API-server stores, a clock, injected API
    failures and a trace of the external calls made).  Go functions that
    return [error] return [option error] here, [None] being [nil]; a Go
    run-time panic is an outcome of its own. *)

From Stdlib Require Import ZArith String Ascii List Bool Lia.
From stdpp Require Import base option list gmap strings sorting.

Local Open Scope string_scope.
Local Open Scope Z_scope.

(** ** Errors (k8s.io/apimachinery/pkg/api/errors and fmt.Errorf) *)

Inductive StatusReason := ReasonNotFound | ReasonAlreadyExists | ReasonConflict.

Inductive error :=
| StatusError (reason : StatusReason) (msg : string)
| PlainError (msg : string)
| errParsingReference.

Global Instance StatusReason_eq_dec : EqDecision StatusReason.
Proof. solve_decision. Defined.
Global Instance error_eq_dec : EqDecision error.
Proof. solve_decision. Defined.

Definition IsNotFound (err : option error) : bool :=
  match err with
  | Some (StatusError ReasonNotFound _) => true
  | _ => false
  end.

Definition IsConflict (err : option error) : bool :=
  match err with
  | Some (StatusError ReasonConflict _) => true
  | _ => false
  end.

Definition errorString (e : error) : string :=
  match e with
  | StatusError _ m => m
  | PlainError m => m
  | errParsingReference => "error parsing reference of release image"
  end.

(** [%v] of an [error] value that may be nil. *)
Definition fmtErr (err : option error) : string :=
  match err with
  | Some e => errorString e
  | None => "<nil>"
  end.

(** [fmt.Errorf]: the format string is given already cut at its verbs. *)
Definition Errorf (parts : list string) : error :=
  PlainError (String.concat "" parts).

(** ** API objects *)

Inductive ConditionType :=
| ContainerRuntimeConfigSuccess
| ContainerRuntimeConfigFailure.

Global Instance ConditionType_eq_dec : EqDecision ConditionType.
Proof. solve_decision. Defined.

Record ContainerRuntimeConfigCondition := {
  condType : ConditionType;
  condStatus : bool;
  condMessage : string;
  condLastTransitionTime : nat
}.

Inductive LabelSelectorOperator := OpIn | OpNotIn | OpExists | OpDoesNotExist | OpUnknown (s : string).

Record LabelSelectorRequirement := {
  exprKey : string;
  exprOperator : LabelSelectorOperator;
  exprValues : list string
}.

Record LabelSelector := {
  MatchLabels : list (string * string);
  MatchExpressions : list LabelSelectorRequirement
}.

Record ContainerRuntimeConfiguration := {
  LogLevel : string;
  PidsLimit : option Z;
  LogSizeMax : Z;
  OverlaySize : Z
}.

Record ContainerRuntimeConfig := {
  crcName : string;
  crcUID : string;
  crcGeneration : Z;
  crcDeletionTimestamp : option nat;
  crcFinalizers : list string;
  crcAnnotations : gmap string string;
  crcPoolSelector : option LabelSelector;
  crcSpec : ContainerRuntimeConfiguration;
  crcObservedGeneration : Z;
  crcConditions : list ContainerRuntimeConfigCondition
}.

Record OwnerReference := {
  orAPIVersion : string;
  orKind : string;
  orName : string;
  orUID : string;
  orController : bool
}.

Record MachineConfig := {
  mcName : string;
  mcLabels : gmap string string;
  mcAnnotations : gmap string string;
  mcOwnerReferences : list OwnerReference;
  mcRaw : string
}.

Record MachineConfigPool := {
  poolName : string;
  poolLabels : gmap string string
}.

Record ConfigMap := {
  cmName : string;
  cmNamespace : string
}.

Record ControllerConfig := {
  ccName : string;
  ccReleaseImage : string
}.

Record Image := {
  imgName : string;
  imgUID : string;
  InsecureRegistries : option (list string);
  BlockedRegistries : option (list string);
  AllowedRegistries : option (list string);
  ContainerRuntimeSearchRegistries : option (list string)
}.

Record ClusterVersion := {
  cvDesiredImage : string
}.

Record ImageContentSourcePolicy := {
  icspName : string;
  icspMirrors : list (string * list string)
}.

(** Go map indexing: a missing key reads as the zero value. *)
Definition goIndex (m : gmap string string) (k : string) : string :=
  default "" (m !! k).

(** ** The cluster as seen by the controller *)

(** Every call that leaves the process (API server, informer cache, template
    files on disk).  The same names key the injected failures. *)
Inductive Call :=
| ConfigMapsGet (name : string)
| ConfigMapsCreate (name : string)
| PoolsList
| MachineConfigsGet (name : string)
| MachineConfigsCreate (name : string)
| MachineConfigsUpdate (name : string)
| MachineConfigsDelete (name : string)
| MachineConfigsList
| CtrCfgListerGet (name : string)
| CtrCfgUpdateStatus (name : string)
| CtrCfgUpdate (name : string)
| CtrCfgPatch (name : string)
| ControllerConfigGet (name : string)
| ImageListerGet (name : string)
| ClusterVersionGet (name : string)
| ICSPList
| RenderTemplates (role : string).

Global Instance Call_eq_dec : EqDecision Call.
Proof. solve_decision. Defined.

Record World := {
  mccrCache : gmap string ContainerRuntimeConfig;
  mccrStore : gmap string ContainerRuntimeConfig;
  mcStore : gmap string MachineConfig;
  cmStore : gmap string ConfigMap;
  mcpCache : list MachineConfigPool;
  ccCache : gmap string ControllerConfig;
  imgCache : gmap string Image;
  cvCache : gmap string ClusterVersion;
  icspCache : list ImageContentSourcePolicy;
  clock : nat;
  faults : list (Call * error);
  trace : list Call
}.

Definition setMccrCache (f : gmap string ContainerRuntimeConfig -> gmap string ContainerRuntimeConfig) (w : World) : World :=
  {| mccrCache := f (mccrCache w); mccrStore := mccrStore w; mcStore := mcStore w;
     cmStore := cmStore w; mcpCache := mcpCache w; ccCache := ccCache w;
     imgCache := imgCache w; cvCache := cvCache w; icspCache := icspCache w;
     clock := clock w; faults := faults w; trace := trace w |}.

Definition setMccrStore (f : gmap string ContainerRuntimeConfig -> gmap string ContainerRuntimeConfig) (w : World) : World :=
  {| mccrCache := mccrCache w; mccrStore := f (mccrStore w); mcStore := mcStore w;
     cmStore := cmStore w; mcpCache := mcpCache w; ccCache := ccCache w;
     imgCache := imgCache w; cvCache := cvCache w; icspCache := icspCache w;
     clock := clock w; faults := faults w; trace := trace w |}.

Definition setMcStore (f : gmap string MachineConfig -> gmap string MachineConfig) (w : World) : World :=
  {| mccrCache := mccrCache w; mccrStore := mccrStore w; mcStore := f (mcStore w);
     cmStore := cmStore w; mcpCache := mcpCache w; ccCache := ccCache w;
     imgCache := imgCache w; cvCache := cvCache w; icspCache := icspCache w;
     clock := clock w; faults := faults w; trace := trace w |}.

Definition setCmStore (f : gmap string ConfigMap -> gmap string ConfigMap) (w : World) : World :=
  {| mccrCache := mccrCache w; mccrStore := mccrStore w; mcStore := mcStore w;
     cmStore := f (cmStore w); mcpCache := mcpCache w; ccCache := ccCache w;
     imgCache := imgCache w; cvCache := cvCache w; icspCache := icspCache w;
     clock := clock w; faults := faults w; trace := trace w |}.

Definition setClock (t : nat) (w : World) : World :=
  {| mccrCache := mccrCache w; mccrStore := mccrStore w; mcStore := mcStore w;
     cmStore := cmStore w; mcpCache := mcpCache w; ccCache := ccCache w;
     imgCache := imgCache w; cvCache := cvCache w; icspCache := icspCache w;
     clock := t; faults := faults w; trace := trace w |}.

Definition setFaults (fs : list (Call * error)) (w : World) : World :=
  {| mccrCache := mccrCache w; mccrStore := mccrStore w; mcStore := mcStore w;
     cmStore := cmStore w; mcpCache := mcpCache w; ccCache := ccCache w;
     imgCache := imgCache w; cvCache := cvCache w; icspCache := icspCache w;
     clock := clock w; faults := fs; trace := trace w |}.

Definition logCall (c : Call) (w : World) : World :=
  {| mccrCache := mccrCache w; mccrStore := mccrStore w; mcStore := mcStore w;
     cmStore := cmStore w; mcpCache := mcpCache w; ccCache := ccCache w;
     imgCache := imgCache w; cvCache := cvCache w; icspCache := icspCache w;
     clock := clock w; faults := faults w; trace := trace w ++ [c] |}.

(** ** The monad: state passing over [World], with Go panics *)

Inductive Outcome (A : Type) :=
| Done (a : A) (w : World)
| Panicked (w : World).
Arguments Done {A} a w.
Arguments Panicked {A} w.

Definition M (A : Type) : Type := World -> Outcome A.

Definition ret {A} (a : A) : M A := fun w => Done a w.

Definition bind {A B} (m : M A) (k : A -> M B) : M B :=
  fun w => match m w with
           | Done a w' => k a w'
           | Panicked w' => Panicked w'
           end.

Definition panic {A} : M A := fun w => Panicked w.
Definition getWorld : M World := fun w => Done w w.
Definition modify (f : World -> World) : M unit := fun w => Done tt (f w).

Notation "'let*' p ':=' c 'in' k" := (bind c (fun p => k))
  (at level 10, p pattern, c at level 100, k at level 200, only parsing).

Definition finalWorld {A} (o : Outcome A) : World :=
  match o with Done _ w => w | Panicked w => w end.

Definition returned {A} (o : Outcome A) : option A :=
  match o with Done a _ => Some a | Panicked _ => None end.

(** The first injected failure for call [c], and the failures left. *)
Fixpoint takeFault (c : Call) (fs : list (Call * error)) : option (error * list (Call * error)) :=
  match fs with
  | [] => None
  | (c', e) :: rest =>
      if decide (c' = c) then Some (e, rest)
      else match takeFault c rest with
           | Some (e', rest') => Some (e', (c', e) :: rest')
           | None => None
           end
  end.

(** Issue an external call: it is traced, and it fails when a failure was
    injected for it. *)
Definition call (c : Call) : M (option error) :=
  fun w =>
    match takeFault c (faults w) with
    | Some (e, rest) => Done (Some e) (setFaults rest (logCall c w))
    | None => Done None (logCall c w)
    end.

(** [metav1.Now()]: time moves on between two readings. *)
Definition now : M nat :=
  fun w => Done (clock w) (setClock (S (clock w)) w).

(** ** Go and Kubernetes library functions used by the controller *)

(** [strings.Split(s, sep)] for a one-character separator. *)
Fixpoint Split (sep : ascii) (s : string) : list string :=
  match s with
  | EmptyString => [EmptyString]
  | String c rest =>
      if Ascii.eqb c sep then EmptyString :: Split sep rest
      else match Split sep rest with
           | [] => [String c EmptyString]
           | h :: t => String c h :: t
           end
  end.

(** [strings.Contains]. *)
Fixpoint Contains (s substr : string) : bool :=
  if String.prefix substr s then true
  else match s with
       | EmptyString => false
       | String _ rest => Contains rest substr
       end.

Definition isDigit (c : ascii) : bool :=
  (48 <=? nat_of_ascii c)%nat && (nat_of_ascii c <=? 57)%nat.

Fixpoint digitsValue (acc : Z) (s : string) : option Z :=
  match s with
  | EmptyString => Some acc
  | String c rest =>
      if isDigit c then digitsValue (acc * 10 + (Z.of_nat (nat_of_ascii c) - 48)) rest
      else None
  end.

(** [strconv.Atoi]: [None] is a syntax or range error. *)
Definition Atoi (s : string) : option Z :=
  let '(neg, body) :=
    match s with
    | String "-" rest => (true, rest)
    | String "+" rest => (false, rest)
    | _ => (false, s)
    end in
  match body with
  | EmptyString => None
  | _ => match digitsValue 0 body with
         | Some v =>
             let v' := if neg : bool then - v else v in
             if (- 2 ^ 63 <=? v') && (v' <? 2 ^ 63) then Some v' else None
         | None => None
         end
  end.

(** [cache.SplitMetaNamespaceKey]. *)
Definition SplitMetaNamespaceKey (key : string) : string * string * option error :=
  match Split "/" key with
  | [name] => ("", name, None)
  | [ns; name] => (ns, name, None)
  | _ => ("", "", Some (Errorf ["unexpected key format: "; key]))
  end.

(** [ctrlcommon.InSlice]. *)
Definition InSlice (elem : string) (slice : list string) : bool :=
  existsb (String.eqb elem) slice.

(** [retry.RetryOnConflict]: [fn] runs at most [steps] times, again only
    after a conflict; when the attempts run out the last conflict is
    returned.  [S] is the mutable state the closure captures. *)
Fixpoint retryOnConflictN {S : Type} (steps : nat) (fn : S -> M (S * option error))
    (s : S) (lastErr : option error) : M (S * option error) :=
  match steps with
  | O => ret (s, lastErr)
  | Datatypes.S n =>
      let* (s', err) := fn s in
      match err with
      | None => ret (s', None)
      | Some e =>
          if IsConflict (Some e) then retryOnConflictN n fn s' (Some e)
          else ret (s', Some e)
      end
  end.

(** [updateBackoff.Steps]. *)
Definition updateBackoffSteps : nat := 5.

Definition RetryOnConflict {S : Type} (fn : S -> M (S * option error)) (s : S)
  : M (S * option error) :=
  retryOnConflictN updateBackoffSteps fn s None.

(** *** k8s.io/apimachinery/pkg/labels *)

Inductive Operator :=
| selection_Equals
| selection_In
| selection_NotIn
| selection_Exists
| selection_DoesNotExist.

Record Requirement := {
  reqKey : string;
  reqOperator : Operator;
  reqValues : list string
}.

Inductive Selector :=
| nothingSelector
| internalSelector (reqs : list Requirement).

Definition Everything : Selector := internalSelector [].
Definition Nothing : Selector := nothingSelector.

Definition SelectorEmpty (sel : Selector) : bool :=
  match sel with
  | nothingSelector => false
  | internalSelector reqs => (length reqs =? 0)%nat
  end.

Definition RequirementMatches (r : Requirement) (ls : gmap string string) : bool :=
  match reqOperator r with
  | selection_Equals | selection_In =>
      match ls !! reqKey r with
      | Some v => InSlice v (reqValues r)
      | None => false
      end
  | selection_NotIn =>
      match ls !! reqKey r with
      | Some v => negb (InSlice v (reqValues r))
      | None => true
      end
  | selection_Exists => bool_decide (is_Some (ls !! reqKey r))
  | selection_DoesNotExist => negb (bool_decide (is_Some (ls !! reqKey r)))
  end.

Definition SelectorMatches (sel : Selector) (ls : gmap string string) : bool :=
  match sel with
  | nothingSelector => false
  | internalSelector reqs => forallb (fun r => RequirementMatches r ls) reqs
  end.

(** ** Typed clients and listers *)

Definition notFound (what name : string) : error :=
  StatusError ReasonNotFound (what ++ " " ++ name ++ " not found")%string.

Definition alreadyExists (what name : string) : error :=
  StatusError ReasonAlreadyExists (what ++ " " ++ name ++ " already exists")%string.

Definition emptyConfigMap : ConfigMap := {| cmName := ""; cmNamespace := "" |}.

Definition emptyMachineConfig : MachineConfig :=
  {| mcName := ""; mcLabels := ∅; mcAnnotations := ∅; mcOwnerReferences := []; mcRaw := "" |}.

(** The typed clients return a pointer to a zero object together with the
    error; the listers return nil. *)
Definition ConfigMaps_Get (name : string) : M (ConfigMap * option error) :=
  let* f := call (ConfigMapsGet name) in
  match f with
  | Some e => ret (emptyConfigMap, Some e)
  | None =>
      let* w := getWorld in
      match cmStore w !! name with
      | Some cm => ret (cm, None)
      | None => ret (emptyConfigMap, Some (notFound "configmaps" name))
      end
  end.

Definition ConfigMaps_Create (cm : ConfigMap) : M (option error) :=
  let* f := call (ConfigMapsCreate (cmName cm)) in
  match f with
  | Some e => ret (Some e)
  | None =>
      let* w := getWorld in
      match cmStore w !! cmName cm with
      | Some _ => ret (Some (alreadyExists "configmaps" (cmName cm)))
      | None =>
          let* _ := modify (setCmStore (insert (cmName cm) cm)) in
          ret None
      end
  end.

Definition mcpLister_List (sel : Selector) : M (list MachineConfigPool * option error) :=
  let* f := call PoolsList in
  match f with
  | Some e => ret ([], Some e)
  | None =>
      let* w := getWorld in
      ret (List.filter (fun p => SelectorMatches sel (poolLabels p)) (mcpCache w), None)
  end.

Definition MachineConfigs_Get (name : string) : M (MachineConfig * option error) :=
  let* f := call (MachineConfigsGet name) in
  match f with
  | Some e => ret (emptyMachineConfig, Some e)
  | None =>
      let* w := getWorld in
      match mcStore w !! name with
      | Some mc => ret (mc, None)
      | None => ret (emptyMachineConfig, Some (notFound "machineconfigs" name))
      end
  end.

Definition MachineConfigs_Create (mc : MachineConfig) : M (option error) :=
  let* f := call (MachineConfigsCreate (mcName mc)) in
  match f with
  | Some e => ret (Some e)
  | None =>
      let* w := getWorld in
      match mcStore w !! mcName mc with
      | Some _ => ret (Some (alreadyExists "machineconfigs" (mcName mc)))
      | None =>
          let* _ := modify (setMcStore (insert (mcName mc) mc)) in
          ret None
      end
  end.

Definition MachineConfigs_Update (mc : MachineConfig) : M (option error) :=
  let* f := call (MachineConfigsUpdate (mcName mc)) in
  match f with
  | Some e => ret (Some e)
  | None =>
      let* w := getWorld in
      match mcStore w !! mcName mc with
      | None => ret (Some (notFound "machineconfigs" (mcName mc)))
      | Some _ =>
          let* _ := modify (setMcStore (insert (mcName mc) mc)) in
          ret None
      end
  end.

Definition MachineConfigs_Delete (name : string) : M (option error) :=
  let* f := call (MachineConfigsDelete name) in
  match f with
  | Some e => ret (Some e)
  | None =>
      let* w := getWorld in
      match mcStore w !! name with
      | None => ret (Some (notFound "machineconfigs" name))
      | Some _ =>
          let* _ := modify (setMcStore (delete name)) in
          ret None
      end
  end.

Definition MachineConfigs_List : M (list MachineConfig * option error) :=
  let* f := call MachineConfigsList in
  match f with
  | Some e => ret ([], Some e)
  | None =>
      let* w := getWorld in
      ret (List.map snd (map_to_list (mcStore w)), None)
  end.

Definition mccrLister_Get (name : string) : M (option ContainerRuntimeConfig * option error) :=
  let* f := call (CtrCfgListerGet name) in
  match f with
  | Some e => ret (None, Some e)
  | None =>
      let* w := getWorld in
      match mccrCache w !! name with
      | Some cfg => ret (Some cfg, None)
      | None => ret (None, Some (notFound "containerruntimeconfigs" name))
      end
  end.

Definition withStatus (obs : Z) (conds : list ContainerRuntimeConfigCondition)
    (cfg : ContainerRuntimeConfig) : ContainerRuntimeConfig :=
  {| crcName := crcName cfg; crcUID := crcUID cfg; crcGeneration := crcGeneration cfg;
     crcDeletionTimestamp := crcDeletionTimestamp cfg; crcFinalizers := crcFinalizers cfg;
     crcAnnotations := crcAnnotations cfg; crcPoolSelector := crcPoolSelector cfg;
     crcSpec := crcSpec cfg; crcObservedGeneration := obs; crcConditions := conds |}.

Definition withAnnotations (a : gmap string string)
    (cfg : ContainerRuntimeConfig) : ContainerRuntimeConfig :=
  {| crcName := crcName cfg; crcUID := crcUID cfg; crcGeneration := crcGeneration cfg;
     crcDeletionTimestamp := crcDeletionTimestamp cfg; crcFinalizers := crcFinalizers cfg;
     crcAnnotations := a; crcPoolSelector := crcPoolSelector cfg;
     crcSpec := crcSpec cfg; crcObservedGeneration := crcObservedGeneration cfg;
     crcConditions := crcConditions cfg |}.

Definition withFinalizers (fs : list string)
    (cfg : ContainerRuntimeConfig) : ContainerRuntimeConfig :=
  {| crcName := crcName cfg; crcUID := crcUID cfg; crcGeneration := crcGeneration cfg;
     crcDeletionTimestamp := crcDeletionTimestamp cfg; crcFinalizers := fs;
     crcAnnotations := crcAnnotations cfg; crcPoolSelector := crcPoolSelector cfg;
     crcSpec := crcSpec cfg; crcObservedGeneration := crcObservedGeneration cfg;
     crcConditions := crcConditions cfg |}.

(** [UpdateStatus] writes the status subresource only. *)
Definition CtrCfg_UpdateStatus (cfg : ContainerRuntimeConfig) : M (option error) :=
  let* f := call (CtrCfgUpdateStatus (crcName cfg)) in
  match f with
  | Some e => ret (Some e)
  | None =>
      let* w := getWorld in
      match mccrStore w !! crcName cfg with
      | None => ret (Some (notFound "containerruntimeconfigs" (crcName cfg)))
      | Some old =>
          let* _ := modify (setMccrStore (insert (crcName cfg)
                      (withStatus (crcObservedGeneration cfg) (crcConditions cfg) old))) in
          ret None
      end
  end.

(** [Update] writes everything but the status subresource. *)
Definition CtrCfg_Update (cfg : ContainerRuntimeConfig) : M (option error) :=
  let* f := call (CtrCfgUpdate (crcName cfg)) in
  match f with
  | Some e => ret (Some e)
  | None =>
      let* w := getWorld in
      match mccrStore w !! crcName cfg with
      | None => ret (Some (notFound "containerruntimeconfigs" (crcName cfg)))
      | Some old =>
          let* _ := modify (setMccrStore (insert (crcName cfg)
                      (withStatus (crcObservedGeneration old) (crcConditions old) cfg))) in
          ret None
      end
  end.

(** A JSON merge patch between two serialisations of one object that can
    differ in [metadata.finalizers] only: either the empty patch or a
    replacement of the whole array (merge patches never edit inside an
    array; an array that became empty is dropped by [omitempty] and patched
    to null, which reads back as no finalizers). *)
Inductive MergePatch :=
| EmptyPatch
| ReplaceFinalizers (fs : list string).

(** [jsonmergepatch.CreateThreeWayJSONMergePatch original modified current]
    with [original] and [current] the same document: no conflict can be
    found, and the patch is the difference from [current] to [modified]. *)
Definition CreateThreeWayJSONMergePatch (original modified current : ContainerRuntimeConfig)
  : MergePatch * option error :=
  if decide (crcFinalizers modified = crcFinalizers current) then (EmptyPatch, None)
  else (ReplaceFinalizers (crcFinalizers modified), None).

Definition applyMergePatch (p : MergePatch) (cfg : ContainerRuntimeConfig) : ContainerRuntimeConfig :=
  match p with
  | EmptyPatch => cfg
  | ReplaceFinalizers fs => withFinalizers fs cfg
  end.

(** [Patch(name, types.MergePatchType, patch)].  The API server's removal of
    an object whose deletion timestamp is set once its last finalizer is gone
    is not part of the model: the record stays readable. *)
Definition CtrCfg_Patch (name : string) (p : MergePatch) : M (option error) :=
  let* f := call (CtrCfgPatch name) in
  match f with
  | Some e => ret (Some e)
  | None =>
      let* w := getWorld in
      match mccrStore w !! name with
      | None => ret (Some (notFound "containerruntimeconfigs" name))
      | Some old =>
          let* _ := modify (setMccrStore (insert name (applyMergePatch p old))) in
          ret None
      end
  end.

Definition ccLister_Get (name : string) : M (option ControllerConfig * option error) :=
  let* f := call (ControllerConfigGet name) in
  match f with
  | Some e => ret (None, Some e)
  | None =>
      let* w := getWorld in
      match ccCache w !! name with
      | Some cc => ret (Some cc, None)
      | None => ret (None, Some (notFound "controllerconfigs" name))
      end
  end.

Definition imgLister_Get (name : string) : M (option Image * option error) :=
  let* f := call (ImageListerGet name) in
  match f with
  | Some e => ret (None, Some e)
  | None =>
      let* w := getWorld in
      match imgCache w !! name with
      | Some i => ret (Some i, None)
      | None => ret (None, Some (notFound "images" name))
      end
  end.

Definition clusterVersionLister_Get (name : string) : M (option ClusterVersion * option error) :=
  let* f := call (ClusterVersionGet name) in
  match f with
  | Some e => ret (None, Some e)
  | None =>
      let* w := getWorld in
      match cvCache w !! name with
      | Some cv => ret (Some cv, None)
      | None => ret (None, Some (notFound "clusterversions" name))
      end
  end.

Definition icspLister_List : M (list ImageContentSourcePolicy * option error) :=
  let* f := call ICSPList in
  match f with
  | Some e => ret ([], Some e)
  | None =>
      let* w := getWorld in
      ret (icspCache w, None)
  end.

(** ** The rate-limited work queue (k8s.io/client-go/util/workqueue) *)

Inductive QueueOp :=
| QForget (key : string)
| QAddRateLimited (key : string)
| QAddAfter (key : string) (seconds : Z)
| QHandleError (err : error).

(** The per-key failure counts of the rate limiter, the operations issued on
    the queue and on [utilruntime.HandleError], oldest first. *)
Record Queue := {
  failures : gmap string nat;
  qops : list QueueOp
}.

Definition NumRequeues (key : string) (q : Queue) : nat :=
  default O (failures q !! key).

Definition Forget (key : string) (q : Queue) : Queue :=
  {| failures := delete key (failures q); qops := qops q ++ [QForget key] |}.

(** [AddRateLimited] asks the rate limiter when to add the key, which counts
    one more failure for it. *)
Definition AddRateLimited (key : string) (q : Queue) : Queue :=
  {| failures := <[key := S (NumRequeues key q)]> (failures q);
     qops := qops q ++ [QAddRateLimited key] |}.

Definition AddAfter (key : string) (seconds : Z) (q : Queue) : Queue :=
  {| failures := failures q; qops := qops q ++ [QAddAfter key seconds] |}.

Definition HandleError (err : error) (q : Queue) : Queue :=
  {| failures := failures q; qops := qops q ++ [QHandleError err] |}.

(** ** Files and rendered configuration *)

Record generatedConfigFile := {
  filePath : string;
  data : option string
}.

Record IgnFile := {
  ignPath : string;
  contentsSource : option string
}.

Record IgnConfig := {
  ignFiles : list IgnFile
}.

Record Controller := {
  templatesDir : string;
  namespace : string
}.

(** [m] does not take back the record of the calls made: the trace it
    leaves is the one it found, followed by calls. *)
Definition logsOnly {A} (m : M A) : Prop :=
  forall w, exists l, trace (finalWorld (m w)) = (trace w ++ l)%list.

(** ** What the controller file uses and does not define

    Functions and constants of the package's other files ([helpers.go]), of
    [ctrlcommon], [mtmpl] and [version], and of the libraries that parse and
    print file contents.  They are left abstract: every result below holds
    for any implementation of them.

    [getManagedKeyCtrCfg] and [getManagedKeyReg] are handed [ctrl.client],
    the read-write client of the API server.  What they do with it is not
    in this file, so each is any computation on the cluster: it may read,
    write, fail and panic.  All that is known of it is that it cannot erase
    the record of the calls made. *)
Class Helpers := {
  versionHash : string;
  GeneratedByControllerVersionAnnotationKey : string;
  MCNameSuffixAnnotationKey : string;
  ControllerConfigName : string;
  SchemeGroupVersion : string;
  storageConfigPath : string;
  registriesConfigPath : string;
  policyConfigPath : string;
  validateUserContainerRuntimeConfig : ContainerRuntimeConfig -> option error;
  wrapErrorWithCondition : option error -> list string -> nat -> ContainerRuntimeConfigCondition;
  getManagedKeyCtrCfg : MachineConfigPool -> ContainerRuntimeConfig -> M (string * option error);
  getManagedKeyReg : MachineConfigPool -> M (string * option error);
  getManagedKeySeccomp : MachineConfigPool -> string;
  GenerateMachineConfigsForRole : ControllerConfig -> string -> string -> list MachineConfig * option error;
  findStorageConfig : MachineConfig -> option IgnFile * option error;
  findRegistriesConfig : MachineConfig -> option IgnFile * option error;
  findPolicyJSON : MachineConfig -> option IgnFile * option error;
  dataurlDecodeString : string -> string * option error;
  updateStorageConfig : string -> ContainerRuntimeConfiguration -> string * option error;
  createCRIODropinFiles : ContainerRuntimeConfig -> list generatedConfigFile;
  createNewIgnition : list generatedConfigFile -> IgnConfig;
  createDefaultSeccompUseDefaultWhenEmptyFile : list generatedConfigFile;
  NewIgnConfig : IgnConfig;
  MachineConfigFromIgnConfig : string -> string -> IgnConfig -> MachineConfig * option error;
  jsonMarshal : IgnConfig -> string * option error;
  getValidBlockedRegistries : string -> Image -> option (list string) * option error;
  updateRegistriesConfig : string -> option (list string) -> option (list string) ->
                           list ImageContentSourcePolicy -> string * option error;
  updatePolicyJSON : string -> option (list string) -> option (list string) -> string * option error;
  updateSearchRegistriesConfig : list string -> list generatedConfigFile;
  validateLabelKey : string -> option error;
  validateLabelValue : string -> string -> option error;
  getManagedKeyCtrCfg_logs : forall pool cfg, logsOnly (getManagedKeyCtrCfg pool cfg);
  getManagedKeyReg_logs : forall pool, logsOnly (getManagedKeyReg pool)
}.

Definition maxRetries : nat := 15.
Definition builtInLabelKey : string := "machineconfiguration.openshift.io/mco-built-in".

Inductive Flow :=
| Continue
| Applied
| Return (r : option error).

Section ControllerCode.
Context `{Helpers}.
Variable ctrl : Controller.

(** *** Label selectors (k8s.io/apimachinery/pkg/apis/meta/v1) *)

Definition NewRequirement (key : string) (op : Operator) (vals : list string)
  : Requirement * option error :=
  let r := {| reqKey := key; reqOperator := op; reqValues := vals |} in
  let countErr : option error :=
    match op with
    | selection_In | selection_NotIn =>
        if (length vals =? 0)%nat
        then Some (PlainError "for 'in', 'notin' operators, values set can't be empty")
        else None
    | selection_Equals =>
        if (length vals =? 1)%nat then None
        else Some (PlainError "exact-match compatibility requires one single value")
    | selection_Exists | selection_DoesNotExist =>
        if (length vals =? 0)%nat then None
        else Some (PlainError "values set must be empty for exists and does not exist")
    end in
  let valueErr := List.find (fun o => bool_decide (is_Some o)) (List.map (validateLabelValue key) vals) in
  match validateLabelKey key, countErr, valueErr with
  | Some e, _, _ => (r, Some e)
  | None, Some e, _ => (r, Some e)
  | None, None, Some (Some e) => (r, Some e)
  | None, None, _ => (r, None)
  end.

Fixpoint requirementsOf (reqs : list (string * Operator * list string))
  : list Requirement * option error :=
  match reqs with
  | [] => ([], None)
  | (k, op, vs) :: rest =>
      match NewRequirement k op vs with
      | (_, Some e) => ([], Some e)
      | (r, None) =>
          match requirementsOf rest with
          | (_, Some e) => ([], Some e)
          | (rs, None) => (r :: rs, None)
          end
      end
  end.

Definition selectionOperator (op : LabelSelectorOperator) : option Operator :=
  match op with
  | OpIn => Some selection_In
  | OpNotIn => Some selection_NotIn
  | OpExists => Some selection_Exists
  | OpDoesNotExist => Some selection_DoesNotExist
  | OpUnknown _ => None
  end.

Fixpoint expressionsOf (es : list LabelSelectorRequirement)
  : option (list (string * Operator * list string)) :=
  match es with
  | [] => Some []
  | e :: rest =>
      match selectionOperator (exprOperator e), expressionsOf rest with
      | Some op, Some l => Some ((exprKey e, op, exprValues e) :: l)
      | _, _ => None
      end
  end.

(** [metav1.LabelSelectorAsSelector]: a nil selector selects nothing, an
    empty one everything. *)
Definition LabelSelectorAsSelector (ps : option LabelSelector) : Selector * option error :=
  match ps with
  | None => (Nothing, None)
  | Some ps =>
      if (length (MatchLabels ps) + length (MatchExpressions ps) =? 0)%nat
      then (Everything, None)
      else
        match expressionsOf (MatchExpressions ps) with
        | None => (Nothing, Some (PlainError "not a valid label selector operator"))
        | Some es =>
            match requirementsOf
                    (List.map (fun kv => (fst kv, selection_Equals, [snd kv])) (MatchLabels ps) ++ es) with
            | (_, Some e) => (Nothing, Some e)
            | (rs, None) => (internalSelector rs, None)
            end
        end
  end.

(** [metav1.AddLabelToSelector]. *)
Definition AddLabelToSelector (sel : LabelSelector) (k v : string) : LabelSelector :=
  {| MatchLabels := List.filter (fun kv => negb (String.eqb (fst kv) k)) (MatchLabels sel) ++ [(k, v)];
     MatchExpressions := MatchExpressions sel |}.

Definition emptyLabelSelector : LabelSelector :=
  {| MatchLabels := []; MatchExpressions := [] |}.

(** *** handleErr *)

Definition handleErr (err : option error) (key : string) (q : Queue) : Queue :=
  match err with
  | None => Forget key q
  | Some e =>
      if (NumRequeues key q <? maxRetries)%nat then AddRateLimited key q
      else AddAfter key 60 (Forget key (HandleError e q))
  end.

(** *** generateOriginalContainerRuntimeConfigs *)

(** One of the three search loops: the first generated config in which
    [find] succeeds; [found] and [lastErr] are the loop's variables. *)
Fixpoint findFirst (find : MachineConfig -> option IgnFile * option error)
    (gmcs : list MachineConfig) (found : option IgnFile) (lastErr : option error)
  : option IgnFile * option error :=
  match gmcs with
  | [] => (found, lastErr)
  | gmc :: rest =>
      match find gmc with
      | (config, None) => (config, None)
      | (_, Some e) => findFirst find rest found (Some e)
      end
  end.

Definition generateOriginalContainerRuntimeConfigs (cc : ControllerConfig) (role : string)
  : M (option IgnFile * option IgnFile * option IgnFile * option error) :=
  let* f := call (RenderTemplates role) in
  let '(generatedConfigs, err) :=
    match f with
    | Some e => ([], Some e)
    | None => GenerateMachineConfigsForRole cc role (templatesDir ctrl)
    end in
  match err with
  | Some e =>
      ret (None, None, None,
           Some (Errorf ["generateMachineConfigsforRole failed with error "; errorString e]))
  | None =>
      let '(gmcStorageConfig, errStorage) := findFirst findStorageConfig generatedConfigs None None in
      let '(gmcRegistriesConfig, errRegistries) := findFirst findRegistriesConfig generatedConfigs None None in
      let '(gmcPolicyJSON, errPolicy) := findFirst findPolicyJSON generatedConfigs None None in
      match errStorage, errRegistries, errPolicy with
      | None, None, None => ret (gmcStorageConfig, gmcRegistriesConfig, gmcPolicyJSON, None)
      | _, _, _ =>
          ret (None, None, None,
               Some (Errorf ["could not generate old container runtime configs: ";
                             fmtErr errStorage; ", "; fmtErr errRegistries; ", "; fmtErr errPolicy]))
      end
  end.

(** *** syncStatusOnly *)

(** Lines 442 to 446: the new list of conditions. *)
Definition recordCondition (conds : list ContainerRuntimeConfigCondition)
    (newStatusCondition : ContainerRuntimeConfigCondition)
  : list ContainerRuntimeConfigCondition :=
  match list.last conds with
  | None => conds ++ [newStatusCondition]
  | Some lastCond =>
      if negb (String.eqb (condMessage newStatusCondition) (condMessage lastCond))
      then conds ++ [newStatusCondition]
      else if String.eqb (condMessage lastCond) (condMessage newStatusCondition)
           then <[(length conds - 1)%nat := newStatusCondition]> conds
           else conds
  end.

(** One run of the closure given to [RetryOnConflict].  [newcfg] points into
    the informer cache, so what is assigned to it is also written to the
    cache, whatever [UpdateStatus] answers. *)
Definition syncStatusAttempt (cfg : ContainerRuntimeConfig) (err : option error)
    (args : list string) (_ : unit) : M (unit * option error) :=
  let* (mnewcfg, getErr) := mccrLister_Get (crcName cfg) in
  match mnewcfg, getErr with
  | _, Some e => ret (tt, Some e)
  | None, None => panic
  | Some newcfg, None =>
      let observed :=
        if negb (crcGeneration newcfg =? crcObservedGeneration newcfg)
        then crcGeneration newcfg else crcObservedGeneration newcfg in
      let* t := now in
      let newStatusCondition := wrapErrorWithCondition err args t in
      let newcfg' := withStatus observed (recordCondition (crcConditions newcfg) newStatusCondition) newcfg in
      let* _ := modify (setMccrCache (insert (crcName cfg) newcfg')) in
      let* updateErr := CtrCfg_UpdateStatus newcfg' in
      ret (tt, updateErr)
  end.

Definition syncStatusOnly (cfg : ContainerRuntimeConfig) (err : option error)
    (args : list string) : M (option error) :=
  let* _ := RetryOnConflict (syncStatusAttempt cfg err args) tt in
  ret err.

(** *** addAnnotation *)

Definition addAnnotationAttempt (cfg : ContainerRuntimeConfig)
    (annotationKey annotationVal : string) (_ : unit) : M (unit * option error) :=
  let* (mnewcfg, getErr) := mccrLister_Get (crcName cfg) in
  match mnewcfg, getErr with
  | _, Some e => ret (tt, Some e)
  | None, None => panic
  | Some newcfg, None =>
      let newcfg' := withAnnotations {[ annotationKey := annotationVal ]} newcfg in
      let* _ := modify (setMccrCache (insert (crcName cfg) newcfg')) in
      let* updateErr := CtrCfg_Update newcfg' in
      ret (tt, updateErr)
  end.

Definition addAnnotation (cfg : ContainerRuntimeConfig) (annotationKey annotationVal : string)
  : M (option error) :=
  let* (_, annotationUpdateErr) := RetryOnConflict (addAnnotationAttempt cfg annotationKey annotationVal) tt in
  ret annotationUpdateErr.

(** *** Finalizers *)

Definition patchContainerRuntimeConfigs (name : string) (patch : MergePatch) : M (option error) :=
  CtrCfg_Patch name patch.

(** The closure captures [ctrCfg.Finalizers]: with [fins] its contents,
    [append(fins[:0], fins[1:]...)] yields the tail and shifts it down inside
    the same backing array, which a later attempt reads again. *)
Definition popFinalizerAttempt (ctrCfg : ContainerRuntimeConfig) (fins : list string)
  : M (list string * option error) :=
  let* (mnewcfg, err) := mccrLister_Get (crcName ctrCfg) in
  if IsNotFound err then ret (fins, None)
  else
    match mnewcfg, err with
    | _, Some e => ret (fins, Some e)
    | None, None => panic
    | Some newcfg, None =>
        let curJSON := newcfg in
        match fins with
        | [] => panic
        | _ :: rest =>
            let fins' := (rest ++ drop (length fins - 1) fins)%list in
            let ctrCfgTmp := withFinalizers rest newcfg in
            let modJSON := ctrCfgTmp in
            match CreateThreeWayJSONMergePatch curJSON modJSON curJSON with
            | (_, Some e) => ret (fins', Some e)
            | (patch, None) =>
                let* r := patchContainerRuntimeConfigs (crcName ctrCfg) patch in
                ret (fins', r)
            end
        end
    end.

Definition popFinalizerFromContainerRuntimeConfig (ctrCfg : ContainerRuntimeConfig)
  : M (option error) :=
  let* (_, r) := RetryOnConflict (popFinalizerAttempt ctrCfg) (crcFinalizers ctrCfg) in
  ret r.

Definition addFinalizerAttempt (ctrCfg : ContainerRuntimeConfig) (mc : MachineConfig)
    (_ : unit) : M (unit * option error) :=
  let* (mnewcfg, err) := mccrLister_Get (crcName ctrCfg) in
  if IsNotFound err then ret (tt, None)
  else
    match mnewcfg, err with
    | _, Some e => ret (tt, Some e)
    | None, None => panic
    | Some newcfg, None =>
        let curJSON := newcfg in
        let ctrCfgTmp :=
          if negb (InSlice (mcName mc) (crcFinalizers newcfg))
          then withFinalizers (crcFinalizers newcfg ++ [mcName mc]) newcfg
          else newcfg in
        let modJSON := ctrCfgTmp in
        match CreateThreeWayJSONMergePatch curJSON modJSON curJSON with
        | (_, Some e) => ret (tt, Some e)
        | (patch, None) =>
            let* r := patchContainerRuntimeConfigs (crcName ctrCfg) patch in
            ret (tt, r)
        end
    end.

Definition addFinalizerToContainerRuntimeConfig (ctrCfg : ContainerRuntimeConfig)
    (mc : MachineConfig) : M (option error) :=
  let* (_, r) := RetryOnConflict (addFinalizerAttempt ctrCfg mc) tt in
  ret r.

(** *** cascadeDelete *)

Definition cascadeDelete (cfg : ContainerRuntimeConfig) : M (option error) :=
  match crcFinalizers cfg with
  | [] => ret None
  | mcName :: _ =>
      let* err := MachineConfigs_Delete mcName in
      if bool_decide (is_Some err) && negb (IsNotFound err) then ret err
      else
        let* err := popFinalizerFromContainerRuntimeConfig cfg in
        match err with
        | Some e => ret (Some e)
        | None => ret None
        end
  end.

(** *** getPoolsForContainerRuntimeConfig *)

(** The loop over [pList]. *)
Definition selectPools (selector : Selector) (pList : list MachineConfigPool)
  : list MachineConfigPool :=
  List.filter
    (fun p => negb (SelectorEmpty selector || negb (SelectorMatches selector (poolLabels p))))
    pList.

Definition getPoolsForContainerRuntimeConfig (config : ContainerRuntimeConfig)
  : M (list MachineConfigPool * option error) :=
  let* (pList, err) := mcpLister_List Everything in
  match err with
  | Some e => ret ([], Some e)
  | None =>
      match LabelSelectorAsSelector (crcPoolSelector config) with
      | (_, Some e) => ret ([], Some (Errorf ["invalid label selector: "; errorString e]))
      | (selector, None) =>
          let pools := selectPools selector pList in
          if (length pools =? 0)%nat
          then ret ([], Some (Errorf ["could not find any MachineConfigPool set for ContainerRuntimeConfig ";
                                      crcName config]))
          else ret (pools, None)
      end
  end.

(** *** createSeccompUseDefaultMC *)

Definition withRaw (raw : string) (mc : MachineConfig) : MachineConfig :=
  {| mcName := mcName mc; mcLabels := mcLabels mc; mcAnnotations := mcAnnotations mc;
     mcOwnerReferences := mcOwnerReferences mc; mcRaw := raw |}.

Definition SetAnnotations (a : gmap string string) (mc : MachineConfig) : MachineConfig :=
  {| mcName := mcName mc; mcLabels := mcLabels mc; mcAnnotations := a;
     mcOwnerReferences := mcOwnerReferences mc; mcRaw := mcRaw mc |}.

Definition SetOwnerReferences (o : list OwnerReference) (mc : MachineConfig) : MachineConfig :=
  {| mcName := mcName mc; mcLabels := mcLabels mc; mcAnnotations := mcAnnotations mc;
     mcOwnerReferences := o; mcRaw := mcRaw mc |}.

Definition configMapName : string := "crio-seccomp-use-default-when-empty".

(** The loop over the built-in pools. *)
Fixpoint createSeccompForPools (pools : list MachineConfigPool) : M (option error) :=
  match pools with
  | [] => ret None
  | pool :: rest =>
      let managedKey := getManagedKeySeccomp pool in
      let* (mc, err) := MachineConfigs_Get managedKey in
      let isNotFound := IsNotFound err in
      if bool_decide (is_Some err) && negb isNotFound
      then ret (Some (Errorf ["error checking for "; managedKey; " machine config: "; fmtErr err]))
      else if negb isNotFound then createSeccompForPools rest
      else
        match MachineConfigFromIgnConfig (poolName pool) managedKey NewIgnConfig with
        | (_, Some e) =>
            ret (Some (Errorf ["could not create crio-seccomp-use-default MachineConfig from new Ignition config: ";
                               errorString e]))
        | (mc, None) =>
            match jsonMarshal (createNewIgnition createDefaultSeccompUseDefaultWhenEmptyFile) with
            | (_, Some e) =>
                ret (Some (Errorf ["error marshalling crio-seccomp-use-default config ignition: ";
                                   errorString e]))
            | (rawCapsIgnition, None) =>
                let mc := withRaw rawCapsIgnition mc in
                let* (_, err) := RetryOnConflict
                                   (fun _ : unit => let* e := MachineConfigs_Create mc in ret (tt, e)) tt in
                match err with
                | Some e =>
                    ret (Some (Errorf ["could not create MachineConfig for crio-seccomp-use-default: ";
                                       errorString e]))
                | None => createSeccompForPools rest
                end
            end
        end
  end.

Definition createSeccompUseDefaultMC : M (option error) :=
  let* (seccompUseDefaultCM, err) := ConfigMaps_Get configMapName in
  let seccompCMIsNotFound := IsNotFound err in
  if bool_decide (is_Some err) && negb seccompCMIsNotFound
  then ret (Some (Errorf ["error checking for "; configMapName; " config map: "; fmtErr err]))
  else if negb seccompCMIsNotFound then ret None
  else
    match LabelSelectorAsSelector (Some (AddLabelToSelector emptyLabelSelector builtInLabelKey "")) with
    | (_, Some e) => ret (Some e)
    | (sel, None) =>
        let* (mcpPoolsAll, err) := mcpLister_List sel in
        match err with
        | Some e => ret (Some e)
        | None =>
            let* r := createSeccompForPools mcpPoolsAll in
            match r with
            | Some e => ret (Some e)
            | None =>
                let cm := {| cmName := configMapName; cmNamespace := namespace ctrl |} in
                let* err := ConfigMaps_Create cm in
                match err with
                | Some e =>
                    ret (Some (Errorf ["error creating "; configMapName; " config map: "; errorString e]))
                | None => ret None
                end
            end
        end
    end.

(** *** mergeConfigChanges *)

Definition mergeConfigChanges (origFile : option IgnFile) (cfg : ContainerRuntimeConfig)
    (update : string -> ContainerRuntimeConfiguration -> string * option error)
  : M (string * option error) :=
  match origFile with
  | None => panic
  | Some f =>
      match contentsSource f with
      | None => ret ("", Some (Errorf ["original Container Runtime config is empty"]))
      | Some src =>
          match dataurlDecodeString src with
          | (_, Some e) =>
              ret ("", Some (Errorf ["could not decode original Container Runtime config: "; errorString e]))
          | (dataURL, None) =>
              match update dataURL (crcSpec cfg) with
              | (_, Some e) =>
                  ret ("", Some (Errorf ["could not update container runtime config with new changes: ";
                                         errorString e]))
              | (cfgTOML, None) => ret (cfgTOML, None)
              end
          end
      end
  end.

(** *** cleanUpDuplicatedMC *)

Fixpoint cleanUpLoop (items : list MachineConfig) : M (option error) :=
  match items with
  | [] => ret None
  | mc :: rest =>
      if negb (Contains (mcName mc) "generated-containerruntime") then cleanUpLoop rest
      else if negb (String.eqb (goIndex (mcAnnotations mc) GeneratedByControllerVersionAnnotationKey)
                               versionHash)
      then
        let* err := MachineConfigs_Delete (mcName mc) in
        match err with
        | Some e =>
            ret (Some (Errorf ["error deleting degraded containerruntime machine config "; mcName mc;
                               ": "; errorString e]))
        | None => cleanUpLoop rest
        end
      else cleanUpLoop rest
  end.

Definition cleanUpDuplicatedMC : M (option error) :=
  let* (mcList, err) := MachineConfigs_List in
  match err with
  | Some e => ret (Some (Errorf ["error listing containerruntime machine configs: "; errorString e]))
  | None => cleanUpLoop mcList
  end.

(** *** syncContainerRuntimeConfig *)

(** The first condition of line 554, up to the read of the last status
    condition: [None] is the out-of-range panic of
    [Conditions[len(Conditions)-1]]. *)
Definition seenAndSucceeded (cfg : ContainerRuntimeConfig) (isNotFound : bool) : option bool :=
  if negb isNotFound && (crcGeneration cfg <=? crcObservedGeneration cfg)
  then match list.last (crcConditions cfg) with
       | None => None
       | Some c => Some (bool_decide (condType c = ContainerRuntimeConfigSuccess))
       end
  else Some false.

Definition controllerRef (cfg : ContainerRuntimeConfig) : OwnerReference :=
  {| orAPIVersion := SchemeGroupVersion; orKind := "ContainerRuntimeConfig";
     orName := crcName cfg; orUID := crcUID cfg; orController := true |}.

(** Lines 560 to 634: what the loop body does when it does not skip. *)
Definition regenerate (key : string) (cfg : ContainerRuntimeConfig)
    (controllerConfig : ControllerConfig) (pool : MachineConfigPool)
    (managedKey : string) (mc : MachineConfig) (isNotFound : bool) : M Flow :=
  let role := poolName pool in
  let* (originalStorageIgn, _, _, err) := generateOriginalContainerRuntimeConfigs controllerConfig role in
  match err with
  | Some e =>
      let* r := syncStatusOnly cfg (Some e)
                  ["could not generate origin ContainerRuntime Configs: %v"; errorString e] in
      ret (Return r)
  | None =>
      let ctrcfg := crcSpec cfg in
      let* configFileList :=
        if negb (OverlaySize ctrcfg =? 0) then
          let* (storageTOML, err) := mergeConfigChanges originalStorageIgn cfg updateStorageConfig in
          match err with
          | Some e =>
              let* _ := syncStatusOnly cfg (Some e) [] in
              ret []
          | None =>
              let* _ := syncStatusOnly cfg None [] in
              ret [ {| filePath := storageConfigPath; data := Some storageTOML |} ]
          end
        else ret [] in
      let configFileList :=
        if negb (String.eqb (LogLevel ctrcfg) "") || bool_decide (is_Some (PidsLimit ctrcfg))
           || negb (LogSizeMax ctrcfg =? 0)
        then (configFileList ++ createCRIODropinFiles cfg)%list
        else configFileList in
      let* fresh :=
        if isNotFound then
          match MachineConfigFromIgnConfig role managedKey NewIgnConfig with
          | (_, Some e) =>
              let* r := syncStatusOnly cfg (Some e)
                          ["could not create MachineConfig from new Ignition config: %v"; errorString e] in
              ret (inr (Return r))
          | (mc, None) =>
              let ok := bool_decide (is_Some (crcAnnotations cfg !! MCNameSuffixAnnotationKey)) in
              let arr := Split "-" managedKey in
              if (4 <? length arr)%nat && negb ok then
                match Atoi (default "" (list.last arr)) with
                | Some _ =>
                    let* err := addAnnotation cfg MCNameSuffixAnnotationKey (default "" (list.last arr)) in
                    match err with
                    | Some e =>
                        let* r := syncStatusOnly cfg (Some e)
                                    ["could not update annotation for containerRuntimeConfig"] in
                        ret (inr (Return r))
                    | None => ret (inl mc)
                    end
                | None => ret (inl mc)
                end
              else ret (inl mc)
          end
        else ret (inl mc) in
      match fresh with
      | inr flow => ret flow
      | inl mc =>
          match jsonMarshal (createNewIgnition configFileList) with
          | (_, Some e) =>
              let* r := syncStatusOnly cfg (Some e)
                          ["error marshalling container runtime config Ignition: %v"; errorString e] in
              ret (Return r)
          | (rawCtrRuntimeConfigIgn, None) =>
              let mc := withRaw rawCtrRuntimeConfigIgn mc in
              let mc := SetAnnotations {[ GeneratedByControllerVersionAnnotationKey := versionHash ]} mc in
              let mc := SetOwnerReferences [controllerRef cfg] mc in
              let* (_, err) := RetryOnConflict
                  (fun _ : unit =>
                     let* e := if isNotFound then MachineConfigs_Create mc else MachineConfigs_Update mc in
                     ret (tt, e)) tt in
              match err with
              | Some e =>
                  let* r := syncStatusOnly cfg (Some e)
                              ["could not Create/Update MachineConfig: %v"; errorString e] in
                  ret (Return r)
              | None =>
                  let* err := addFinalizerToContainerRuntimeConfig cfg mc in
                  match err with
                  | Some e =>
                      let* r := syncStatusOnly cfg (Some e)
                                  ["could not add finalizers to ContainerRuntimeConfig: %v"; errorString e] in
                      ret (Return r)
                  | None => ret Applied
                  end
              end
          end
      end
  end.

(** The body of the loop over the pools, lines 542 to 634. *)
Definition syncPool (key : string) (cfg : ContainerRuntimeConfig)
    (controllerConfig : ControllerConfig) (pool : MachineConfigPool) : M Flow :=
  let* (managedKey, err) := getManagedKeyCtrCfg pool cfg in
  match err with
  | Some e =>
      let* r := syncStatusOnly cfg (Some e) ["could not get ctrcfg key: %v"; errorString e] in
      ret (Return r)
  | None =>
      let* (mc, err) := MachineConfigs_Get managedKey in
      let isNotFound := IsNotFound err in
      if bool_decide (is_Some err) && negb isNotFound then
        let* r := syncStatusOnly cfg err ["could not find MachineConfig: %v"; managedKey] in
        ret (Return r)
      else
        match seenAndSucceeded cfg isNotFound with
        | None => panic
        | Some true =>
            if String.eqb (goIndex (mcAnnotations mc) GeneratedByControllerVersionAnnotationKey) versionHash
            then ret Continue
            else regenerate key cfg controllerConfig pool managedKey mc isNotFound
        | Some false => regenerate key cfg controllerConfig pool managedKey mc isNotFound
        end
  end.

Fixpoint forPools (body : MachineConfigPool -> M Flow) (pools : list MachineConfigPool)
  : M (option (option error)) :=
  match pools with
  | [] => ret None
  | pool :: rest =>
      let* flow := body pool in
      match flow with
      | Return r => ret (Some r)
      | Continue | Applied => forPools body rest
      end
  end.

(** Lines 516 to 640: the pass once the object is fetched and copied. *)
Definition syncFetched (key : string) (cfg : ContainerRuntimeConfig) : M (option error) :=
  match crcDeletionTimestamp cfg with
  | Some _ =>
      if (0 <? length (crcFinalizers cfg))%nat then cascadeDelete cfg
      else ret None
  | None =>
      match validateUserContainerRuntimeConfig cfg with
      | Some e => syncStatusOnly cfg (Some e) []
      | None =>
          let* (mcc, err) := ccLister_Get ControllerConfigName in
          match mcc, err with
          | _, Some e =>
              ret (Some (Errorf ["could not get ControllerConfig "; errorString e]))
          | None, None => panic
          | Some controllerConfig, None =>
              let* (mcpPools, err) := getPoolsForContainerRuntimeConfig cfg in
              match err with
              | Some e => syncStatusOnly cfg (Some e) []
              | None =>
                  let* r := forPools (syncPool key cfg controllerConfig) mcpPools in
                  match r with
                  | Some result => ret result
                  | None =>
                      let* err := cleanUpDuplicatedMC in
                      match err with
                      | Some e => ret (Some e)
                      | None => syncStatusOnly cfg None []
                      end
                  end
              end
          end
      end
  end.

Definition syncContainerRuntimeConfig (key : string) : M (option error) :=
  let* err := createSeccompUseDefaultMC in
  match err with
  | Some e => ret (Some (Errorf ["failed to create the crio-seccomp-use-default MC: "; errorString e]))
  | None =>
      if String.eqb key "force-sync-on-upgrade" then ret None
      else
        match SplitMetaNamespaceKey key with
        | (_, _, Some e) => ret (Some e)
        | (_, name, None) =>
            let* (mcfg, err) := mccrLister_Get name in
            if IsNotFound err then ret None
            else
              match mcfg, err with
              | _, Some e => ret (Some e)
              | None, None => panic
              | Some cfg, None => syncFetched key cfg
              end
        end
  end.

(** [processNextWorkItem] once [queue.Get] has handed out [key]. *)
Definition processNextWorkItem (key : string) (q : Queue) : M Queue :=
  let* err := syncContainerRuntimeConfig key in
  ret (handleErr err key q).

(** *** registriesConfigIgnition and syncImageConfig *)

(** Decode an original file and apply [update] to it; a nil file pointer is
    dereferenced. *)
Definition updateOriginal (orig : option IgnFile) (what : string)
    (update : string -> string * option error) : M (option string * option error) :=
  match orig with
  | None => panic
  | Some f =>
      match contentsSource f with
      | None => ret (None, Some (Errorf ["original "; what; " is empty"]))
      | Some src =>
          match dataurlDecodeString src with
          | (_, Some e) =>
              ret (None, Some (Errorf ["could not decode original "; what; ": "; errorString e]))
          | (dataURL, None) =>
              match update dataURL with
              | (_, Some e) =>
                  ret (None, Some (Errorf ["could not update "; what; " with new changes: "; errorString e]))
              | (out, None) => ret (Some out, None)
              end
          end
      end
  end.

Definition registriesConfigIgnition (controllerConfig : ControllerConfig) (role : string)
    (insecureRegs blockedRegs allowedRegs searchRegs : option (list string))
    (icspRules : list ImageContentSourcePolicy) : M (option IgnConfig * option error) :=
  let* (_, originalRegistriesIgn, originalPolicyIgn, err) :=
    generateOriginalContainerRuntimeConfigs controllerConfig role in
  match err with
  | Some e =>
      ret (None, Some (Errorf ["could not generate origin ContainerRuntime Configs: "; errorString e]))
  | None =>
      let* (registriesTOML, err) :=
        if bool_decide (is_Some insecureRegs) || bool_decide (is_Some blockedRegs)
           || negb (length icspRules =? 0)%nat
        then updateOriginal originalRegistriesIgn "registries config"
               (fun d => updateRegistriesConfig d insecureRegs blockedRegs icspRules)
        else ret (None, None) in
      match err with
      | Some e => ret (None, Some e)
      | None =>
          let* (policyJSON, err) :=
            if bool_decide (is_Some blockedRegs) || bool_decide (is_Some allowedRegs)
            then updateOriginal originalPolicyIgn "policy json"
                   (fun d => updatePolicyJSON d blockedRegs allowedRegs)
            else ret (None, None) in
          match err with
          | Some e => ret (None, Some e)
          | None =>
              let generatedConfigFileList :=
                [ {| filePath := registriesConfigPath; data := registriesTOML |};
                  {| filePath := policyConfigPath; data := policyJSON |} ] in
              let generatedConfigFileList :=
                match searchRegs with
                | Some s => (generatedConfigFileList ++ updateSearchRegistriesConfig s)%list
                | None => generatedConfigFileList
                end in
              ret (Some (createNewIgnition generatedConfigFileList), None)
          end
      end
  end.

Definition imageOwnerReference (imgcfg : Image) : OwnerReference :=
  {| orAPIVersion := "config.openshift.io/v1"; orKind := "Image";
     orName := imgName imgcfg; orUID := imgUID imgcfg; orController := false |}.

(** One run of the closure of lines 758 to 810; [applied] is the variable it
    captures. *)
Definition syncImageAttempt (imgcfg : Image) (blockedRegs : option (list string))
    (controllerConfig : ControllerConfig) (icspRules : list ImageContentSourcePolicy)
    (role managedKey : string) (applied : bool) : M (bool * option error) :=
  let* (registriesIgn, err) :=
    registriesConfigIgnition controllerConfig role (InsecureRegistries imgcfg) blockedRegs
      (AllowedRegistries imgcfg) (ContainerRuntimeSearchRegistries imgcfg) icspRules in
  match registriesIgn, err with
  | _, Some e => ret (applied, Some e)
  | None, None => panic
  | Some registriesIgn, None =>
      match jsonMarshal registriesIgn with
      | (_, Some e) =>
          ret (applied, Some (Errorf ["could not encode registries Ignition config: "; errorString e]))
      | (rawRegistriesIgn, None) =>
          let* (mc, err) := MachineConfigs_Get managedKey in
          if bool_decide (is_Some err) && negb (IsNotFound err)
          then ret (applied, Some (Errorf ["could not find MachineConfig: "; fmtErr err]))
          else
            let isNotFound := IsNotFound err in
            if negb isNotFound && String.eqb rawRegistriesIgn (mcRaw mc)
               && String.eqb (goIndex (mcAnnotations mc) GeneratedByControllerVersionAnnotationKey)
                             versionHash
            then ret (false, None)
            else
              match (if isNotFound
                     then MachineConfigFromIgnConfig role managedKey NewIgnConfig
                     else (mc, None)) with
              | (_, Some e) =>
                  ret (applied,
                       Some (Errorf ["could not create MachineConfig from new Ignition config: ";
                                     errorString e]))
              | (mc, None) =>
                  let mc := withRaw rawRegistriesIgn mc in
                  let mc := SetAnnotations {[ GeneratedByControllerVersionAnnotationKey := versionHash ]} mc in
                  let mc := SetOwnerReferences [imageOwnerReference imgcfg] mc in
                  let* err := if isNotFound then MachineConfigs_Create mc else MachineConfigs_Update mc in
                  ret (applied, err)
              end
      end
  end.

Fixpoint syncImagePools (imgcfg : Image) (blockedRegs : option (list string))
    (controllerConfig : ControllerConfig) (icspRules : list ImageContentSourcePolicy)
    (pools : list MachineConfigPool) : M (option error) :=
  match pools with
  | [] => ret None
  | pool :: rest =>
      let role := poolName pool in
      let* (managedKey, err) := getManagedKeyReg pool in
      match err with
      | Some e => ret (Some e)
      | None =>
          let* (applied, err) :=
            RetryOnConflict
              (syncImageAttempt imgcfg blockedRegs controllerConfig icspRules role managedKey) true in
          match err with
          | Some e => ret (Some (Errorf ["could not Create/Update MachineConfig: "; errorString e]))
          | None => syncImagePools imgcfg blockedRegs controllerConfig icspRules rest
          end
      end
  end.

Definition syncImageConfig (key : string) : M (option error) :=
  let* (mimg, err) := imgLister_Get "cluster" in
  if IsNotFound err then ret None
  else
    match mimg, err with
    | _, Some e => ret (Some e)
    | None, None => panic
    | Some imgcfg, None =>
        let* (mcv, err) := clusterVersionLister_Get "version" in
        if IsNotFound err then ret None
        else
          match mcv, err with
          | _, Some e => ret (Some e)
          | None, None => panic
          | Some clusterVersionCfg, None =>
              let '(blockedRegs, err) := getValidBlockedRegistries (cvDesiredImage clusterVersionCfg) imgcfg in
              if bool_decide (err = Some errParsingReference) then ret err
              else
                let* (mcc, err) := ccLister_Get ControllerConfigName in
                match mcc, err with
                | _, Some e => ret (Some (Errorf ["could not get ControllerConfig "; errorString e]))
                | None, None => panic
                | Some controllerConfig, None =>
                    let* (icspRules, err) := icspLister_List in
                    if bool_decide (is_Some err) && negb (IsNotFound err) then ret err
                    else
                      let icspRules := if IsNotFound err then [] else icspRules in
                      match LabelSelectorAsSelector
                              (Some (AddLabelToSelector emptyLabelSelector builtInLabelKey "")) with
                      | (_, Some e) => ret (Some e)
                      | (sel, None) =>
                          let* (mcpPools, err) := mcpLister_List sel in
                          match err with
                          | Some e => ret (Some e)
                          | None => syncImagePools imgcfg blockedRegs controllerConfig icspRules mcpPools
                          end
                      end
                end
          end
    end.

(** *** Vocabulary of the properties *)

(** The cached object after one recording of [err] at time [t]. *)
Definition recorded (err : option error) (args : list string) (t : nat)
    (c : ContainerRuntimeConfig) : ContainerRuntimeConfig :=
  withStatus
    (if negb (crcGeneration c =? crcObservedGeneration c) then crcGeneration c
     else crcObservedGeneration c)
    (recordCondition (crcConditions c) (wrapErrorWithCondition err args t)) c.

(** [n] recordings in a row. *)
Fixpoint syncStatusTimes (n : nat) (cfg : ContainerRuntimeConfig) (err : option error)
    (args : list string) : M unit :=
  match n with
  | O => ret tt
  | S n' =>
      let* _ := syncStatusOnly cfg err args in
      syncStatusTimes n' cfg err args
  end.

End ControllerCode.

(** ** A concrete instance of the helpers, for evaluation *)

(** [fmt.Sprintf] for formats whose only verb is [%v]. *)
Fixpoint Sprintf (format : string) (args : list string) : string :=
  match format with
  | String "%" (String "v" rest) =>
      match args with
      | a :: args' => (a ++ Sprintf rest args')%string
      | [] => ("%!v(MISSING)" ++ Sprintf rest [])%string
      end
  | String c rest => String c (Sprintf rest args)
  | EmptyString => EmptyString
  end.

Definition validLogLevels : list string :=
  ["error"; "fatal"; "panic"; "warn"; "info"; "debug"; "trace"].

(** Modelled from the spec: [validateUserContainerRuntimeConfig] is in the
    package's [helpers.go]; section 4.2 says what it checks: the log level is
    one of a fixed enum, the pids limit is positive, the sizes are not
    negative.  The members of the enum are not in the spec. *)
Definition specValidate (cfg : ContainerRuntimeConfig) : option error :=
  let c := crcSpec cfg in
  if negb (String.eqb (LogLevel c) "") && negb (InSlice (LogLevel c) validLogLevels)
  then Some (PlainError "invalid LogLevel")
  else if match PidsLimit c with Some n => n <=? 0 | None => false end
  then Some (PlainError "invalid PidsLimit")
  else if (LogSizeMax c <? 0) || (OverlaySize c <? 0)
  then Some (PlainError "invalid size")
  else None.

(** Modelled from the spec: [wrapErrorWithCondition] is in [helpers.go]; the
    condition records success or the error, and a format given with its
    arguments replaces the message. *)
Definition specWrapErrorWithCondition (err : option error) (args : list string) (t : nat)
  : ContainerRuntimeConfigCondition :=
  let base :=
    match err with
    | Some e => (ContainerRuntimeConfigFailure, false, ("Error: " ++ errorString e)%string)
    | None => (ContainerRuntimeConfigSuccess, true, "Success")
    end in
  {| condType := fst (fst base); condStatus := snd (fst base);
     condMessage := match args with
                    | format :: rest => Sprintf format rest
                    | [] => snd base
                    end;
     condLastTransitionTime := t |}.

Definition specSuffixKey : string := "machineconfiguration.openshift.io/mc-name-suffix".

(** Modelled from the spec: the managed keys are computed in [helpers.go];
    section 4.2 makes the key a function of the pool's role and of the suffix
    annotation of the intent when there is one. *)
Definition specManagedKeyCtrCfg (pool : MachineConfigPool)
    (cfg : ContainerRuntimeConfig) : string * option error :=
  match crcAnnotations cfg !! specSuffixKey with
  | Some s => (("99-" ++ poolName pool ++ "-generated-containerruntime-" ++ s)%string, None)
  | None => (("99-" ++ poolName pool ++ "-generated-containerruntime")%string, None)
  end.

Definition specFile (path content : string) : IgnFile :=
  {| ignPath := path; contentsSource := Some content |}.

#[local] Instance specHelpers : Helpers := {|
  versionHash := "v2";
  GeneratedByControllerVersionAnnotationKey := "machineconfiguration.openshift.io/generated-by-controller-version";
  MCNameSuffixAnnotationKey := specSuffixKey;
  ControllerConfigName := "machine-config-controller";
  SchemeGroupVersion := "machineconfiguration.openshift.io/v1";
  storageConfigPath := "/etc/containers/storage.conf";
  registriesConfigPath := "/etc/containers/registries.conf";
  policyConfigPath := "/etc/containers/policy.json";
  validateUserContainerRuntimeConfig := specValidate;
  wrapErrorWithCondition := specWrapErrorWithCondition;
  getManagedKeyCtrCfg := fun pool cfg => ret (specManagedKeyCtrCfg pool cfg);
  getManagedKeyReg := fun pool => ret (("99-" ++ poolName pool ++ "-generated-registries")%string, None);
  getManagedKeySeccomp := fun pool => ("99-" ++ poolName pool ++ "-generated-crio-seccomp-use-default")%string;
  GenerateMachineConfigsForRole := fun _ role _ =>
    ([ {| mcName := ("01-" ++ role ++ "-container-runtime")%string; mcLabels := ∅;
          mcAnnotations := ∅; mcOwnerReferences := []; mcRaw := "defaults" |} ], None);
  findStorageConfig := fun _ => (Some (specFile "/etc/containers/storage.conf" "storage"), None);
  findRegistriesConfig := fun _ => (Some (specFile "/etc/containers/registries.conf" "registries"), None);
  findPolicyJSON := fun _ => (Some (specFile "/etc/containers/policy.json" "policy"), None);
  dataurlDecodeString := fun s => (s, None);
  updateStorageConfig := fun d _ => ((d ++ "+size")%string, None);
  createCRIODropinFiles := fun _ => [ {| filePath := "/etc/crio/crio.conf.d/01-ctrcfg"; data := Some "crio" |} ];
  createNewIgnition := fun fs =>
    {| ignFiles := List.map (fun f => {| ignPath := filePath f; contentsSource := data f |}) fs |};
  createDefaultSeccompUseDefaultWhenEmptyFile :=
    [ {| filePath := "/etc/crio/crio.conf.d/01-mc-seccompUseDefault"; data := Some "seccomp" |} ];
  NewIgnConfig := {| ignFiles := [] |};
  MachineConfigFromIgnConfig := fun role name _ =>
    ({| mcName := name; mcLabels := {[ "machineconfiguration.openshift.io/role" := role ]};
        mcAnnotations := ∅; mcOwnerReferences := []; mcRaw := "" |}, None);
  jsonMarshal := fun ign =>
    (String.concat ";" (List.map (fun f => (ignPath f ++ "=" ++ default "" (contentsSource f))%string)
                          (ignFiles ign)), None);
  getValidBlockedRegistries := fun _ img => (BlockedRegistries img, None);
  updateRegistriesConfig := fun d _ _ _ => ((d ++ "+regs")%string, None);
  updatePolicyJSON := fun d _ _ => ((d ++ "+policy")%string, None);
  updateSearchRegistriesConfig := fun _ => [];
  validateLabelKey := fun _ => None;
  validateLabelValue := fun _ _ => None;
  getManagedKeyCtrCfg_logs := fun _ _ w => ex_intro _ [] (eq_sym (app_nil_r (trace w)));
  getManagedKeyReg_logs := fun _ w => ex_intro _ [] (eq_sym (app_nil_r (trace w)))
|}.

(** ** Vocabulary of the properties *)

(** A selector that is nil or has no requirement. *)
Definition selectsNothing (ps : option LabelSelector) : Prop :=
  match ps with
  | None => True
  | Some s => MatchLabels s = [] /\ MatchExpressions s = []
  end.

(** [m] may panic; the world it leaves is related by [R] to the one it
    started in. *)
Definition steps (R : relation World) {A} (m : M A) : Prop :=
  forall w, R w (finalWorld (m w)).

(** The trace of [w'] is the one of [w] followed by calls that satisfy [P]. *)
Definition appends (P : Call -> Prop) (w w' : World) : Prop :=
  exists l, trace w' = (trace w ++ l)%list /\ Forall P l.

(** The calls [m] makes all satisfy [P]. *)
Abbreviation emits P := (steps (appends P)).

Definition sameMachineConfigs (w w' : World) : Prop := mcStore w' = mcStore w.

(** [m] returns, and the calls it makes all satisfy [P]. *)
Definition returns {A} (P : Call -> Prop) (m : M A) : Prop :=
  forall w, exists a w', m w = Done a w' /\ appends P w w'.

(** What [m] returns, when it returns, satisfies [Q]. *)
Definition yields {A} (Q : A -> Prop) (m : M A) : Prop :=
  forall w a w', m w = Done a w' -> Q a.

Definition anyCall (c : Call) : Prop := True.

(** The calls that read or write a ContainerRuntimeConfig. *)
Definition onIntent (c : Call) : bool :=
  match c with
  | CtrCfgListerGet _ | CtrCfgUpdateStatus _ | CtrCfgUpdate _ | CtrCfgPatch _ => true
  | _ => false
  end.

(** The world after the calls [l]: they are traced, and nothing else
    changes. *)
Definition logCalls (l : list Call) (w : World) : World :=
  fold_left (fun w c => logCall c w) l w.

(** The selector of the pools that the operator itself manages. *)
Definition builtInSelector : option LabelSelector :=
  Some (AddLabelToSelector emptyLabelSelector builtInLabelKey "").

(** The pools that the lister returns for [sel]. *)
Definition listedPools (sel : Selector) (w : World) : list MachineConfigPool :=
  List.filter (fun p => SelectorMatches sel (poolLabels p)) (mcpCache w).

(** The marker config map that [createSeccompUseDefaultMC] creates. *)
Definition markerOf (ctrl : Controller) : ConfigMap :=
  {| cmName := configMapName; cmNamespace := namespace ctrl |}.

(** The machine config that [createSeccompUseDefaultMC] creates for [pool]
    when [raw] is the encoded Ignition config. *)
Definition seccompMC `{Helpers} (raw : string) (pool : MachineConfigPool) : MachineConfig :=
  withRaw raw
    (fst (MachineConfigFromIgnConfig (poolName pool) (getManagedKeySeccomp pool) NewIgnConfig)).

(** [MachineConfigFromIgnConfig] builds the machine config of [pool], under
    the name it is asked for. *)
Definition seccompBuildable `{Helpers} (raw : string) (pool : MachineConfigPool) : Prop :=
  snd (MachineConfigFromIgnConfig (poolName pool) (getManagedKeySeccomp pool) NewIgnConfig) = None /\
  mcName (seccompMC raw pool) = getManagedKeySeccomp pool.

(** What the ensure leaves in [w1] when it started in [w] with [pools] to
    serve: the marker, every machine config that was there, a machine
    config under the key of each pool, and nothing new but the machine
    configs built for the pools. *)
Definition seccompEnsured `{Helpers} (ctrl : Controller) (raw : string)
    (pools : list MachineConfigPool) (w w1 : World) : Prop :=
  cmStore w1 = <[configMapName := markerOf ctrl]> (cmStore w) /\
  mcStore w ⊆ mcStore w1 /\
  (forall p, List.In p pools -> is_Some (mcStore w1 !! getManagedKeySeccomp p)) /\
  (forall k mc, mcStore w1 !! k = Some mc ->
     mcStore w !! k = Some mc \/
     exists p, List.In p pools /\ k = getManagedKeySeccomp p /\ mc = seccompMC raw p).

(** The version annotation of [mc] is the controller's version. *)
Definition sameVersion `{Helpers} (mc : MachineConfig) : bool :=
  String.eqb (goIndex (mcAnnotations mc) GeneratedByControllerVersionAnnotationKey) versionHash.

(** The payload that the image pass renders for the pool of role [role]:
    the encoded result of [registriesConfigIgnition], when there is one. *)
Definition freshPayload `{Helpers} (ctrl : Controller) (cc : ControllerConfig) (imgcfg : Image)
    (blockedRegs : option (list string)) (icspRules : list ImageContentSourcePolicy)
    (role : string) (w : World) : option string :=
  match returned (registriesConfigIgnition ctrl cc role (InsecureRegistries imgcfg) blockedRegs
                    (AllowedRegistries imgcfg) (ContainerRuntimeSearchRegistries imgcfg)
                    icspRules w) with
  | Some (Some ign, None) =>
      match jsonMarshal ign with
      | (raw, None) => Some raw
      | (_, Some _) => None
      end
  | _ => None
  end.

(** [mc] as the image pass writes it: with the payload [raw], the
    controller's version as its only annotation and the Image as its
    owner. *)
Definition imageWrite `{Helpers} (imgcfg : Image) (raw : string) (mc : MachineConfig)
  : MachineConfig :=
  SetOwnerReferences [imageOwnerReference imgcfg]
    (SetAnnotations {[ GeneratedByControllerVersionAnnotationKey := versionHash ]}
       (withRaw raw mc)).

(** The check of the image pass on the machine config it found: its payload
    is [raw] and its version is the controller's. *)
Definition unchangedByImage `{Helpers} (raw : string) (mc : MachineConfig) : bool :=
  String.eqb raw (mcRaw mc) && sameVersion mc.

(** The machine config that the image pass starts from when the pool has
    none. *)
Definition imageTemplate `{Helpers} (keyOf : MachineConfigPool -> string)
    (p : MachineConfigPool) : MachineConfig * option error :=
  MachineConfigFromIgnConfig (poolName p) (keyOf p) NewIgnConfig.

(** The image pass can serve the pool [p]: the machine config in [store] is
    stored under its name, or [MachineConfigFromIgnConfig] builds one under
    the name it is asked for. *)
Definition imageReady `{Helpers} (keyOf : MachineConfigPool -> string)
    (store : gmap string MachineConfig) (p : MachineConfigPool) : Prop :=
  match store !! keyOf p with
  | Some mc => mcName mc = keyOf p
  | None => snd (imageTemplate keyOf p) = None /\ mcName (fst (imageTemplate keyOf p)) = keyOf p
  end.

(** The calls of the image pass for the pool [p], when the pass started
    with the machine configs [store] and renders the payload [rawOf p]: the
    calls [keyCalls p] of the helper that finds the key, the rendering, the
    read, and the write when there is one. *)
Definition imageCalls `{Helpers} (keyCalls : MachineConfigPool -> list Call)
    (keyOf rawOf : MachineConfigPool -> string) (store : gmap string MachineConfig)
    (p : MachineConfigPool) : list Call :=
  (keyCalls p ++ [RenderTemplates (poolName p); MachineConfigsGet (keyOf p)]
   ++ match store !! keyOf p with
      | Some mc => if unchangedByImage (rawOf p) mc then [] else [MachineConfigsUpdate (keyOf p)]
      | None => [MachineConfigsCreate (keyOf p)]
      end)%list.

(** The machine config of the pool [p] after the image pass. *)
Definition imageResult `{Helpers} (imgcfg : Image) (keyOf rawOf : MachineConfigPool -> string)
    (store : gmap string MachineConfig) (p : MachineConfigPool) : MachineConfig :=
  match store !! keyOf p with
  | Some mc => if unchangedByImage (rawOf p) mc then mc else imageWrite imgcfg (rawOf p) mc
  | None => imageWrite imgcfg (rawOf p) (fst (imageTemplate keyOf p))
  end.

(** A computation that neither reads nor writes the world. *)
Definition pureM {A} (m : M A) : Prop :=
  forall w w', m w' = match returned (m w) with
                      | Some r => Done r w'
                      | None => Panicked w'
                      end.


(** ** Concrete clusters, for evaluation *)

Definition exampleCtrl : Controller :=
  {| templatesDir := "/etc/mcc/templates"; namespace := "openshift-machine-config-operator" |}.

Definition workerPool : MachineConfigPool :=
  {| poolName := "worker"; poolLabels := {[ "pool" := "worker"; builtInLabelKey := "" ]} |}.

Definition workerSelector : option LabelSelector :=
  Some {| MatchLabels := [("pool", "worker")]; MatchExpressions := [] |}.

Definition markerCM : ConfigMap :=
  {| cmName := configMapName; cmNamespace := "openshift-machine-config-operator" |}.

Definition exampleCC : ControllerConfig :=
  {| ccName := "machine-config-controller"; ccReleaseImage := "quay.io/example/release@sha256:abc" |}.

Definition workerKey : string := "99-worker-generated-containerruntime".

Definition successCondition (t : nat) : ContainerRuntimeConfigCondition :=
  {| condType := ContainerRuntimeConfigSuccess; condStatus := true;
     condMessage := "Success"; condLastTransitionTime := t |}.

Definition intent (name : string) (generation observed : Z) (pids : option Z)
    (deleted : option nat) (finalizers : list string) (annotations : gmap string string)
    (sel : option LabelSelector) (conds : list ContainerRuntimeConfigCondition)
  : ContainerRuntimeConfig :=
  {| crcName := name; crcUID := "uid-1"; crcGeneration := generation;
     crcDeletionTimestamp := deleted; crcFinalizers := finalizers;
     crcAnnotations := annotations; crcPoolSelector := sel;
     crcSpec := {| LogLevel := ""; PidsLimit := pids; LogSizeMax := 0; OverlaySize := 0 |};
     crcObservedGeneration := observed; crcConditions := conds |}.

Definition generatedMC (name version raw : string) : MachineConfig :=
  {| mcName := name; mcLabels := ∅;
     mcAnnotations := {[ "machineconfiguration.openshift.io/generated-by-controller-version" := version ]};
     mcOwnerReferences := []; mcRaw := raw |}.

(** A cluster in its steady state: the marker config map is there, the
    cache and the store agree on the one object [cfg], no failure is
    injected. *)
Definition steadyWorld (cfg : ContainerRuntimeConfig) (mcs : list MachineConfig) : World :=
  {| mccrCache := {[ crcName cfg := cfg ]};
     mccrStore := {[ crcName cfg := cfg ]};
     mcStore := list_to_map (List.map (fun mc => (mcName mc, mc)) mcs);
     cmStore := {[ configMapName := markerCM ]};
     mcpCache := [workerPool];
     ccCache := {[ "machine-config-controller" := exampleCC ]};
     imgCache := ∅; cvCache := ∅; icspCache := []; clock := O;
     faults := []; trace := [] |}.

Definition emptyQueue : Queue := {| failures := ∅; qops := [] |}.

(** An object whose pids limit is not positive. *)
Definition badCfg : ContainerRuntimeConfig :=
  intent "bad" 1 0 (Some 0) None [] ∅ workerSelector [].

Definition badWorld : World := steadyWorld badCfg [].

(** An object already processed by this version of the controller. *)
Definition doneCfg : ContainerRuntimeConfig :=
  intent "set-pids" 1 1 (Some 2048) None [workerKey] ∅ workerSelector [successCondition 7].

Definition currentWorld : World :=
  steadyWorld doneCfg [generatedMC workerKey "v2" "/etc/crio/crio.conf.d/01-ctrcfg=crio"].

(** The same after an upgrade of the controller from version v1. *)
Definition upgradedWorld : World :=
  steadyWorld doneCfg [generatedMC workerKey "v1" "/etc/crio/crio.conf.d/01-ctrcfg=crio"].

(** The object being deleted. *)
Definition deletedCfg : ContainerRuntimeConfig :=
  intent "set-pids" 1 1 (Some 2048) (Some 9%nat) [workerKey] ∅ workerSelector [successCondition 7].

Definition deletingWorld : World :=
  steadyWorld deletedCfg [generatedMC workerKey "v2" "/etc/crio/crio.conf.d/01-ctrcfg=crio"].

(** An object whose generation is observed and whose conditions are gone. *)
Definition clearedCfg : ContainerRuntimeConfig :=
  intent "set-pids" 1 1 (Some 2048) None [workerKey] ∅ workerSelector [].

Definition clearedWorld : World :=
  steadyWorld clearedCfg [generatedMC workerKey "v2" "/etc/crio/crio.conf.d/01-ctrcfg=crio"].

(** An object that carries an annotation of its user. *)
Definition annotatedCfg : ContainerRuntimeConfig :=
  intent "set-pids" 1 0 (Some 2048) None [] {[ "owner" := "team-a" ]} workerSelector [].

Definition annotatedWorld : World := steadyWorld annotatedCfg [].

(** An object with no selector. *)
Definition unselectingCfg : ContainerRuntimeConfig :=
  intent "everywhere" 1 0 (Some 2048) None [] ∅ None [].

Definition exampleImage : Image :=
  {| imgName := "cluster"; imgUID := "uid-img";
     InsecureRegistries := Some ["local.registry:5000"]; BlockedRegistries := None;
     AllowedRegistries := None; ContainerRuntimeSearchRegistries := None |}.

Definition registriesKey : string := "99-worker-generated-registries".

Definition registriesRaw : string :=
  "/etc/containers/registries.conf=registries+regs;/etc/containers/policy.json=".

Definition imageWorld (version : string) : World :=
  steadyWorld doneCfg [generatedMC registriesKey version registriesRaw].

(** A cluster before its first pass: the marker config map is not there
    yet. *)
Definition freshWorld (cfg : ContainerRuntimeConfig) (mcs : list MachineConfig) : World :=
  setCmStore (fun _ => ∅) (steadyWorld cfg mcs).

Definition seccompKey : string := "99-worker-generated-crio-seccomp-use-default".

Definition exampleClusterVersion : ClusterVersion :=
  {| cvDesiredImage := "quay.io/example/release@sha256:abc" |}.

Definition registriesMC (version : string) : MachineConfig :=
  generatedMC registriesKey version registriesRaw.

(** A cluster with its Image and its ClusterVersion, and the machine configs
    [mcs]. *)
Definition policyWorld (mcs : list MachineConfig) : World :=
  {| mccrCache := {[ crcName doneCfg := doneCfg ]};
     mccrStore := {[ crcName doneCfg := doneCfg ]};
     mcStore := list_to_map (List.map (fun mc => (mcName mc, mc)) mcs);
     cmStore := {[ configMapName := markerCM ]};
     mcpCache := [workerPool];
     ccCache := {[ "machine-config-controller" := exampleCC ]};
     imgCache := {[ "cluster" := exampleImage ]};
     cvCache := {[ "version" := exampleClusterVersion ]};
     icspCache := []; clock := O; faults := []; trace := [] |}.

(** The key of the registries machine config of a pool. *)
Definition registriesKeyOf (pool : MachineConfigPool) : string :=
  ("99-" ++ poolName pool ++ "-generated-registries")%string.

(** ** The rest of the controller file *)

Global Instance LabelSelectorOperator_eq_dec : EqDecision LabelSelectorOperator.
Proof. solve_decision. Defined.
Global Instance LabelSelectorRequirement_eq_dec : EqDecision LabelSelectorRequirement.
Proof. solve_decision. Defined.
Global Instance LabelSelector_eq_dec : EqDecision LabelSelector.
Proof. solve_decision. Defined.
Global Instance ContainerRuntimeConfiguration_eq_dec : EqDecision ContainerRuntimeConfiguration.
Proof. solve_decision. Defined.

(** [cache.MetaNamespaceKeyFunc], on the namespace and the name of the
    object. *)
Definition MetaNamespaceKeyFunc (ns name : string) : string :=
  if (0 <? String.length ns)%nat then (ns ++ "/" ++ name)%string else name.

(** The key that [enqueue] and [enqueueRateLimited] add to the queue:
    [cache.DeletionHandlingMetaNamespaceKeyFunc] of an object that is not a
    tombstone.  A ContainerRuntimeConfig has no namespace (the lister and
    the client are used without one). *)
Definition enqueueKey (cfg : ContainerRuntimeConfig) : string :=
  MetaNamespaceKeyFunc "" (crcName cfg).

(** [ctrConfigTriggerObjectChange].  The deletion timestamps are pointers
    and are compared as such: two nil pointers are equal, a nil and a
    non-nil one are not, and two non-nil ones are equal when they are the
    same pointer, which [samePointer] says.  The specs are compared by
    [reflect.DeepEqual]. *)
Definition ctrConfigTriggerObjectChange (samePointer : bool)
    (old new : ContainerRuntimeConfig) : bool :=
  if match crcDeletionTimestamp old, crcDeletionTimestamp new with
     | None, None => false
     | Some _, Some _ => negb samePointer
     | _, _ => true
     end
  then true
  else if negb (bool_decide ((crcPoolSelector old, crcSpec old) = (crcPoolSelector new, crcSpec new)))
       then true
       else false.

(** [updateContainerRuntimeConfig]: the key it enqueues, if any. *)
Definition updateContainerRuntimeConfig (samePointer : bool)
    (oldCtrCfg newCtrCfg : ContainerRuntimeConfig) : option string :=
  if ctrConfigTriggerObjectChange samePointer oldCtrCfg newCtrCfg
  then Some (enqueueKey newCtrCfg)
  else None.

(** [addContainerRuntimeConfig]: the key it enqueues. *)
Definition addContainerRuntimeConfig (cfg : ContainerRuntimeConfig) : string :=
  enqueueKey cfg.

(** [handleImgErr], on the queue of the image pass. *)
Definition handleImgErr (err : option error) (key : string) (imgQueue : Queue) : Queue :=
  match err with
  | None => Forget key imgQueue
  | Some e =>
      if (NumRequeues key imgQueue <? maxRetries)%nat then AddRateLimited key imgQueue
      else AddAfter key 60 (Forget key (HandleError e imgQueue))
  end.

Section MoreControllerCode.
Context `{Helpers}.
Variable ctrl : Controller.

(** [processNextImgWorkItem] once [imgQueue.Get] has handed out [key]. *)
Definition processNextImgWorkItem (key : string) (imgQueue : Queue) : M Queue :=
  let* err := syncImageConfig ctrl key in
  ret (handleImgErr err key imgQueue).

(** [RunSeccompUseDefaultBootstrap]. *)
Fixpoint RunSeccompUseDefaultBootstrap (mcpPools : list MachineConfigPool)
  : list MachineConfig * option error :=
  match mcpPools with
  | [] => ([], None)
  | pool :: rest =>
      let seccompUseDefaultIgn := createNewIgnition createDefaultSeccompUseDefaultWhenEmptyFile in
      match MachineConfigFromIgnConfig (poolName pool) (getManagedKeySeccomp pool) seccompUseDefaultIgn with
      | (_, Some e) =>
          ([], Some (Errorf ["could not create MachineConfig from new Ignition config: "; errorString e]))
      | (mc, None) =>
          match RunSeccompUseDefaultBootstrap rest with
          | (_, Some e) => ([], Some e)
          | (res, None) => (mc :: res, None)
          end
      end
  end.

End MoreControllerCode.

(** ** Vocabulary of the further properties *)

(** [m] returns a value that satisfies [Q], in a world related by [R] to
    the one it started in. *)
Definition returnsWith {A} (Q : A -> Prop) (R : relation World) (m : M A) : Prop :=
  forall w, exists a w', m w = Done a w' /\ Q a /\ R w w'.

(** The stores of machine configs and of config maps are as they were. *)
Definition sameArtifacts (w w' : World) : Prop :=
  mcStore w' = mcStore w /\ cmStore w' = cmStore w.

(** No machine config of [w] is gone or changed in [w']. *)
Definition keepsMachineConfigs (w w' : World) : Prop :=
  mcStore w ⊆ mcStore w'.

(** The store of config maps only grows. *)
Definition keepsConfigMaps (w w' : World) : Prop :=
  cmStore w ⊆ cmStore w'.

(** The calls that delete a machine config. *)
Definition isDelete (c : Call) : bool :=
  match c with
  | MachineConfigsDelete _ => true
  | _ => false
  end.

(** What [cleanUpDuplicatedMC] deletes: the name holds
    [generated-containerruntime] and the version annotation is not the
    controller's. *)
Definition degraded `{Helpers} (mc : MachineConfig) : bool :=
  Contains (mcName mc) "generated-containerruntime"
  && negb (String.eqb (goIndex (mcAnnotations mc) GeneratedByControllerVersionAnnotationKey)
                      versionHash).

(** Every machine config is stored under its name. *)
Definition storedByName (m : gmap string MachineConfig) : Prop :=
  forall k mc, m !! k = Some mc -> mcName mc = k.

(** The lister answers with an object or with an error. *)
Definition listerAnswer {A} (r : option A * option error) : Prop :=
  match r with
  | (Some _, None) | (None, Some _) => True
  | _ => False
  end.


(** No call deletes a machine config or is on a ContainerRuntimeConfig. *)
Definition imageCall (c : Call) : Prop := isDelete c = false /\ onIntent c = false.

(** Every name of a machine config of [w] is still one in [w']. *)
Definition keepsNames (w w' : World) : Prop :=
  forall k, is_Some (mcStore w !! k) -> is_Some (mcStore w' !! k).

(** No call updates or deletes a machine config. *)
Definition createsOnly (c : Call) : Prop :=
  match c with
  | MachineConfigsUpdate _ | MachineConfigsDelete _ => False
  | _ => True
  end.

(** The calls of [n] attempts of [addAnnotation] on the object [name]. *)
Fixpoint annotationAttempts (n : nat) (name : string) : list Call :=
  match n with
  | O => []
  | S n' => CtrCfgListerGet name :: CtrCfgUpdate name :: annotationAttempts n' name
  end.

(** The world after the machine configs of [pools] were fetched, one by
    one, under the keys [keyOf] gives, each after the calls [keyCalls] of
    the helper that finds its key. *)
Definition fetched (keyCalls : MachineConfigPool -> list Call)
    (keyOf : MachineConfigPool -> string) (pools : list MachineConfigPool)
    (w : World) : World :=
  fold_left (fun w p => logCall (MachineConfigsGet (keyOf p)) (logCalls (keyCalls p) w)) pools w.

(** [f] is what [find] returns on the first of [gmcs] on which it reports
    no error. *)
Definition firstFound (find : MachineConfig -> option IgnFile * option error)
    (gmcs : list MachineConfig) (f : option IgnFile) : Prop :=
  exists pre g post,
    gmcs = (pre ++ g :: post)%list /\ find g = (f, None) /\
    List.Forall (fun g' => is_Some (snd (find g'))) pre.

(** [find] reports an error on each of [gmcs]. *)
Definition foundNowhere (find : MachineConfig -> option IgnFile * option error)
    (gmcs : list MachineConfig) : Prop :=
  List.Forall (fun g' => is_Some (snd (find g'))) gmcs.

(** A machine config as the passes write it: the version of the controller
    is its only annotation and [owners] are its owners. *)
Definition stamped `{Helpers} (owners : list OwnerReference) (mc : MachineConfig) : Prop :=
  mcAnnotations mc = {[ GeneratedByControllerVersionAnnotationKey := versionHash ]} /\
  mcOwnerReferences mc = owners.

(** No name of a machine config is lost, and every machine config of [w']
    is the one [w] had under that name or is one written for [owners]. *)
Definition writesStamped `{Helpers} (owners : list OwnerReference) (w w' : World) : Prop :=
  keepsNames w w' /\
  forall k mc, mcStore w' !! k = Some mc ->
               mcStore w !! k = Some mc \/ (mcName mc = k /\ stamped owners mc).

(** The files of the machine config that do not come from [storage.conf]:
    the cri-o drop-in files, when a field of theirs is set. *)
Definition crioFiles `{Helpers} (cfg : ContainerRuntimeConfig) : list generatedConfigFile :=
  let ctrcfg := crcSpec cfg in
  if negb (String.eqb (LogLevel ctrcfg) "") || bool_decide (is_Some (PidsLimit ctrcfg))
     || negb (LogSizeMax ctrcfg =? 0)
  then createCRIODropinFiles cfg
  else [].

(** The machine config that [regenerate] hands to the client. *)
Definition written `{Helpers} (cfg : ContainerRuntimeConfig) (raw : string) (mc : MachineConfig)
  : MachineConfig :=
  SetOwnerReferences [controllerRef cfg]
    (SetAnnotations {[ GeneratedByControllerVersionAnnotationKey := versionHash ]}
       (withRaw raw mc)).

(** The machine config of the bootstrap for one pool, and the error of
    [MachineConfigFromIgnConfig]. *)
Definition seccompBootstrapMC `{Helpers} (pool : MachineConfigPool)
  : MachineConfig * option error :=
  MachineConfigFromIgnConfig (poolName pool) (getManagedKeySeccomp pool)
    (createNewIgnition createDefaultSeccompUseDefaultWhenEmptyFile).

(** The queue of the image pass after the passes over [key] failed with the
    errors [errs], one after the other. *)
Definition imgFailures (key : string) (errs : list error) (imgQueue : Queue) : Queue :=
  fold_left (fun q e => handleImgErr (Some e) key q) errs imgQueue.

(** * The selectors of the build controller

    [pkg/controller/build/constants/selectors.go].  The label keys and the
    suffix of a canonicalized secret are constants of another file of the
    package; they are left abstract, and every result below holds for any
    value of them. *)

Class BuildConstants := {
  TargetMachineConfigPoolLabelKey : string;
  RenderedMachineConfigLabelKey : string;
  MachineOSConfigNameLabelKey : string;
  OnClusterLayeringLabelKey : string;
  EphemeralBuildObjectLabelKey : string;
  CanonicalSecretLabelKey : string;
  OriginalSecretNameLabelKey : string;
  canonicalSecretSuffix : string
}.

(** [strings.HasSuffix]. *)
Definition HasSuffix (s suffix : string) : bool :=
  (String.length suffix <=? String.length s)%nat
  && String.eqb (substring (String.length s - String.length suffix) (String.length suffix) s) suffix.

(** [sort.Sort(ByKey(reqs))] of the labels package: by key, ascending.
    The sort of Go is not stable, so requirements on the same key may come
    out in another order than here; [SelectorMatches] does not depend on
    the order. *)
Definition ByKey (a b : Requirement) : Prop := String.leb (reqKey a) (reqKey b) = true.

Global Instance ByKey_dec a b : Decision (ByKey a b).
Proof. unfold ByKey. apply _. Defined.

Definition sortByKey (reqs : list Requirement) : list Requirement := merge_sort ByKey reqs.

(** [labels.NewSelector]. *)
Definition NewSelector : Selector := internalSelector [].

(** [Selector.Add]: the requirements are appended and sorted; the selector
    that selects nothing stays what it is. *)
Definition SelectorAdd (sel : Selector) (reqs : list Requirement) : Selector :=
  match sel with
  | nothingSelector => nothingSelector
  | internalSelector s => internalSelector (sortByKey (s ++ reqs))
  end.

(** [labels.SelectorFromSet]: one requirement of equality for each label,
    not validated. *)
Definition SelectorFromSet (ls : gmap string string) : Selector :=
  if (size ls =? 0)%nat then internalSelector []
  else internalSelector
         (sortByKey (List.map (fun kv => {| reqKey := fst kv; reqOperator := selection_Equals;
                                            reqValues := [snd kv] |})
                              (map_to_list ls))).

Module constants.

(** The fields that the selectors read. *)
Record MachineConfigPool := {
  mcpName : string;
  mcpConfigurationName : string
}.

Record MachineOSConfig := {
  moscName : string;
  moscMachineConfigPoolName : string
}.

Record MachineOSBuild := {
  mosbName : string;
  mosbLabels : gmap string string;
  mosbDesiredConfigName : string
}.

Record Secret := {
  secretName : string;
  secretLabels : gmap string string
}.

(** A [metav1.Object], by its dynamic type. *)
Inductive Object :=
| SecretObject (secret : Secret)
| MachineOSBuildObject (mosb : MachineOSBuild)
| OtherObject (name : string) (labels : gmap string string).

Definition GetLabels (obj : Object) : gmap string string :=
  match obj with
  | SecretObject secret => secretLabels secret
  | MachineOSBuildObject mosb => mosbLabels mosb
  | OtherObject _ labels => labels
  end.

Section Selectors.
Context `{Helpers} `{BuildConstants}.

Definition MachineOSBuildSelector (mosc : MachineOSConfig) (mcp : MachineConfigPool) : Selector :=
  SelectorFromSet {[ TargetMachineConfigPoolLabelKey := mcpName mcp;
                     RenderedMachineConfigLabelKey := mcpConfigurationName mcp;
                     MachineOSConfigNameLabelKey := moscName mosc ]}.

(** The loop of [labelsToSelector]; [None] is the panic on a key that
    [labels.NewRequirement] refuses. *)
Fixpoint labelRequirements (requiredLabels : list string) (reqs : list Requirement)
  : option (list Requirement) :=
  match requiredLabels with
  | [] => Some reqs
  | label :: rest =>
      match NewRequirement label selection_Exists [] with
      | (_, Some _) => None
      | (req, None) => labelRequirements rest (reqs ++ [req])
      end
  end.

Definition labelsToSelector (requiredLabels : list string) : option Selector :=
  match labelRequirements requiredLabels [] with
  | None => None
  | Some reqs => Some (SelectorAdd NewSelector reqs)
  end.

Definition OSBuildSelector : option Selector :=
  labelsToSelector [OnClusterLayeringLabelKey; RenderedMachineConfigLabelKey;
                    TargetMachineConfigPoolLabelKey].

Definition EphemeralBuildObjectSelector : option Selector :=
  labelsToSelector [EphemeralBuildObjectLabelKey; OnClusterLayeringLabelKey;
                    RenderedMachineConfigLabelKey; TargetMachineConfigPoolLabelKey].

(** [None] is the panic of [labelsToSelector]. *)
Definition EphemeralBuildObjectSelectorForSpecificBuild (mosb : MachineOSBuild)
    (mosc : MachineOSConfig) : option (option Selector * option error) :=
  match labelsToSelector [EphemeralBuildObjectLabelKey; OnClusterLayeringLabelKey] with
  | None => None
  | Some selector =>
      match NewRequirement RenderedMachineConfigLabelKey selection_Equals
              [mosbDesiredConfigName mosb] with
      | (_, Some err) => Some (None, Some err)
      | (renderedMCSelector, None) =>
          match NewRequirement TargetMachineConfigPoolLabelKey selection_Equals
                  [moscMachineConfigPoolName mosc] with
          | (_, Some err) => Some (None, Some err)
          | (mcpSelector, None) =>
              Some (Some (SelectorAdd selector [renderedMCSelector; mcpSelector]), None)
          end
      end
  end.

Definition CanonicalizedSecretSelector : option Selector :=
  labelsToSelector [CanonicalSecretLabelKey; OriginalSecretNameLabelKey;
                    OnClusterLayeringLabelKey].

Definition hasCanonicalizedSecretLabels (secret : Secret) : option bool :=
  match CanonicalizedSecretSelector with
  | None => None
  | Some sel => Some (SelectorMatches sel (secretLabels secret))
  end.

Definition isCanonicalizedSecret (secret : Secret) : option bool :=
  match hasCanonicalizedSecretLabels secret with
  | None => None
  | Some b => Some (b && HasSuffix (secretName secret) canonicalSecretSuffix)
  end.

Definition isEphemeralBuildObject (obj : Object) : option bool :=
  match EphemeralBuildObjectSelector with
  | None => None
  | Some sel => Some (SelectorMatches sel (GetLabels obj))
  end.

Definition hasAllRequiredOSBuildLabels (inLabels : gmap string string) : option bool :=
  match OSBuildSelector with
  | None => None
  | Some sel => Some (SelectorMatches sel inLabels)
  end.

(** [None] is a panic of one of the selectors. *)
Definition IsObjectCreatedByBuildController (obj : Object) : option bool :=
  match isEphemeralBuildObject obj with
  | None => None
  | Some true => Some true
  | Some false =>
      match hasAllRequiredOSBuildLabels (GetLabels obj) with
      | None => None
      | Some true => Some true
      | Some false =>
          match obj with
          | SecretObject secret =>
              match isCanonicalizedSecret secret with
              | None => None
              | Some true => Some true
              | Some false => Some false
              end
          | MachineOSBuildObject _ => Some true
          | OtherObject _ _ => Some false
          end
      end
  end.

End Selectors.
End constants.

(** The requirement that the key [k] is present, and the one that it has
    the value [v]. *)
Definition existsRequirement (k : string) : Requirement :=
  {| reqKey := k; reqOperator := selection_Exists; reqValues := [] |}.

Definition equalsRequirement (k v : string) : Requirement :=
  {| reqKey := k; reqOperator := selection_Equals; reqValues := [v] |}.

(** The label keys of the build controller, for evaluation. *)
#[local] Instance exampleBuildConstants : BuildConstants :=
  {| TargetMachineConfigPoolLabelKey := "machineconfiguration.openshift.io/target-machine-config-pool";
     RenderedMachineConfigLabelKey := "machineconfiguration.openshift.io/rendered-machine-config";
     MachineOSConfigNameLabelKey := "machineconfiguration.openshift.io/machine-os-config";
     OnClusterLayeringLabelKey := "machineconfiguration.openshift.io/on-cluster-layering";
     EphemeralBuildObjectLabelKey := "machineconfiguration.openshift.io/ephemeral-build-object";
     CanonicalSecretLabelKey := "machineconfiguration.openshift.io/canonicalized-secret";
     OriginalSecretNameLabelKey := "machineconfiguration.openshift.io/original-secret-name";
     canonicalSecretSuffix := "-canonical" |}.

(** ** More concrete clusters, for evaluation *)

(** [specHelpers] with a [storage.conf] that cannot be updated. *)
Definition brokenStorageHelpers : Helpers :=
  {| versionHash := @versionHash specHelpers;
     GeneratedByControllerVersionAnnotationKey := @GeneratedByControllerVersionAnnotationKey specHelpers;
     MCNameSuffixAnnotationKey := @MCNameSuffixAnnotationKey specHelpers;
     ControllerConfigName := @ControllerConfigName specHelpers;
     SchemeGroupVersion := @SchemeGroupVersion specHelpers;
     storageConfigPath := @storageConfigPath specHelpers;
     registriesConfigPath := @registriesConfigPath specHelpers;
     policyConfigPath := @policyConfigPath specHelpers;
     validateUserContainerRuntimeConfig := @validateUserContainerRuntimeConfig specHelpers;
     wrapErrorWithCondition := @wrapErrorWithCondition specHelpers;
     getManagedKeyCtrCfg := @getManagedKeyCtrCfg specHelpers;
     getManagedKeyReg := @getManagedKeyReg specHelpers;
     getManagedKeySeccomp := @getManagedKeySeccomp specHelpers;
     GenerateMachineConfigsForRole := @GenerateMachineConfigsForRole specHelpers;
     findStorageConfig := @findStorageConfig specHelpers;
     findRegistriesConfig := @findRegistriesConfig specHelpers;
     findPolicyJSON := @findPolicyJSON specHelpers;
     dataurlDecodeString := @dataurlDecodeString specHelpers;
     updateStorageConfig := fun _ _ => ("", Some (PlainError "invalid overlay size"));
     createCRIODropinFiles := @createCRIODropinFiles specHelpers;
     createNewIgnition := @createNewIgnition specHelpers;
     createDefaultSeccompUseDefaultWhenEmptyFile := @createDefaultSeccompUseDefaultWhenEmptyFile specHelpers;
     NewIgnConfig := @NewIgnConfig specHelpers;
     MachineConfigFromIgnConfig := @MachineConfigFromIgnConfig specHelpers;
     jsonMarshal := @jsonMarshal specHelpers;
     getValidBlockedRegistries := @getValidBlockedRegistries specHelpers;
     updateRegistriesConfig := @updateRegistriesConfig specHelpers;
     updatePolicyJSON := @updatePolicyJSON specHelpers;
     updateSearchRegistriesConfig := @updateSearchRegistriesConfig specHelpers;
     validateLabelKey := @validateLabelKey specHelpers;
     validateLabelValue := @validateLabelValue specHelpers;
     getManagedKeyCtrCfg_logs := @getManagedKeyCtrCfg_logs specHelpers;
     getManagedKeyReg_logs := @getManagedKeyReg_logs specHelpers |}.

(** A helper that finds a key as one that is handed the client can: it
    reads the machine config under the key and answers with the key, unless
    the read failed for another reason than a missing object. *)
Definition readKey (r : string * option error) : M (string * option error) :=
  match r with
  | (key, None) =>
      let* (_, err) := MachineConfigs_Get key in
      if bool_decide (is_Some err) && negb (IsNotFound err)
      then ret ("", err)
      else ret (key, None)
  | (_, Some _) => ret r
  end.

Definition readKey_logs (r : string * option error) : logsOnly (readKey r).
Proof.
  intros w. destruct r as [key [e|]].
  - exists []. symmetry. apply app_nil_r.
  - exists [MachineConfigsGet key].
    unfold readKey, MachineConfigs_Get, bind, call, getWorld, ret.
    destruct (takeFault (MachineConfigsGet key) (faults w)) as [[e rest]|]; cbn.
    + match goal with |- context [if ?b then _ else _] => destruct b end; reflexivity.
    + destruct (mcStore w !! key); reflexivity.
Defined.

(** [specHelpers] with helpers that read the machine config under the key
    before they answer. *)
Definition readingHelpers : Helpers :=
  {| versionHash := @versionHash specHelpers;
     GeneratedByControllerVersionAnnotationKey := @GeneratedByControllerVersionAnnotationKey specHelpers;
     MCNameSuffixAnnotationKey := @MCNameSuffixAnnotationKey specHelpers;
     ControllerConfigName := @ControllerConfigName specHelpers;
     SchemeGroupVersion := @SchemeGroupVersion specHelpers;
     storageConfigPath := @storageConfigPath specHelpers;
     registriesConfigPath := @registriesConfigPath specHelpers;
     policyConfigPath := @policyConfigPath specHelpers;
     validateUserContainerRuntimeConfig := @validateUserContainerRuntimeConfig specHelpers;
     wrapErrorWithCondition := @wrapErrorWithCondition specHelpers;
     getManagedKeyCtrCfg := fun pool cfg => readKey (specManagedKeyCtrCfg pool cfg);
     getManagedKeyReg := fun pool => readKey (registriesKeyOf pool, None);
     getManagedKeySeccomp := @getManagedKeySeccomp specHelpers;
     GenerateMachineConfigsForRole := @GenerateMachineConfigsForRole specHelpers;
     findStorageConfig := @findStorageConfig specHelpers;
     findRegistriesConfig := @findRegistriesConfig specHelpers;
     findPolicyJSON := @findPolicyJSON specHelpers;
     dataurlDecodeString := @dataurlDecodeString specHelpers;
     updateStorageConfig := @updateStorageConfig specHelpers;
     createCRIODropinFiles := @createCRIODropinFiles specHelpers;
     createNewIgnition := @createNewIgnition specHelpers;
     createDefaultSeccompUseDefaultWhenEmptyFile := @createDefaultSeccompUseDefaultWhenEmptyFile specHelpers;
     NewIgnConfig := @NewIgnConfig specHelpers;
     MachineConfigFromIgnConfig := @MachineConfigFromIgnConfig specHelpers;
     jsonMarshal := @jsonMarshal specHelpers;
     getValidBlockedRegistries := @getValidBlockedRegistries specHelpers;
     updateRegistriesConfig := @updateRegistriesConfig specHelpers;
     updatePolicyJSON := @updatePolicyJSON specHelpers;
     updateSearchRegistriesConfig := @updateSearchRegistriesConfig specHelpers;
     validateLabelKey := @validateLabelKey specHelpers;
     validateLabelValue := @validateLabelValue specHelpers;
     getManagedKeyCtrCfg_logs := fun pool cfg => readKey_logs (specManagedKeyCtrCfg pool cfg);
     getManagedKeyReg_logs := fun pool => readKey_logs (registriesKeyOf pool, None) |}.

(** The key of the container runtime machine config of a pool, without
    suffix. *)
Definition runtimeKeyOf (pool : MachineConfigPool) : string :=
  ("99-" ++ poolName pool ++ "-generated-containerruntime")%string.

(** An object that asks for an overlay size and a pids limit. *)
Definition overlayCfg : ContainerRuntimeConfig :=
  {| crcName := "set-overlay"; crcUID := "uid-2"; crcGeneration := 1;
     crcDeletionTimestamp := None; crcFinalizers := []; crcAnnotations := ∅;
     crcPoolSelector := workerSelector;
     crcSpec := {| LogLevel := ""; PidsLimit := Some 2048; LogSizeMax := 0; OverlaySize := 8 |};
     crcObservedGeneration := 0; crcConditions := [] |}.

Definition staleMC : MachineConfig := generatedMC workerKey "v1" "stale".

Definition overlayWorld : World := steadyWorld overlayCfg [staleMC].

(** An object being deleted that lists three machine configs, and a
    cluster that answers the first patch with a conflict. *)
Definition threeFinalizersCfg : ContainerRuntimeConfig :=
  intent "set-pids" 1 1 (Some 2048) (Some 9%nat) ["mc-a"; "mc-b"; "mc-c"] ∅ workerSelector
    [successCondition 7].

Definition conflict : error := StatusError ReasonConflict "the object has been modified".

Definition conflictingWorld : World :=
  setFaults [(CtrCfgPatch "set-pids", conflict)] (steadyWorld threeFinalizersCfg []).

(** A cluster whose API server answers every update of the object with a
    conflict, and one where the update of the status fails. *)
Definition contendedWorld : World :=
  setFaults (repeat (CtrCfgUpdate "set-pids", conflict) 5) annotatedWorld.

Definition statusDownWorld : World :=
  setFaults [(CtrCfgUpdateStatus "bad", PlainError "connection refused")] badWorld.

(** Objects of the build controller. *)
Definition exampleMOSC : constants.MachineOSConfig :=
  {| constants.moscName := "layered"; constants.moscMachineConfigPoolName := "worker" |}.

Definition exampleMOSB : constants.MachineOSBuild :=
  {| constants.mosbName := "layered-build"; constants.mosbLabels := ∅;
     constants.mosbDesiredConfigName := "rendered-worker-1" |}.

Definition examplePool : constants.MachineConfigPool :=
  {| constants.mcpName := "worker"; constants.mcpConfigurationName := "rendered-worker-1" |}.

Definition buildLabels : gmap string string :=
  {[ "machineconfiguration.openshift.io/target-machine-config-pool" := "worker";
     "machineconfiguration.openshift.io/rendered-machine-config" := "rendered-worker-1";
     "machineconfiguration.openshift.io/machine-os-config" := "layered" ]}.

(** * Properties *)

Section Properties.
Context `{Helpers}.
Variable ctrl : Controller.

(** ** Running the monad *)

Lemma call_nofault c w : faults w = [] -> call c w = Done None (logCall c w).
Proof. intros Hf. unfold call. by rewrite Hf. Qed.

Lemma bind_run {A B} (m : M A) (k : A -> M B) w a w1 :
  m w = Done a w1 -> bind m k w = k a w1.
Proof. intros Hm. unfold bind. by rewrite Hm. Qed.

Lemma bind_panic {A B} (m : M A) (k : A -> M B) w w1 :
  m w = Panicked w1 -> bind m k w = Panicked w1.
Proof. intros Hm. unfold bind. by rewrite Hm. Qed.

Lemma retry_first_ok {S} (fn : S -> M (S * option error)) n s lastErr w s' w' :
  fn s w = Done (s', None) w' ->
  retryOnConflictN (Datatypes.S n) fn s lastErr w = Done (s', None) w'.
Proof. intros Hfn. cbn [retryOnConflictN]. by rewrite (bind_run _ _ _ _ _ Hfn). Qed.

Lemma retry_first_error {S} (fn : S -> M (S * option error)) n s lastErr w s' e w' :
  fn s w = Done (s', Some e) w' ->
  IsConflict (Some e) = false ->
  retryOnConflictN (Datatypes.S n) fn s lastErr w = Done (s', Some e) w'.
Proof.
  intros Hfn Hc. cbn [retryOnConflictN]. rewrite (bind_run _ _ _ _ _ Hfn). by rewrite Hc.
Qed.

Lemma MachineConfigs_Get_nofault name w :
  faults w = [] ->
  MachineConfigs_Get name w =
    Done (match mcStore w !! name with
          | Some mc => (mc, None)
          | None => (emptyMachineConfig, Some (notFound "machineconfigs" name))
          end) (logCall (MachineConfigsGet name) w).
Proof.
  intros Hf. unfold MachineConfigs_Get. rewrite (bind_run _ _ _ _ _ (call_nofault _ _ Hf)).
  unfold bind, getWorld. simpl. by destruct (mcStore w !! name).
Qed.

Lemma MachineConfigs_Update_nofault mc w old :
  faults w = [] ->
  mcStore w !! mcName mc = Some old ->
  MachineConfigs_Update mc w =
    Done None (setMcStore (insert (mcName mc) mc) (logCall (MachineConfigsUpdate (mcName mc)) w)).
Proof.
  intros Hf Hold. unfold MachineConfigs_Update.
  rewrite (bind_run _ _ _ _ _ (call_nofault _ _ Hf)).
  unfold bind, getWorld. simpl. by rewrite Hold.
Qed.

Lemma mccrLister_Get_nofault name w :
  faults w = [] ->
  mccrLister_Get name w =
    Done (match mccrCache w !! name with
          | Some cfg => (Some cfg, None)
          | None => (None, Some (notFound "containerruntimeconfigs" name))
          end) (logCall (CtrCfgListerGet name) w).
Proof.
  intros Hf. unfold mccrLister_Get. rewrite (bind_run _ _ _ _ _ (call_nofault _ _ Hf)).
  unfold bind, getWorld. simpl. by destruct (mccrCache w !! name).
Qed.

Lemma ccLister_Get_nofault name w :
  faults w = [] ->
  ccLister_Get name w =
    Done (match ccCache w !! name with
          | Some cc => (Some cc, None)
          | None => (None, Some (notFound "controllerconfigs" name))
          end) (logCall (ControllerConfigGet name) w).
Proof.
  intros Hf. unfold ccLister_Get. rewrite (bind_run _ _ _ _ _ (call_nofault _ _ Hf)).
  unfold bind, getWorld. simpl. by destruct (ccCache w !! name).
Qed.

Lemma mcpLister_List_nofault sel w :
  faults w = [] ->
  mcpLister_List sel w =
    Done (List.filter (fun p => SelectorMatches sel (poolLabels p)) (mcpCache w), None)
         (logCall PoolsList w).
Proof.
  intros Hf. unfold mcpLister_List. rewrite (bind_run _ _ _ _ _ (call_nofault _ _ Hf)).
  reflexivity.
Qed.

(** In a world without injected failures one attempt is enough: the status
    is written to the cached object and, when the store has the object, to
    the store. *)
Lemma syncStatusOnly_nofault cfg err args w c :
  faults w = [] ->
  mccrCache w !! crcName cfg = Some c ->
  crcName c = crcName cfg ->
  exists w',
    syncStatusOnly cfg err args w = Done err w' /\
    faults w' = [] /\
    mccrCache w' = <[crcName cfg := recorded err args (clock w) c]> (mccrCache w) /\
    mccrStore w' =
      match mccrStore w !! crcName cfg with
      | Some old =>
          <[crcName cfg := withStatus (crcObservedGeneration (recorded err args (clock w) c))
                             (crcConditions (recorded err args (clock w) c)) old]> (mccrStore w)
      | None => mccrStore w
      end /\
    mcStore w' = mcStore w /\ cmStore w' = cmStore w /\ mcpCache w' = mcpCache w /\
    ccCache w' = ccCache w /\ clock w' = S (clock w) /\
    trace w' = (trace w ++ [CtrCfgListerGet (crcName cfg); CtrCfgUpdateStatus (crcName cfg)])%list.
Proof.
  intros Hf Hc Hn.
  unfold syncStatusOnly, RetryOnConflict, updateBackoffSteps, retryOnConflictN.
  unfold bind at 1 2. unfold syncStatusAttempt at 1.
  unfold bind at 1. unfold mccrLister_Get, bind. rewrite (call_nofault _ _ Hf).
  unfold getWorld. simpl. rewrite Hc. simpl.
  unfold CtrCfg_UpdateStatus, bind, call. simpl. rewrite Hf, Hn. simpl.
  destruct (mccrStore w !! crcName cfg) as [old|] eqn:Hs; simpl.
  - eexists. split; [reflexivity|]. simpl. rewrite <- !app_assoc. repeat split; auto.
  - eexists. split; [reflexivity|]. simpl. rewrite <- !app_assoc. repeat split; auto.
Qed.

(** ** Relating the world before and after a computation *)

Section Steps.
Context (R : relation World) `{!PreOrder R}.

Lemma steps_ret {A} (a : A) : steps R (ret a).
Proof. intros w. reflexivity. Qed.

Lemma steps_panic {A} : steps R (@panic A).
Proof. intros w. reflexivity. Qed.

Lemma steps_getWorld : steps R getWorld.
Proof. intros w. reflexivity. Qed.

Lemma steps_modify f : (forall w, R w (f w)) -> steps R (modify f).
Proof. intros Hf w. apply Hf. Qed.

Lemma steps_now : (forall w t, R w (setClock t w)) -> steps R now.
Proof. intros Hf w. apply Hf. Qed.

Lemma steps_call c :
  (forall w, R w (logCall c w)) -> (forall w fs, R w (setFaults fs w)) -> steps R (call c).
Proof.
  intros Hlog Hfs w. unfold call.
  destruct (takeFault c (faults w)) as [[e rest]|]; simpl; [|apply Hlog].
  etrans; [apply Hlog | apply Hfs].
Qed.

Lemma steps_bind {A B} (m : M A) (k : A -> M B) :
  steps R m -> (forall a, steps R (k a)) -> steps R (bind m k).
Proof.
  intros Hm Hk w. unfold bind. specialize (Hm w).
  destruct (m w) as [a w1|w1]; simpl in *; [|exact Hm].
  etrans; [exact Hm | apply Hk].
Qed.

Lemma steps_retry {S} (fn : S -> M (S * option error)) :
  (forall s, steps R (fn s)) ->
  forall n s lastErr, steps R (retryOnConflictN n fn s lastErr).
Proof.
  intros Hfn. induction n as [|n IH]; intros s lastErr; cbn [retryOnConflictN].
  - apply steps_ret.
  - apply steps_bind; [apply Hfn|]. intros [s' [e|]]; [|apply steps_ret].
    destruct (IsConflict (Some e)); [apply IH | apply steps_ret].
Qed.

End Steps.

(** *** What a computation adds to the trace *)

Lemma appends_same P w w' : trace w' = trace w -> appends P w w'.
Proof. intros Ht. exists []. split; [by rewrite app_nil_r | constructor]. Qed.

Lemma appends_logCall (P : Call -> Prop) c w : P c -> appends P w (logCall c w).
Proof. intros Hc. exists [c]. split; [reflexivity | by repeat constructor]. Qed.

#[local] Instance appends_preorder P : PreOrder (appends P).
Proof.
  split.
  - intros w. by apply appends_same.
  - intros w1 w2 w3 (l1 & H1 & F1) (l2 & H2 & F2). exists (l1 ++ l2)%list.
    split; [by rewrite H2, H1, app_assoc | by apply Forall_app].
Qed.

(** *** What a computation leaves alone *)

#[local] Instance sameMachineConfigs_preorder : PreOrder sameMachineConfigs.
Proof.
  split.
  - intros w. reflexivity.
  - intros w1 w2 w3 H1 H2. unfold sameMachineConfigs in *. congruence.
Qed.

(** *** Computations that cannot panic *)

Lemma returns_ret {A} P (a : A) : returns P (ret a).
Proof. intros w. exists a, w. split; reflexivity. Qed.

Lemma returns_getWorld P : returns P getWorld.
Proof. intros w. exists w, w. split; reflexivity. Qed.

Lemma returns_modify P f : (forall w, trace (f w) = trace w) -> returns P (modify f).
Proof. intros Hf w. exists tt, (f w). split; [reflexivity | apply appends_same, Hf]. Qed.

Lemma returns_call (P : Call -> Prop) c : P c -> returns P (call c).
Proof.
  intros Hc w. unfold call.
  destruct (takeFault c (faults w)) as [[e rest]|]; eexists _, _; (split; [reflexivity|]).
  - exists [c]. split; [reflexivity | by repeat constructor].
  - by apply appends_logCall.
Qed.

Lemma returns_bind {A B} P (m : M A) (k : A -> M B) :
  returns P m -> (forall a, returns P (k a)) -> returns P (bind m k).
Proof.
  intros Hm Hk w. unfold bind. destruct (Hm w) as (a & w1 & -> & H1).
  destruct (Hk a w1) as (b & w2 & -> & H2).
  exists b, w2. split; [reflexivity | etrans; eassumption].
Qed.

Lemma returns_retry {S} P (fn : S -> M (S * option error)) :
  (forall s, returns P (fn s)) ->
  forall n s lastErr, returns P (retryOnConflictN n fn s lastErr).
Proof.
  intros Hfn. induction n as [|n IH]; intros s lastErr; cbn [retryOnConflictN].
  - apply returns_ret.
  - apply returns_bind; [apply Hfn|]. intros [s' [e|]]; [|apply returns_ret].
    destruct (IsConflict (Some e)); [apply IH | apply returns_ret].
Qed.

(** The side conditions of [steps_call], [steps_modify] and [steps_now]. *)
Ltac frame_side :=
  intros;
  first [ apply appends_same; reflexivity
        | apply appends_logCall; simpl; auto
        | unfold sameMachineConfigs; reflexivity ].

Ltac trace_step :=
  lazymatch goal with
  | |- steps _ (ret _) => apply steps_ret; try exact _
  | |- steps _ panic => apply steps_panic; try exact _
  | |- steps _ getWorld => apply steps_getWorld; try exact _
  | |- steps _ now => apply steps_now; frame_side
  | |- steps _ (modify _) => apply steps_modify; frame_side
  | |- steps _ (call _) => apply steps_call; [exact _ | frame_side | frame_side]
  | |- steps _ (RetryOnConflict _ _) => apply steps_retry; [exact _ | intros]
  | |- steps _ (retryOnConflictN _ _ _ _) => apply steps_retry; [exact _ | intros]
  | |- steps _ (bind _ _) => apply steps_bind; [exact _ | | intros]
  | |- steps _ (match ?x with _ => _ end) => destruct x
  | |- returns _ (ret _) => apply returns_ret
  | |- returns _ getWorld => apply returns_getWorld
  | |- returns _ (modify _) => apply returns_modify; intros; reflexivity
  | |- returns _ (call _) => apply returns_call; simpl; auto
  | |- returns _ (RetryOnConflict _ _) => apply returns_retry; intros
  | |- returns _ (bind _ _) => apply returns_bind; [|intros]
  | |- returns _ (match ?x with _ => _ end) => destruct x
  end.

Ltac trace_steps := repeat trace_step.

Lemma createSeccompForPools_returns pools :
  returns (fun c => onIntent c = false) (createSeccompForPools pools).
Proof.
  induction pools as [|pool rest IH]; simpl.
  - apply returns_ret.
  - unfold MachineConfigs_Get, MachineConfigs_Create. trace_steps; exact IH.
Qed.

Lemma createSeccompUseDefaultMC_returns :
  returns (fun c => onIntent c = false) (createSeccompUseDefaultMC ctrl).
Proof.
  unfold createSeccompUseDefaultMC, ConfigMaps_Get, ConfigMaps_Create, mcpLister_List.
  trace_steps; apply createSeccompForPools_returns.
Qed.

Ltac unfold_clients :=
  unfold ConfigMaps_Get, ConfigMaps_Create, mcpLister_List, MachineConfigs_Get,
    MachineConfigs_Create, MachineConfigs_Update, MachineConfigs_Delete, MachineConfigs_List,
    mccrLister_Get, CtrCfg_UpdateStatus, CtrCfg_Update, patchContainerRuntimeConfigs,
    CtrCfg_Patch, ccLister_Get, imgLister_Get, clusterVersionLister_Get, icspLister_List.

Lemma syncStatusOnly_emits cfg err args : emits anyCall (syncStatusOnly cfg err args).
Proof.
  unfold syncStatusOnly. trace_steps. unfold syncStatusAttempt. unfold_clients.
  trace_steps; exact I.
Qed.

Lemma addAnnotation_emits cfg k v : emits anyCall (addAnnotation cfg k v).
Proof.
  unfold addAnnotation. trace_steps. unfold addAnnotationAttempt. unfold_clients.
  trace_steps; exact I.
Qed.

Lemma popFinalizer_emits cfg : emits anyCall (popFinalizerFromContainerRuntimeConfig cfg).
Proof.
  unfold popFinalizerFromContainerRuntimeConfig. trace_steps.
  unfold popFinalizerAttempt. unfold_clients. trace_steps; exact I.
Qed.

Lemma addFinalizer_emits cfg mc : emits anyCall (addFinalizerToContainerRuntimeConfig cfg mc).
Proof.
  unfold addFinalizerToContainerRuntimeConfig. trace_steps.
  unfold addFinalizerAttempt. unfold_clients. trace_steps; exact I.
Qed.

Lemma cascadeDelete_emits cfg : emits anyCall (cascadeDelete cfg).
Proof.
  unfold cascadeDelete. unfold_clients. trace_steps; try exact I; apply popFinalizer_emits.
Qed.

Lemma getPools_emits cfg : emits anyCall (getPoolsForContainerRuntimeConfig cfg).
Proof.
  unfold getPoolsForContainerRuntimeConfig. unfold_clients. trace_steps; exact I.
Qed.

Lemma generateOriginal_emits cc role :
  emits anyCall (generateOriginalContainerRuntimeConfigs ctrl cc role).
Proof.
  unfold generateOriginalContainerRuntimeConfigs. trace_steps; exact I.
Qed.

Lemma mergeConfigChanges_emits f cfg u : emits anyCall (mergeConfigChanges f cfg u).
Proof. unfold mergeConfigChanges. trace_steps. Qed.

Lemma regenerate_emits key cfg cc pool managedKey mc isNotFound :
  emits anyCall (regenerate ctrl key cfg cc pool managedKey mc isNotFound).
Proof.
  unfold regenerate. unfold_clients.
  repeat first
    [ apply syncStatusOnly_emits | apply addAnnotation_emits | apply addFinalizer_emits
    | apply generateOriginal_emits | apply mergeConfigChanges_emits | trace_step ];
    exact I.
Qed.

Lemma logsOnly_emits {A} (m : M A) : logsOnly m -> emits anyCall m.
Proof.
  intros Hm w. destruct (Hm w) as (l & Hl). exists l. split; [exact Hl|].
  apply Forall_forall. intros c _. exact I.
Qed.

Lemma syncPool_emits key cfg cc pool : emits anyCall (syncPool ctrl key cfg cc pool).
Proof.
  unfold syncPool. unfold_clients.
  repeat first [ apply syncStatusOnly_emits | apply regenerate_emits
               | apply logsOnly_emits, getManagedKeyCtrCfg_logs | trace_step ]; exact I.
Qed.

Lemma forPools_emits body pools :
  (forall p, emits anyCall (body p)) -> emits anyCall (forPools body pools).
Proof.
  intros Hb. induction pools as [|p rest IH]; cbn [forPools]; trace_steps; auto.
Qed.

Lemma cleanUpLoop_emits items : emits anyCall (cleanUpLoop items).
Proof.
  induction items as [|mc rest IH]; cbn [cleanUpLoop]; unfold_clients; trace_steps;
    first [exact I | exact IH].
Qed.

Lemma cleanUpDuplicatedMC_emits : emits anyCall cleanUpDuplicatedMC.
Proof.
  unfold cleanUpDuplicatedMC. unfold_clients. trace_steps; try exact I; apply cleanUpLoop_emits.
Qed.

Lemma syncFetched_emits key cfg : emits anyCall (syncFetched ctrl key cfg).
Proof.
  unfold syncFetched. unfold_clients.
  repeat first
    [ apply syncStatusOnly_emits | apply cascadeDelete_emits | apply getPools_emits
    | apply cleanUpDuplicatedMC_emits | apply forPools_emits; intros; apply syncPool_emits
    | trace_step ]; exact I.
Qed.

(** ** The work queue *)

Lemma NumRequeues_Forget key q : NumRequeues key (Forget key q) = O.
Proof. unfold NumRequeues, Forget; simpl. by rewrite lookup_delete_eq. Qed.

Lemma NumRequeues_AddRateLimited key q :
  NumRequeues key (AddRateLimited key q) = S (NumRequeues key q).
Proof. unfold NumRequeues at 1, AddRateLimited; simpl. by rewrite lookup_insert_eq. Qed.

(** C6: the queue's error handler.  A failed key is re-added rate-limited
    (one more failure counted) while its count is below 15; from 15 on the
    error goes to the error sink, the count is cleared and the key is added
    once more, 60 seconds later; a successful key has its count cleared. *)
Theorem handleErr_policy (key : string) (q : Queue) (e : error) :
  maxRetries = 15%nat /\
  ((NumRequeues key q < 15)%nat ->
     qops (handleErr (Some e) key q) = (qops q ++ [QAddRateLimited key])%list /\
     NumRequeues key (handleErr (Some e) key q) = S (NumRequeues key q)) /\
  ((15 <= NumRequeues key q)%nat ->
     qops (handleErr (Some e) key q)
       = (qops q ++ [QHandleError e; QForget key; QAddAfter key 60])%list /\
     NumRequeues key (handleErr (Some e) key q) = O) /\
  qops (handleErr None key q) = (qops q ++ [QForget key])%list /\
  NumRequeues key (handleErr None key q) = O.
Proof.
  split; [reflexivity|].
  split; [|split].
  - intros Hlt. unfold handleErr.
    destruct (Nat.ltb_spec (NumRequeues key q) maxRetries) as [_|Hge];
      [|unfold maxRetries in Hge; lia].
    split; [reflexivity | apply NumRequeues_AddRateLimited].
  - intros Hge. unfold handleErr.
    destruct (Nat.ltb_spec (NumRequeues key q) maxRetries) as [Hlt|_];
      [unfold maxRetries in Hlt; lia|].
    split.
    + simpl. rewrite <- !app_assoc. reflexivity.
    + unfold NumRequeues, AddAfter, Forget, HandleError; simpl.
      by rewrite lookup_delete_eq.
  - split; [reflexivity | apply NumRequeues_Forget].
Qed.

(** ** Selecting the target pools *)

Lemma selectPools_Nothing pList : selectPools Nothing pList = [].
Proof. induction pList as [|p l IH]; simpl; auto. Qed.

Lemma selectPools_Everything pList : selectPools Everything pList = [].
Proof. induction pList as [|p l IH]; simpl; auto. Qed.

Lemma LabelSelectorAsSelector_nothing ps :
  selectsNothing ps ->
  LabelSelectorAsSelector ps = (Nothing, None) \/ LabelSelectorAsSelector ps = (Everything, None).
Proof.
  destruct ps as [s|]; simpl; [|by left].
  intros [-> ->]. simpl. by right.
Qed.

Lemma selectPools_sound selector pList p :
  In p (selectPools selector pList) ->
  SelectorEmpty selector = false /\ SelectorMatches selector (poolLabels p) = true.
Proof.
  unfold selectPools. rewrite filter_In. intros [_ Hp].
  destruct (SelectorEmpty selector), (SelectorMatches selector (poolLabels p)); simpl in Hp; auto; discriminate.
Qed.

(** C5: a nil or empty pool selector selects no pool, whatever pools the
    cache holds, and [getPoolsForContainerRuntimeConfig] then returns an
    error; in general it never returns an empty list of pools without an
    error. *)
Theorem getPools_selector_safety (cfg : ContainerRuntimeConfig) (w : World) :
  (selectsNothing (crcPoolSelector cfg) ->
     selectPools (fst (LabelSelectorAsSelector (crcPoolSelector cfg))) (mcpCache w) = [] /\
     exists e w', getPoolsForContainerRuntimeConfig cfg w = Done ([], Some e) w') /\
  (forall pools w', getPoolsForContainerRuntimeConfig cfg w = Done (pools, None) w' ->
     pools <> [] /\
     exists selector, LabelSelectorAsSelector (crcPoolSelector cfg) = (selector, None) /\
       forall p, In p pools -> SelectorEmpty selector = false /\
                               SelectorMatches selector (poolLabels p) = true).
Proof.
  split.
  - intros Hsel. split.
    + destruct (LabelSelectorAsSelector_nothing _ Hsel) as [-> | ->]; simpl;
        [apply selectPools_Nothing | apply selectPools_Everything].
    + unfold getPoolsForContainerRuntimeConfig, bind, mcpLister_List, bind, call, getWorld, ret.
      destruct (takeFault PoolsList (faults w)) as [[e rest]|]; simpl; [eauto|].
      destruct (LabelSelectorAsSelector_nothing _ Hsel) as [-> | ->]; simpl.
      * rewrite selectPools_Nothing. simpl. eauto.
      * rewrite selectPools_Everything. simpl. eauto.
  - intros pools w'.
    unfold getPoolsForContainerRuntimeConfig, bind, mcpLister_List, bind, call, getWorld, ret.
    destruct (takeFault PoolsList (faults w)) as [[e rest]|]; simpl; [discriminate|].
    destruct (LabelSelectorAsSelector (crcPoolSelector cfg)) as [selector [e|]]; [discriminate|].
    set (pl := List.filter _ _).
    destruct (Nat.eqb_spec (length (selectPools selector pl)) 0) as [|Hne]; [discriminate|].
    intros [= <- <-]. split.
    + intros Hnil. rewrite Hnil in Hne. simpl in Hne. lia.
    + exists selector. split; [reflexivity|]. intros p. apply selectPools_sound.
Qed.

(** ** The list of status conditions *)

Lemma recordCondition_nil c : recordCondition [] c = [c].
Proof. reflexivity. Qed.

Lemma recordCondition_differs conds l c :
  list.last conds = Some l -> condMessage c <> condMessage l ->
  recordCondition conds c = (conds ++ [c])%list.
Proof.
  intros Hl Hne. unfold recordCondition. rewrite Hl.
  destruct (String.eqb_spec (condMessage c) (condMessage l)); [contradiction | reflexivity].
Qed.

Lemma recordCondition_same conds l c :
  list.last conds = Some l -> condMessage c = condMessage l ->
  recordCondition conds c = <[(length conds - 1)%nat := c]> conds.
Proof.
  intros Hl He. unfold recordCondition. rewrite Hl, He, String.eqb_refl. reflexivity.
Qed.

Lemma last_insert_last {A} (l : list A) (x : A) :
  l <> [] -> list.last (<[(length l - 1)%nat := x]> l) = Some x.
Proof.
  intros Hne. rewrite last_lookup, length_insert.
  replace (Init.Nat.pred (length l)) with (length l - 1)%nat by lia.
  apply list_lookup_insert_eq. destruct l; [contradiction | simpl; lia].
Qed.

Lemma recordCondition_one m c x :
  condMessage c = m -> condMessage x = m -> recordCondition [x] c = [c].
Proof.
  intros Hc Hx. rewrite (recordCondition_same [x] x c); [reflexivity | reflexivity | congruence].
Qed.

Lemma syncStatusTimes_inv cfg err args m :
  (forall t, condMessage (wrapErrorWithCondition err args t) = m) ->
  forall n w c,
    faults w = [] ->
    mccrCache w !! crcName cfg = Some c ->
    crcName c = crcName cfg ->
    (crcConditions c = [] \/ exists x, crcConditions c = [x] /\ condMessage x = m) ->
    exists w' c',
      syncStatusTimes n cfg err args w = Done tt w' /\
      mccrCache w' !! crcName cfg = Some c' /\
      clock w' = (clock w + n)%nat /\
      (n = O -> c' = c /\ w' = w) /\
      ((0 < n)%nat ->
         crcConditions c' = [wrapErrorWithCondition err args (clock w + n - 1)%nat] /\
         (is_Some (mccrStore w !! crcName cfg) ->
          exists s', mccrStore w' !! crcName cfg = Some s' /\
                     crcConditions s' = crcConditions c')).
Proof.
  intros Hm. induction n as [|n IH]; intros w c Hf Hc Hn Hcs.
  - exists w, c. simpl. unfold ret. repeat split; auto; lia.
  - destruct (syncStatusOnly_nofault cfg err args w c Hf Hc Hn)
      as (w1 & Hrun & Hf1 & Hc1 & Hs1 & _ & _ & _ & _ & Hclk & _).
    assert (Hrec : crcConditions (recorded err args (clock w) c)
                   = [wrapErrorWithCondition err args (clock w)]).
    { unfold recorded. simpl. destruct Hcs as [-> | (x & -> & Hx)].
      - reflexivity.
      - apply (recordCondition_one m); auto. }
    destruct (IH w1 (recorded err args (clock w) c)) as (w2 & c2 & Hrun2 & Hc2 & Hclk2 & Hz & Hpos).
    + exact Hf1.
    + rewrite Hc1. apply lookup_insert_eq.
    + exact Hn.
    + right. eexists. split; [exact Hrec | apply Hm].
    + exists w2, c2. simpl. unfold bind. rewrite Hrun, Hrun2.
      split; [reflexivity|]. split; [exact Hc2|]. split; [lia|]. split; [lia|].
      intros _. destruct n as [|n'].
      * destruct (Hz eq_refl) as [-> ->]. rewrite Hrec. split; [do 2 f_equal; lia|].
        intros [old Hold]. rewrite Hs1, Hold. eexists. split; [apply lookup_insert_eq|].
        simpl. exact Hrec.
      * destruct Hpos as [Hcs2 Hst2]; [lia|]. rewrite Hcs2. split; [do 2 f_equal; lia|].
        intros [old Hold]. rewrite <- Hcs2. apply Hst2.
        rewrite Hs1, Hold, lookup_insert_eq. eauto.
Qed.

(** C4: a condition is appended when the list is empty or the message
    differs from the last one recorded; with the same message the last entry
    is overwritten and the list keeps its length.  So [n] recordings of one
    message, starting from no condition, leave exactly one condition: the
    one of the last recording. *)
Theorem status_conditions_policy (cfg : ContainerRuntimeConfig) (err : option error)
    (args : list string) :
  (forall c, recordCondition [] c = [c]) /\
  (forall conds l c, list.last conds = Some l -> condMessage c <> condMessage l ->
     recordCondition conds c = (conds ++ [c])%list) /\
  (forall conds l c, list.last conds = Some l -> condMessage c = condMessage l ->
     length (recordCondition conds c) = length conds /\
     list.last (recordCondition conds c) = Some c) /\
  (forall n w c,
     (0 < n)%nat ->
     (forall t t', condMessage (wrapErrorWithCondition err args t)
                   = condMessage (wrapErrorWithCondition err args t')) ->
     faults w = [] ->
     mccrCache w !! crcName cfg = Some c ->
     crcName c = crcName cfg ->
     crcConditions c = [] ->
     exists w' c',
       syncStatusTimes n cfg err args w = Done tt w' /\
       mccrCache w' !! crcName cfg = Some c' /\
       length (crcConditions c') = 1%nat /\
       crcConditions c' = [wrapErrorWithCondition err args (clock w + n - 1)%nat] /\
       (is_Some (mccrStore w !! crcName cfg) ->
        exists s', mccrStore w' !! crcName cfg = Some s' /\
                   length (crcConditions s') = 1%nat)).
Proof.
  split; [exact recordCondition_nil|].
  split; [exact recordCondition_differs|].
  split.
  - intros conds l c Hl He. rewrite (recordCondition_same conds l c Hl He).
    split; [apply length_insert|].
    apply last_insert_last. intros ->. discriminate.
  - intros n w c Hn Hm Hf Hc Hname Hnil.
    destruct (syncStatusTimes_inv cfg err args (condMessage (wrapErrorWithCondition err args O))
                (fun t => Hm t O) n w c Hf Hc Hname (or_introl Hnil))
      as (w' & c' & Hrun & Hc' & _ & _ & Hpos).
    destruct (Hpos Hn) as [Hcs Hst].
    exists w', c'. rewrite Hcs. repeat split; auto.
    intros Hsome. destruct (Hst Hsome) as (s' & Hs' & Hcs').
    exists s'. split; [exact Hs'|]. rewrite Hcs', Hcs. reflexivity.
Qed.

(** ** Annotations *)

(** C9: [addAnnotation] writes an annotation map with the one given entry:
    after a successful update the stored object, and the cached one the
    closure wrote through, carry exactly that entry, and every other
    annotation the object had is gone. *)
Theorem addAnnotation_replaces_map (cfg : ContainerRuntimeConfig) (k v : string)
    (w : World) (c s : ContainerRuntimeConfig) :
  faults w = [] ->
  mccrCache w !! crcName cfg = Some c ->
  crcName c = crcName cfg ->
  mccrStore w !! crcName cfg = Some s ->
  exists w' c' s',
    addAnnotation cfg k v w = Done None w' /\
    mccrCache w' !! crcName cfg = Some c' /\
    mccrStore w' !! crcName cfg = Some s' /\
    crcAnnotations c' = {[ k := v ]} /\
    crcAnnotations s' = {[ k := v ]} /\
    (forall k', k' <> k -> crcAnnotations s' !! k' = None /\ crcAnnotations c' !! k' = None).
Proof.
  intros Hf Hc Hn Hs.
  unfold addAnnotation, RetryOnConflict, updateBackoffSteps, retryOnConflictN.
  unfold bind at 1 2. unfold addAnnotationAttempt at 1.
  unfold bind at 1. unfold mccrLister_Get, bind. rewrite (call_nofault _ _ Hf).
  unfold getWorld. simpl. rewrite Hc. simpl.
  unfold CtrCfg_Update, bind, call. simpl. rewrite Hf, Hn. simpl. rewrite Hs. simpl.
  eexists _, _, _. split; [reflexivity|]. simpl.
  split; [apply lookup_insert_eq|]. split; [apply lookup_insert_eq|].
  simpl. split; [reflexivity|]. split; [reflexivity|].
  intros k' Hk. split; apply lookup_singleton_ne; congruence.
Qed.

(** ** The pass starts with the seccomp machine configs *)

Lemma createSeccomp_marker w cm :
  faults w = [] ->
  cmStore w !! configMapName = Some cm ->
  createSeccompUseDefaultMC ctrl w = Done None (logCall (ConfigMapsGet configMapName) w).
Proof.
  intros Hf Hcm. unfold createSeccompUseDefaultMC, ConfigMaps_Get, bind.
  rewrite (call_nofault _ _ Hf). unfold getWorld. simpl. rewrite Hcm. reflexivity.
Qed.

Lemma createSeccomp_first w :
  exists r w1 l,
    createSeccompUseDefaultMC ctrl w = Done r w1 /\
    trace w1 = (trace w ++ ConfigMapsGet configMapName :: l)%list /\
    Forall (fun c => onIntent c = false) l.
Proof.
  unfold createSeccompUseDefaultMC. unfold bind at 1.
  assert (Hget : exists cm err w0, ConfigMaps_Get configMapName w = Done (cm, err) w0 /\
                   trace w0 = (trace w ++ [ConfigMapsGet configMapName])%list).
  { unfold ConfigMaps_Get, bind, call, getWorld, ret.
    destruct (takeFault _ (faults w)) as [[e rest]|]; simpl; [eauto|].
    destruct (cmStore w !! configMapName); eauto. }
  destruct Hget as (cm & err & w0 & -> & Ht0).
  match goal with |- exists r w1 l, ?m w0 = _ /\ _ => 
    assert (Hrest : returns (fun c => onIntent c = false) m) end.
  { unfold ConfigMaps_Create, mcpLister_List.
    trace_steps; apply createSeccompForPools_returns. }
  destruct (Hrest w0) as (r & w1 & Hrun & l & Hl & HF).
  exists r, w1, l. split; [exact Hrun|]. split; [|exact HF].
  rewrite Hl, Ht0, <- app_assoc. reflexivity.
Qed.

Lemma is_Some_None_false {A} : bool_decide (is_Some (@None A)) = false.
Proof. apply bool_decide_eq_false. intros [? ?]. discriminate. Qed.

Lemma ConfigMaps_Get_nofault name w :
  faults w = [] ->
  ConfigMaps_Get name w =
    Done (match cmStore w !! name with
          | Some cm => (cm, None)
          | None => (emptyConfigMap, Some (notFound "configmaps" name))
          end) (logCall (ConfigMapsGet name) w).
Proof.
  intros Hf. unfold ConfigMaps_Get. rewrite (bind_run _ _ _ _ _ (call_nofault _ _ Hf)).
  unfold bind, getWorld. simpl. by destruct (cmStore w !! name).
Qed.

Lemma ConfigMaps_Create_nofault cm w :
  faults w = [] ->
  cmStore w !! cmName cm = None ->
  ConfigMaps_Create cm w =
    Done None (setCmStore (insert (cmName cm) cm) (logCall (ConfigMapsCreate (cmName cm)) w)).
Proof.
  intros Hf Hnone. unfold ConfigMaps_Create.
  rewrite (bind_run _ _ _ _ _ (call_nofault _ _ Hf)).
  unfold bind, getWorld. simpl. by rewrite Hnone.
Qed.

Lemma MachineConfigs_Create_nofault mc w :
  faults w = [] ->
  mcStore w !! mcName mc = None ->
  MachineConfigs_Create mc w =
    Done None (setMcStore (insert (mcName mc) mc) (logCall (MachineConfigsCreate (mcName mc)) w)).
Proof.
  intros Hf Hnone. unfold MachineConfigs_Create.
  rewrite (bind_run _ _ _ _ _ (call_nofault _ _ Hf)).
  unfold bind, getWorld. simpl. by rewrite Hnone.
Qed.

(** Without failure, the loop of [createSeccompUseDefaultMC] leaves a
    machine config under the key of every pool: the one that was there, or
    the one it builds and creates. *)
Lemma createSeccompForPools_creates raw pools :
  jsonMarshal (createNewIgnition createDefaultSeccompUseDefaultWhenEmptyFile) = (raw, None) ->
  List.Forall (seccompBuildable raw) pools ->
  forall w,
    faults w = [] ->
    exists w1,
      createSeccompForPools pools w = Done None w1 /\
      faults w1 = [] /\ cmStore w1 = cmStore w /\ mccrCache w1 = mccrCache w /\
      mccrStore w1 = mccrStore w /\ clock w1 = clock w /\
      mcStore w ⊆ mcStore w1 /\
      (forall p, List.In p pools -> is_Some (mcStore w1 !! getManagedKeySeccomp p)) /\
      (forall k mc, mcStore w1 !! k = Some mc ->
         mcStore w !! k = Some mc \/
         exists p, List.In p pools /\ k = getManagedKeySeccomp p /\ mc = seccompMC raw p).
Proof.
  intros Hraw. induction 1 as [|p rest [Hbuild Hname] _ IH]; intros w Hf.
  - exists w. cbn [createSeccompForPools]. repeat split; auto.
    intros p [].
  - cbn [createSeccompForPools]. cbv zeta.
    rewrite (bind_run _ _ _ _ _ (MachineConfigs_Get_nofault _ _ Hf)).
    destruct (mcStore w !! getManagedKeySeccomp p) as [mc0|] eqn:Hold.
    + rewrite (@is_Some_None_false error). cbn [andb IsNotFound negb].
      destruct (IH (logCall (MachineConfigsGet (getManagedKeySeccomp p)) w) Hf)
        as (w1 & Hrun & Hf1 & Hcm & Hca & Hst & Hclk & Hsub & Hall & Hnew).
      exists w1. split; [exact Hrun|]. repeat split; auto.
      * intros p' [<- | Hp']; [|by apply Hall].
        exists mc0. by eapply lookup_weaken.
      * intros k mc Hk. destruct (Hnew k mc Hk) as [Hw | (p' & Hp' & Hkp & Hmc)]; [by left|].
        right. exists p'. split; [by right | by split].
    + assert (Hs : bool_decide (is_Some (Some (notFound "machineconfigs" (getManagedKeySeccomp p))))
                   = true) by (apply bool_decide_eq_true; eauto).
      rewrite Hs. cbn [andb IsNotFound notFound negb].
      unfold seccompMC in Hname.
      destruct (MachineConfigFromIgnConfig (poolName p) (getManagedKeySeccomp p) NewIgnConfig)
        as [mc0 [e|]] eqn:Hmk; [discriminate Hbuild|].
      rewrite Hraw. cbn [fst] in Hname.
      assert (Hcreate : MachineConfigs_Create (withRaw raw mc0)
                          (logCall (MachineConfigsGet (getManagedKeySeccomp p)) w)
                        = Done None
                            (setMcStore (insert (getManagedKeySeccomp p) (withRaw raw mc0))
                               (logCall (MachineConfigsCreate (getManagedKeySeccomp p))
                                  (logCall (MachineConfigsGet (getManagedKeySeccomp p)) w)))).
      { rewrite <- Hname. apply MachineConfigs_Create_nofault; [exact Hf|].
        rewrite Hname. exact Hold. }
      erewrite bind_run;
        [|apply retry_first_ok; rewrite (bind_run _ _ _ _ _ Hcreate); reflexivity].
      cbv beta iota.
      match goal with |- exists w1, createSeccompForPools rest ?w2 = _ /\ _ =>
        destruct (IH w2 Hf) as (w1 & Hrun & Hf1 & Hcm & Hca & Hst & Hclk & Hsub & Hall & Hnew) end.
      cbn [mcStore cmStore mccrCache mccrStore clock setMcStore logCall] in Hcm, Hca, Hst, Hclk, Hsub, Hnew.
      exists w1. split; [exact Hrun|]. repeat split; auto.
      * etrans; [|exact Hsub]. by apply insert_subseteq.
      * intros p' [<- | Hp']; [|by apply Hall].
        exists (withRaw raw mc0). eapply lookup_weaken; [|exact Hsub]. apply lookup_insert_eq.
      * intros k mc Hk. destruct (Hnew k mc Hk) as [Hw | (p' & Hp' & Hkp & Hmc)].
        -- rewrite lookup_insert in Hw. case_decide as Hd.
           ++ injection Hw as <-. right. exists p. split; [by left|]. split; [by symmetry|].
              unfold seccompMC. by rewrite Hmk.
           ++ by left.
        -- right. exists p'. split; [by right | by split].
Qed.

(** Without failure and without the marker, [createSeccompUseDefaultMC]
    serves the pools that the lister returns and then creates the marker. *)
Lemma createSeccomp_creates sel raw w :
  faults w = [] ->
  cmStore w !! configMapName = None ->
  LabelSelectorAsSelector builtInSelector = (sel, None) ->
  jsonMarshal (createNewIgnition createDefaultSeccompUseDefaultWhenEmptyFile) = (raw, None) ->
  List.Forall (seccompBuildable raw) (listedPools sel w) ->
  exists w1,
    createSeccompUseDefaultMC ctrl w = Done None w1 /\
    faults w1 = [] /\ mccrCache w1 = mccrCache w /\ mccrStore w1 = mccrStore w /\
    clock w1 = clock w /\
    seccompEnsured ctrl raw (listedPools sel w) w w1.
Proof.
  intros Hf Hnone Hsel Hraw Hbuild. unfold createSeccompUseDefaultMC.
  rewrite (bind_run _ _ _ _ _ (ConfigMaps_Get_nofault _ _ Hf)). rewrite Hnone.
  assert (Hs : bool_decide (is_Some (Some (notFound "configmaps" configMapName))) = true)
    by (apply bool_decide_eq_true; eauto).
  rewrite Hs. cbn [andb IsNotFound notFound negb].
  unfold builtInSelector in Hsel. rewrite Hsel.
  erewrite bind_run; [|apply mcpLister_List_nofault; exact Hf].
  cbv beta iota. cbn [mcpCache logCall]. fold (listedPools sel w).
  destruct (createSeccompForPools_creates raw (listedPools sel w) Hraw Hbuild
              (logCall PoolsList (logCall (ConfigMapsGet configMapName) w)) Hf)
    as (w1 & Hrun & Hf1 & Hcm & Hca & Hst & Hclk & Hsub & Hall & Hnew).
  cbn [mcStore cmStore mccrCache mccrStore clock logCall] in Hcm, Hca, Hst, Hclk, Hsub, Hnew.
  rewrite (bind_run _ _ _ _ _ Hrun). cbv beta iota.
  rewrite (bind_run _ _ _ _ _
             (ConfigMaps_Create_nofault (markerOf ctrl) w1 Hf1 ltac:(by rewrite Hcm))).
  eexists. split; [reflexivity|].
  cbn [faults mccrCache mccrStore clock setCmStore logCall].
  repeat split; auto.
  cbn [cmStore setCmStore logCall markerOf cmName]. by rewrite Hcm.
Qed.

(** C10: every pass, whatever the key, starts with
    [createSeccompUseDefaultMC], whose first call reads the marker config map
    and which never reads or writes a ContainerRuntimeConfig.  When it
    fails, the pass returns an error in the world it left; when it succeeds
    and the key is the start-up key, the pass returns nil there.  With the
    marker present it does nothing else.  Without the marker and without
    failure it ensures the seccomp machine configs: it leaves a machine
    config under the key of every pool that the lister returns, the one
    that was there or the one it builds, changes no other machine config,
    creates the marker, and run again it only reads the marker. *)
Theorem sync_starts_with_seccomp (key : string) (w : World) :
  exists r w1 l,
    createSeccompUseDefaultMC ctrl w = Done r w1 /\
    trace w1 = (trace w ++ ConfigMapsGet configMapName :: l)%list /\
    Forall (fun c => onIntent c = false) l /\
    (forall e, r = Some e ->
       syncContainerRuntimeConfig ctrl key w
       = Done (Some (Errorf ["failed to create the crio-seccomp-use-default MC: "; errorString e])) w1) /\
    (r = None -> syncContainerRuntimeConfig ctrl "force-sync-on-upgrade" w = Done None w1) /\
    (exists l', trace (finalWorld (syncContainerRuntimeConfig ctrl key w))
                = (trace w1 ++ l')%list) /\
    (forall cm, faults w = [] -> cmStore w !! configMapName = Some cm ->
       r = None /\ w1 = logCall (ConfigMapsGet configMapName) w) /\
    (forall sel raw,
       faults w = [] ->
       cmStore w !! configMapName = None ->
       LabelSelectorAsSelector builtInSelector = (sel, None) ->
       jsonMarshal (createNewIgnition createDefaultSeccompUseDefaultWhenEmptyFile) = (raw, None) ->
       List.Forall (seccompBuildable raw) (listedPools sel w) ->
       r = None /\
       seccompEnsured ctrl raw (listedPools sel w) w w1 /\
       createSeccompUseDefaultMC ctrl w1 = Done None (logCall (ConfigMapsGet configMapName) w1)).
Proof.
  destruct (createSeccomp_first w) as (r & w1 & l & Hrun & Ht & HF).
  exists r, w1, l. split; [exact Hrun|]. split; [exact Ht|]. split; [exact HF|].
  split; [|split; [|split; [|split]]].
  - intros e ->. unfold syncContainerRuntimeConfig, bind. rewrite Hrun. reflexivity.
  - intros ->. unfold syncContainerRuntimeConfig, bind. rewrite Hrun. reflexivity.
  - unfold syncContainerRuntimeConfig. unfold bind at 1. rewrite Hrun.
    match goal with |- exists l', trace (finalWorld (?m w1)) = _ =>
      assert (Hrest : emits anyCall m) end.
    { unfold_clients.
      repeat first [ apply syncFetched_emits | trace_step ]; exact I. }
    destruct (Hrest w1) as (l' & Hl' & _). eauto.
  - intros cm Hf Hcm. rewrite (createSeccomp_marker w cm Hf Hcm) in Hrun.
    by injection Hrun as <- <-.
  - intros sel raw Hf Hnone Hsel Hraw Hbuild.
    destruct (createSeccomp_creates sel raw w Hf Hnone Hsel Hraw Hbuild)
      as (w1' & Hrun' & Hf1 & _ & _ & _ & Hens).
    rewrite Hrun' in Hrun. injection Hrun as <- <-.
    split; [reflexivity|]. split; [exact Hens|].
    apply (createSeccomp_marker w1' (markerOf ctrl) Hf1).
    destruct Hens as (-> & _). apply lookup_insert_eq.
Qed.

(** ** Reaching the object *)

Lemma filter_Everything (l : list MachineConfigPool) :
  List.filter (fun p => SelectorMatches Everything (poolLabels p)) l = l.
Proof. induction l as [|p l IH]; simpl in *; [reflexivity | by f_equal]. Qed.

Lemma sync_fetches key ns name cfg cm w :
  faults w = [] ->
  cmStore w !! configMapName = Some cm ->
  String.eqb key "force-sync-on-upgrade" = false ->
  SplitMetaNamespaceKey key = (ns, name, None) ->
  mccrCache w !! name = Some cfg ->
  syncContainerRuntimeConfig ctrl key w
  = syncFetched ctrl key cfg
      (logCall (CtrCfgListerGet name) (logCall (ConfigMapsGet configMapName) w)).
Proof.
  intros Hf Hcm Hkey Hsplit Hc. unfold syncContainerRuntimeConfig.
  rewrite (bind_run _ _ _ _ _ (createSeccomp_marker w cm Hf Hcm)).
  rewrite Hkey, Hsplit.
  erewrite bind_run; [|apply mccrLister_Get_nofault; exact Hf].
  cbn [mccrCache logCall]. rewrite Hc. reflexivity.
Qed.

Lemma getPools_nofault cfg sel p ps w :
  faults w = [] ->
  LabelSelectorAsSelector (crcPoolSelector cfg) = (sel, None) ->
  selectPools sel (mcpCache w) = p :: ps ->
  getPoolsForContainerRuntimeConfig cfg w = Done (p :: ps, None) (logCall PoolsList w).
Proof.
  intros Hf Hsel Hps. unfold getPoolsForContainerRuntimeConfig.
  erewrite bind_run; [|apply mcpLister_List_nofault; exact Hf].
  rewrite filter_Everything, Hsel, Hps. reflexivity.
Qed.

(** ** Cascade delete *)

(** C3: a pass over an object that has a deletion timestamp and one
    finalizer is a cascade delete.  When the deletion of the machine config
    named by the finalizer succeeds, or finds it already gone, the
    finalizers of the stored object are patched to none; any other error of
    the deletion is returned, before the finalizer is touched. *)
Theorem cascadeDelete_one_finalizer (cfg : ContainerRuntimeConfig) (tok : string)
    (w : World) (s : ContainerRuntimeConfig) :
  crcFinalizers cfg = [tok] ->
  mccrCache w !! crcName cfg = Some cfg ->
  mccrStore w !! crcName cfg = Some s ->
  (faults w = [] ->
   exists w',
     cascadeDelete cfg w = Done None w' /\
     mcStore w' = delete tok (mcStore w) /\
     mcStore w' !! tok = None /\
     mccrStore w' = <[crcName cfg := withFinalizers [] s]> (mccrStore w) /\
     trace w' = (trace w ++ [MachineConfigsDelete tok; CtrCfgListerGet (crcName cfg);
                             CtrCfgPatch (crcName cfg)])%list) /\
  (forall e, faults w = [(MachineConfigsDelete tok, e)] ->
     IsNotFound (Some e) = true ->
     exists w',
       cascadeDelete cfg w = Done None w' /\
       mcStore w' = mcStore w /\
       mccrStore w' = <[crcName cfg := withFinalizers [] s]> (mccrStore w)) /\
  (forall e rest, takeFault (MachineConfigsDelete tok) (faults w) = Some (e, rest) ->
     IsNotFound (Some e) = false ->
     exists w',
       cascadeDelete cfg w = Done (Some e) w' /\
       mcStore w' = mcStore w /\ mccrStore w' = mccrStore w /\
       trace w' = (trace w ++ [MachineConfigsDelete tok])%list) /\
  (forall key ns cm t w0,
     faults w0 = [] ->
     cmStore w0 !! configMapName = Some cm ->
     String.eqb key "force-sync-on-upgrade" = false ->
     SplitMetaNamespaceKey key = (ns, crcName cfg, None) ->
     mccrCache w0 !! crcName cfg = Some cfg ->
     crcDeletionTimestamp cfg = Some t ->
     syncContainerRuntimeConfig ctrl key w0
     = cascadeDelete cfg (logCall (CtrCfgListerGet (crcName cfg))
                            (logCall (ConfigMapsGet configMapName) w0))).
Proof.
  intros Hfin Hc Hs. split; [|split; [|split]]; cycle 3.
  { intros key ns cm t w0 Hf Hcm Hk Hsplit Hc0 Hdel.
    rewrite (sync_fetches key ns (crcName cfg) cfg cm w0 Hf Hcm Hk Hsplit Hc0).
    unfold syncFetched. rewrite Hdel, Hfin. reflexivity. }
  - intros Hf. unfold cascadeDelete. rewrite Hfin.
    unfold bind at 1. unfold MachineConfigs_Delete, bind. rewrite (call_nofault _ _ Hf).
    unfold getWorld. simpl.
    destruct (mcStore w !! tok) as [mc|] eqn:Hmc; simpl.
    + unfold popFinalizerFromContainerRuntimeConfig, RetryOnConflict, updateBackoffSteps,
        retryOnConflictN. rewrite Hfin.
      unfold bind at 1 2. unfold popFinalizerAttempt at 1.
      unfold bind at 1. unfold mccrLister_Get, bind, call. simpl. rewrite Hf. simpl.
      rewrite Hc. simpl. unfold CreateThreeWayJSONMergePatch. simpl. rewrite Hfin.
      destruct (decide ([] = [tok])) as [Heq|_]; [discriminate|].
      unfold patchContainerRuntimeConfigs, CtrCfg_Patch, bind, call. simpl. rewrite Hf. simpl.
      rewrite Hs. simpl.
      eexists. split; [reflexivity|]. simpl. rewrite <- !app_assoc.
      split; [reflexivity|]. split; [apply lookup_delete_eq|]. split; reflexivity.
    + unfold popFinalizerFromContainerRuntimeConfig, RetryOnConflict, updateBackoffSteps,
        retryOnConflictN. rewrite Hfin.
      unfold bind at 1 2. unfold popFinalizerAttempt at 1.
      unfold bind at 1. unfold mccrLister_Get, bind, call. simpl. rewrite Hf. simpl.
      rewrite Hc. simpl. unfold CreateThreeWayJSONMergePatch. simpl. rewrite Hfin.
      destruct (decide ([] = [tok])) as [Heq|_]; [discriminate|].
      unfold patchContainerRuntimeConfigs, CtrCfg_Patch, bind, call. simpl. rewrite Hf. simpl.
      rewrite Hs. simpl.
      eexists. split; [reflexivity|]. simpl. rewrite <- !app_assoc.
      split; [symmetry; by apply delete_id|]. split; [exact Hmc|]. split; reflexivity.
  - intros e Hf Hnf. destruct e as [[] m|m|]; try discriminate Hnf.
    unfold cascadeDelete. rewrite Hfin.
    unfold bind at 1. unfold MachineConfigs_Delete, bind, call. rewrite Hf. simpl.
    destruct (decide (MachineConfigsDelete tok = MachineConfigsDelete tok)) as [_|Hne];
      [|contradiction]. simpl.
    unfold popFinalizerFromContainerRuntimeConfig, RetryOnConflict, updateBackoffSteps,
      retryOnConflictN. rewrite Hfin.
    unfold bind at 1 2. unfold popFinalizerAttempt at 1.
    unfold bind at 1. unfold mccrLister_Get, bind, call. simpl.
    rewrite Hc. simpl. unfold CreateThreeWayJSONMergePatch. simpl. rewrite Hfin.
    destruct (decide ([] = [tok])) as [Heq|_]; [discriminate|].
    unfold patchContainerRuntimeConfigs, CtrCfg_Patch, bind, call. simpl.
    rewrite Hs. simpl.
    eexists. split; [reflexivity|]. simpl. split; reflexivity.
  - intros e rest Hf Hnf. unfold cascadeDelete. rewrite Hfin.
    unfold bind at 1. unfold MachineConfigs_Delete, bind, call. rewrite Hf.
    destruct e as [[] m|m|]; try discriminate Hnf; simpl;
      (eexists; split; [reflexivity|]; simpl; repeat split; reflexivity).
Qed.

(** ** Skipping a pool *)

Lemma yields_ret {A} (Q : A -> Prop) a : Q a -> yields Q (ret a).
Proof. intros Ha w a' w' [= <- _]. exact Ha. Qed.

Lemma yields_panic {A} (Q : A -> Prop) : yields Q panic.
Proof. intros w a w' Hp. discriminate Hp. Qed.

Lemma yields_bind_with {A B} (Q1 : A -> Prop) (Q : B -> Prop) (m : M A) (k : A -> M B) :
  yields Q1 m -> (forall a, Q1 a -> yields Q (k a)) -> yields Q (bind m k).
Proof.
  intros Hm Hk w b w'. unfold bind. destruct (m w) as [a w1|w1] eqn:Hrun; [|discriminate].
  apply (Hk a (Hm _ _ _ Hrun)).
Qed.

Lemma yields_bind {A B} (Q : B -> Prop) (m : M A) (k : A -> M B) :
  (forall a, yields Q (k a)) -> yields Q (bind m k).
Proof.
  intros Hk. apply (yields_bind_with (fun _ => True)); [intros ? ? ? ?; exact I | auto].
Qed.

Ltac yields_step :=
  lazymatch goal with
  | |- yields _ (ret _) => apply yields_ret; try discriminate; auto
  | |- yields _ panic => apply yields_panic
  | |- yields _ (bind _ _) => apply yields_bind; intros
  | |- yields _ (match ?x with _ => _ end) => destruct x
  end.

Lemma regenerate_not_Continue key cfg cc pool managedKey mc isNotFound :
  yields (fun flow => flow <> Continue) (regenerate ctrl key cfg cc pool managedKey mc isNotFound).
Proof.
  unfold regenerate. apply yields_bind. intros [[[st rg] pl] err].
  destruct err as [e|]; [repeat yields_step|].
  apply yields_bind. intros files.
  apply (yields_bind_with
           (fun x : MachineConfig + Flow => match x with inr f => f <> Continue | inl _ => True end)).
  - repeat yields_step.
  - intros [mc'|flow] Hx; repeat yields_step.
Qed.

Lemma seenAndSucceeded_panics cfg isNotFound :
  seenAndSucceeded cfg isNotFound = None <->
  isNotFound = false /\ crcGeneration cfg <= crcObservedGeneration cfg /\ crcConditions cfg = [].
Proof.
  unfold seenAndSucceeded.
  destruct isNotFound; simpl; [split; [discriminate | intros [? _]; discriminate]|].
  destruct (Z.leb_spec (crcGeneration cfg) (crcObservedGeneration cfg)) as [Hle|Hgt].
  - destruct (list.last (crcConditions cfg)) as [c|] eqn:Hl.
    + split; [discriminate|]. intros (_ & _ & Hnil). rewrite Hnil in Hl. discriminate.
    + apply last_None in Hl. split; auto.
  - split; [discriminate | intros (_ & ? & _); lia].
Qed.

(** C2: the loop body skips a pool exactly when the machine config was
    fetched without error, the observed generation is at least the
    generation, the last condition is a success and the machine config's
    version annotation is the controller's version.  With the first three
    and another version, the body goes on to regenerate, and a regeneration
    whose rendering and update succeed leaves the machine config with the
    controller's version. *)
Theorem syncPool_skip_condition (key : string) (cfg : ContainerRuntimeConfig)
    (cc : ControllerConfig) (pool : MachineConfigPool) (w : World) :
  (forall w',
     syncPool ctrl key cfg cc pool w = Done Continue w' <->
     exists managedKey mc w0,
       getManagedKeyCtrCfg pool cfg w = Done (managedKey, None) w0 /\
       MachineConfigs_Get managedKey w0 = Done (mc, None) w' /\
       crcGeneration cfg <= crcObservedGeneration cfg /\
       (exists c, list.last (crcConditions cfg) = Some c /\
                  condType c = ContainerRuntimeConfigSuccess) /\
       goIndex (mcAnnotations mc) GeneratedByControllerVersionAnnotationKey = versionHash) /\
  (forall managedKey mc w0 w1 c,
     getManagedKeyCtrCfg pool cfg w = Done (managedKey, None) w0 ->
     MachineConfigs_Get managedKey w0 = Done (mc, None) w1 ->
     crcGeneration cfg <= crcObservedGeneration cfg ->
     list.last (crcConditions cfg) = Some c ->
     condType c = ContainerRuntimeConfigSuccess ->
     goIndex (mcAnnotations mc) GeneratedByControllerVersionAnnotationKey <> versionHash ->
     syncPool ctrl key cfg cc pool w = regenerate ctrl key cfg cc pool managedKey mc false w1 /\
     (forall gmcs st rg pl raw old,
        faults w1 = [] ->
        GenerateMachineConfigsForRole cc (poolName pool) (templatesDir ctrl) = (gmcs, None) ->
        findFirst findStorageConfig gmcs None None = (st, None) ->
        findFirst findRegistriesConfig gmcs None None = (rg, None) ->
        findFirst findPolicyJSON gmcs None None = (pl, None) ->
        OverlaySize (crcSpec cfg) = 0 ->
        jsonMarshal (createNewIgnition
          (if negb (String.eqb (LogLevel (crcSpec cfg)) "")
              || bool_decide (is_Some (PidsLimit (crcSpec cfg)))
              || negb (LogSizeMax (crcSpec cfg) =? 0)
           then createCRIODropinFiles cfg else [])) = (raw, None) ->
        mcStore w1 !! mcName mc = Some old ->
        mcStore (finalWorld (syncPool ctrl key cfg cc pool w)) !! mcName mc
        = Some (SetOwnerReferences [controllerRef cfg]
                  (SetAnnotations {[ GeneratedByControllerVersionAnnotationKey := versionHash ]}
                     (withRaw raw mc))))).
Proof.
  split.
  - intros w'. split.
    + unfold syncPool. unfold bind at 1.
      destruct (getManagedKeyCtrCfg pool cfg w) as [[managedKey [e|]] w0|w0] eqn:Hkey;
        [| |discriminate].
      { intros Hrun. exfalso. revert Hrun.
        match goal with |- ?m w0 = _ -> _ =>
          assert (Hy : yields (fun flow => flow <> Continue) m) by repeat yields_step end.
        intros Hrun. exact (Hy _ _ _ Hrun eq_refl). }
      unfold bind at 1.
      destruct (MachineConfigs_Get managedKey w0) as [[mc err] w1|w1] eqn:Hget; [|discriminate].
      destruct err as [e|].
      { destruct (IsNotFound (Some e)) eqn:Hnf; cbn [bool_decide andb negb].
        - assert (Hs : bool_decide (is_Some (Some e)) = true) by (apply bool_decide_eq_true; eauto).
          rewrite Hs. cbn [andb negb]. unfold seenAndSucceeded. cbn [negb andb].
          intros Hrun. exfalso.
          exact (regenerate_not_Continue _ _ _ _ _ _ _ _ _ _ Hrun eq_refl).
        - assert (Hs : bool_decide (is_Some (Some e)) = true) by (apply bool_decide_eq_true; eauto).
          rewrite Hs. cbn [andb negb].
          intros Hrun. exfalso. revert Hrun.
          match goal with |- ?m w1 = _ -> _ =>
            assert (Hy : yields (fun flow => flow <> Continue) m) by repeat yields_step end.
          intros Hrun. exact (Hy _ _ _ Hrun eq_refl). }
      assert (Hs : bool_decide (is_Some (@None error)) = false).
      { apply bool_decide_eq_false. intros [? ?]. discriminate. }
      rewrite Hs. cbn [andb IsNotFound negb]. unfold seenAndSucceeded. cbn [negb andb].
      destruct (Z.leb_spec (crcGeneration cfg) (crcObservedGeneration cfg)) as [Hle|Hgt].
      * destruct (list.last (crcConditions cfg)) as [c|] eqn:Hl; [|discriminate].
        destruct (bool_decide (condType c = ContainerRuntimeConfigSuccess)) eqn:Hty.
        -- destruct (String.eqb_spec
                       (goIndex (mcAnnotations mc) GeneratedByControllerVersionAnnotationKey)
                       versionHash) as [Heq|Hne].
           ++ intros [= <-]. exists managedKey, mc, w0.
              apply bool_decide_eq_true in Hty. eauto 10.
           ++ intros Hrun. exfalso.
              exact (regenerate_not_Continue _ _ _ _ _ _ _ _ _ _ Hrun eq_refl).
        -- intros Hrun. exfalso.
           exact (regenerate_not_Continue _ _ _ _ _ _ _ _ _ _ Hrun eq_refl).
      * intros Hrun. exfalso.
        exact (regenerate_not_Continue _ _ _ _ _ _ _ _ _ _ Hrun eq_refl).
    + intros (managedKey & mc & w0 & Hkey & Hget & Hle & (c & Hl & Hty) & Hv).
      unfold syncPool. unfold bind at 1. rewrite Hkey.
      unfold bind at 1. rewrite Hget.
      assert (Hs : bool_decide (is_Some (@None error)) = false).
      { apply bool_decide_eq_false. intros [? ?]. discriminate. }
      rewrite Hs. cbn [andb IsNotFound negb]. unfold seenAndSucceeded. cbn [negb andb].
      destruct (Z.leb_spec (crcGeneration cfg) (crcObservedGeneration cfg)) as [_|Hgt]; [|lia].
      rewrite Hl, Hty, Hv, String.eqb_refl.
      rewrite bool_decide_eq_true_2 by reflexivity. reflexivity.
  - intros managedKey mc w0 w1 c Hkey Hget Hle Hl Hty Hv.
    assert (Hgo : syncPool ctrl key cfg cc pool w
                  = regenerate ctrl key cfg cc pool managedKey mc false w1).
    { unfold syncPool. unfold bind at 1. rewrite Hkey.
      unfold bind at 1. rewrite Hget.
      assert (Hs : bool_decide (is_Some (@None error)) = false).
      { apply bool_decide_eq_false. intros [? ?]. discriminate. }
      rewrite Hs. cbn [andb IsNotFound negb]. unfold seenAndSucceeded. cbn [negb andb].
      destruct (Z.leb_spec (crcGeneration cfg) (crcObservedGeneration cfg)) as [_|Hgt]; [|lia].
      rewrite Hl, Hty. rewrite bool_decide_eq_true_2 by reflexivity.
      destruct (String.eqb_spec
                  (goIndex (mcAnnotations mc) GeneratedByControllerVersionAnnotationKey)
                  versionHash) as [Heq|_]; [contradiction | reflexivity]. }
    split; [exact Hgo|].
    intros gmcs st rg pl raw old Hf Hgen Hst Hrg Hpl Hov Hraw Hold.
    rewrite Hgo. unfold regenerate.
    unfold bind at 1. unfold generateOriginalContainerRuntimeConfigs at 1.
    unfold bind at 1. rewrite (call_nofault _ _ Hf). rewrite Hgen, Hst, Hrg, Hpl.
    unfold ret at 1. rewrite Hov. cbn [Z.eqb negb].
    unfold bind at 1. unfold ret at 1.
    unfold bind at 1. unfold ret at 1.
    rewrite app_nil_l.
    match goal with
    | |- context [jsonMarshal (createNewIgnition ?fs)] =>
        replace (jsonMarshal (createNewIgnition fs)) with (raw, @None error)
    end.
    erewrite bind_run.
    2:{ apply retry_first_ok. erewrite bind_run; [reflexivity|].
        apply (MachineConfigs_Update_nofault _ _ old); [exact Hf | exact Hold]. }
    cbv beta iota.
    match goal with
    | |- mcStore (finalWorld (?m ?w2)) !! _ = _ =>
        assert (Hkeep : steps sameMachineConfigs m)
    end.
    { unfold addFinalizerToContainerRuntimeConfig, syncStatusOnly.
      repeat trace_step;
        try (unfold addFinalizerAttempt, syncStatusAttempt; unfold_clients; repeat trace_step). }
    match goal with
    | |- mcStore (finalWorld (?m ?w2)) !! _ = _ =>
        pose proof (Hkeep w2) as Hk; unfold sameMachineConfigs in Hk; rewrite Hk
    end.
    cbn [mcStore setMcStore]. apply lookup_insert_eq.
Qed.

(** ** The skip check and the empty list of conditions *)

(** C8: the skip check reads the last status condition with no test that
    there is one.  Once the machine config is found and the generation is
    already observed, the loop body panics exactly on an empty list of
    conditions at that check, so that a pass that does not panic had a
    condition to read; and a pass over such an object does reach the check. *)
Theorem skip_check_needs_a_condition (key : string) (cfg : ContainerRuntimeConfig)
    (cc : ControllerConfig) (pool : MachineConfigPool) (w : World) :
  (forall isNotFound,
     seenAndSucceeded cfg isNotFound = None <->
     isNotFound = false /\ crcGeneration cfg <= crcObservedGeneration cfg /\
     crcConditions cfg = []) /\
  (forall managedKey mc w0 w1,
     getManagedKeyCtrCfg pool cfg w = Done (managedKey, None) w0 ->
     MachineConfigs_Get managedKey w0 = Done (mc, None) w1 ->
     crcGeneration cfg <= crcObservedGeneration cfg ->
     (crcConditions cfg = [] -> syncPool ctrl key cfg cc pool w = Panicked w1) /\
     ((forall w', syncPool ctrl key cfg cc pool w <> Panicked w') -> crcConditions cfg <> [])) /\
  (forall ns name cm sel ps managedKey mc,
     faults w = [] ->
     cmStore w !! configMapName = Some cm ->
     String.eqb key "force-sync-on-upgrade" = false ->
     SplitMetaNamespaceKey key = (ns, name, None) ->
     mccrCache w !! name = Some cfg ->
     crcDeletionTimestamp cfg = None ->
     validateUserContainerRuntimeConfig cfg = None ->
     ccCache w !! ControllerConfigName = Some cc ->
     LabelSelectorAsSelector (crcPoolSelector cfg) = (sel, None) ->
     selectPools sel (mcpCache w) = pool :: ps ->
     (forall w', faults w' = [] ->
        exists w0, getManagedKeyCtrCfg pool cfg w' = Done (managedKey, None) w0 /\
                   faults w0 = [] /\ mcStore w0 = mcStore w') ->
     mcStore w !! managedKey = Some mc ->
     crcGeneration cfg <= crcObservedGeneration cfg ->
     crcConditions cfg = [] ->
     exists w', syncContainerRuntimeConfig ctrl key w = Panicked w').
Proof.
  assert (Hpool : forall wp managedKey mc w0 w1,
            getManagedKeyCtrCfg pool cfg wp = Done (managedKey, None) w0 ->
            MachineConfigs_Get managedKey w0 = Done (mc, None) w1 ->
            crcGeneration cfg <= crcObservedGeneration cfg ->
            crcConditions cfg = [] ->
            syncPool ctrl key cfg cc pool wp = Panicked w1).
  { intros wp managedKey mc w0 w1 Hkey Hget Hle Hnil. unfold syncPool.
    rewrite (bind_run _ _ _ _ _ Hkey). cbv beta iota.
    rewrite (bind_run _ _ _ _ _ Hget). rewrite (@is_Some_None_false error). cbn [andb IsNotFound].
    destruct (seenAndSucceeded cfg false) as [b|] eqn:Hseen; [|reflexivity].
    assert (Hn : seenAndSucceeded cfg false = None)
      by (apply seenAndSucceeded_panics; auto).
    congruence. }
  split; [apply seenAndSucceeded_panics|]. split.
  - intros managedKey mc w0 w1 Hkey Hget Hle. split.
    + intros Hnil. eapply Hpool; eauto.
    + intros Hsafe Hnil. apply (Hsafe w1). eapply Hpool; eauto.
  - intros ns name cm sel ps managedKey mc Hf Hcm Hk Hsplit Hc Hdel Hval Hcc Hsel Hps Hkey Hmc Hle Hnil.
    rewrite (sync_fetches key ns name cfg cm w Hf Hcm Hk Hsplit Hc).
    unfold syncFetched. rewrite Hdel, Hval.
    erewrite bind_run; [|apply ccLister_Get_nofault; exact Hf].
    cbn [ccCache logCall]. rewrite Hcc.
    erewrite bind_run; [|eapply getPools_nofault; [exact Hf | exact Hsel | exact Hps]].
    cbn [forPools].
    destruct (Hkey (logCall PoolsList (logCall (ControllerConfigGet ControllerConfigName)
                      (logCall (CtrCfgListerGet name) (logCall (ConfigMapsGet configMapName) w))))
                Hf) as (w0 & Hrun0 & Hf0 & Hmc0).
    eexists. apply bind_panic, bind_panic.
    eapply Hpool; [exact Hrun0 | | exact Hle | exact Hnil].
    rewrite MachineConfigs_Get_nofault by exact Hf0. rewrite Hmc0. cbn [mcStore logCall].
    rewrite Hmc. reflexivity.
Qed.

(** ** A failed validation *)

Lemma recordCondition_last conds c : list.last (recordCondition conds c) = Some c.
Proof.
  unfold recordCondition. destruct (list.last conds) as [l|] eqn:Hl.
  - destruct (String.eqb_spec (condMessage c) (condMessage l)) as [He|Hne]; simpl.
    + rewrite He, String.eqb_refl. apply last_insert_last. intros ->. discriminate.
    + apply last_snoc.
  - apply last_snoc.
Qed.

Lemma sync_after_seccomp key ns name cfg w w1 :
  createSeccompUseDefaultMC ctrl w = Done None w1 ->
  faults w1 = [] ->
  String.eqb key "force-sync-on-upgrade" = false ->
  SplitMetaNamespaceKey key = (ns, name, None) ->
  mccrCache w1 !! name = Some cfg ->
  syncContainerRuntimeConfig ctrl key w
  = syncFetched ctrl key cfg (logCall (CtrCfgListerGet name) w1).
Proof.
  intros Hens Hf Hkey Hsplit Hc. unfold syncContainerRuntimeConfig.
  rewrite (bind_run _ _ _ _ _ Hens). rewrite Hkey, Hsplit.
  erewrite bind_run; [|apply mccrLister_Get_nofault; exact Hf].
  rewrite Hc. reflexivity.
Qed.

(** C1, as the code has it: when the validation of the object fails, the
    pass records a failing status condition, in the cached object and in the
    stored one, and stops: after the ensure of the seccomp machine configs
    it reads the object and writes its status, and nothing else.  What it
    returns to the queue is the validation error itself, so that the queue's
    handler treats the key like any failed key and re-adds it rate-limited
    while it is below the retry ceiling.  [w1] is the world that the ensure
    leaves, whether it found the marker or created the machine configs.
    That the condition built from an error is a failing one is assumed of
    [wrapErrorWithCondition]. *)
Theorem validation_failure_returns_the_error (key ns name : string)
    (cfg : ContainerRuntimeConfig) (e : error) (w w1 : World) (q : Queue) :
  createSeccompUseDefaultMC ctrl w = Done None w1 ->
  faults w1 = [] ->
  String.eqb key "force-sync-on-upgrade" = false ->
  SplitMetaNamespaceKey key = (ns, name, None) ->
  mccrCache w1 !! name = Some cfg ->
  crcName cfg = name ->
  crcDeletionTimestamp cfg = None ->
  validateUserContainerRuntimeConfig cfg = Some e ->
  (forall t, condType (wrapErrorWithCondition (Some e) [] t) = ContainerRuntimeConfigFailure) ->
  exists w' cfg' failing,
    syncContainerRuntimeConfig ctrl key w = Done (Some e) w' /\
    failing = wrapErrorWithCondition (Some e) [] (clock w1) /\
    condType failing = ContainerRuntimeConfigFailure /\
    mccrCache w' !! name = Some cfg' /\
    list.last (crcConditions cfg') = Some failing /\
    (forall s, mccrStore w1 !! name = Some s ->
       exists s', mccrStore w' !! name = Some s' /\
                  list.last (crcConditions s') = Some failing) /\
    trace w' = (trace w1 ++ [CtrCfgListerGet name; CtrCfgListerGet name;
                             CtrCfgUpdateStatus name])%list /\
    mcStore w' = mcStore w1 /\ cmStore w' = cmStore w1 /\
    processNextWorkItem ctrl key q w = Done (handleErr (Some e) key q) w' /\
    ((NumRequeues key q < maxRetries)%nat ->
       qops (handleErr (Some e) key q) = (qops q ++ [QAddRateLimited key])%list /\
       NumRequeues key (handleErr (Some e) key q) = S (NumRequeues key q)).
Proof.
  intros Hens Hf Hk Hsplit Hc Hname Hdel Hval Hfail.
  pose proof (sync_after_seccomp key ns name cfg w w1 Hens Hf Hk Hsplit Hc) as Hrun.
  unfold syncFetched in Hrun. rewrite Hdel, Hval in Hrun.
  set (w0 := logCall (CtrCfgListerGet name) w1) in *.
  destruct (syncStatusOnly_nofault cfg (Some e) [] w0 cfg)
    as (w' & Hst & _ & Hcache & Hstore & Hmc & Hcm & _ & _ & _ & Htr).
  { exact Hf. } { rewrite Hname. exact Hc. } { reflexivity. }
  rewrite Hst in Hrun. rewrite Hname in Hcache, Hstore, Htr.
  exists w', (recorded (Some e) [] (clock w0) cfg), (wrapErrorWithCondition (Some e) [] (clock w1)).
  split; [exact Hrun|]. split; [reflexivity|]. split; [apply Hfail|].
  split; [rewrite Hcache; apply lookup_insert_eq|].
  split; [apply recordCondition_last|].
  split.
  { intros s Hs. rewrite Hstore. subst w0. cbn [mccrStore logCall]. rewrite Hs.
    eexists. split; [apply lookup_insert_eq|]. cbn [crcConditions withStatus recorded].
    apply recordCondition_last. }
  split; [rewrite Htr; subst w0; cbn [trace logCall]; by rewrite <- !app_assoc|].
  split; [exact Hmc|]. split; [exact Hcm|].
  split.
  - unfold processNextWorkItem. by rewrite (bind_run _ _ _ _ _ Hrun).
  - intros Hlt. unfold handleErr.
    destruct (Nat.ltb_spec (NumRequeues key q) maxRetries) as [_|Hge]; [|lia].
    split; [reflexivity | apply NumRequeues_AddRateLimited].
Qed.

(** ** The image policy and the version annotation *)

Lemma logCalls_frame l : forall w,
  faults (logCalls l w) = faults w /\ mcStore (logCalls l w) = mcStore w /\
  cmStore (logCalls l w) = cmStore w /\ mccrCache (logCalls l w) = mccrCache w /\
  mccrStore (logCalls l w) = mccrStore w /\ clock (logCalls l w) = clock w /\
  trace (logCalls l w) = (trace w ++ l)%list.
Proof.
  induction l as [|c l IH]; intros w.
  - cbn. rewrite app_nil_r. repeat split.
  - cbn [logCalls fold_left]. fold (logCalls l (logCall c w)).
    destruct (IH (logCall c w)) as (H1 & H2 & H3 & H4 & H5 & H6 & H7).
    rewrite H1, H2, H3, H4, H5, H6, H7. cbn [trace logCall]. rewrite <- app_assoc.
    repeat split.
Qed.

Lemma pureM_ret {A} (a : A) : pureM (ret a).
Proof. intros w w'. reflexivity. Qed.

Lemma pureM_panic {A} : pureM (@panic A).
Proof. intros w w'. reflexivity. Qed.

Lemma pureM_bind {A B} (m : M A) (k : A -> M B) :
  pureM m -> (forall a, pureM (k a)) -> pureM (bind m k).
Proof.
  intros Hm Hk w w'. unfold bind. rewrite (Hm w w').
  destruct (m w) as [a w0|w0]; cbn [returned]; [apply Hk | reflexivity].
Qed.

Ltac pure_step :=
  lazymatch goal with
  | |- pureM (ret _) => apply pureM_ret
  | |- pureM panic => apply pureM_panic
  | |- pureM (bind _ _) => apply pureM_bind; [|intros]
  | |- pureM (match ?x with _ => _ end) => destruct x
  end.

Lemma updateOriginal_pure orig what update : pureM (updateOriginal orig what update).
Proof. unfold updateOriginal. repeat pure_step. Qed.

Lemma generateOriginal_nofault cc role w :
  faults w = [] ->
  exists r,
    generateOriginalContainerRuntimeConfigs ctrl cc role w
    = Done r (logCall (RenderTemplates role) w).
Proof.
  intros Hf. unfold generateOriginalContainerRuntimeConfigs.
  rewrite (bind_run _ _ _ _ _ (call_nofault _ _ Hf)).
  destruct (GenerateMachineConfigsForRole cc role (templatesDir ctrl)) as [gmcs [e|]];
    [eexists; reflexivity|].
  destruct (findFirst findStorageConfig gmcs None None) as [st [es|]];
    destruct (findFirst findRegistriesConfig gmcs None None) as [rg [er|]];
    destruct (findFirst findPolicyJSON gmcs None None) as [pl [ep|]];
    eexists; reflexivity.
Qed.

(** Without failure, [registriesConfigIgnition] renders the same whatever
    the world, and its one call is the rendering of the templates. *)
Lemma registriesConfigIgnition_nofault cc role ins blk alw srch icsp w w1 :
  faults w = [] -> faults w1 = [] ->
  registriesConfigIgnition ctrl cc role ins blk alw srch icsp w1 =
    match returned (registriesConfigIgnition ctrl cc role ins blk alw srch icsp w) with
    | Some r => Done r (logCall (RenderTemplates role) w1)
    | None => Panicked (logCall (RenderTemplates role) w1)
    end.
Proof.
  intros Hf Hf1. unfold registriesConfigIgnition.
  destruct (generateOriginal_nofault cc role w Hf) as (r & Hr).
  destruct (generateOriginal_nofault cc role w1 Hf1) as (r1 & Hr1).
  assert (Heq : r1 = r).
  { revert Hr Hr1. unfold generateOriginalContainerRuntimeConfigs.
    rewrite !(bind_run _ _ _ _ _ (call_nofault _ _ Hf)).
    rewrite !(bind_run _ _ _ _ _ (call_nofault _ _ Hf1)).
    destruct (GenerateMachineConfigsForRole cc role (templatesDir ctrl)) as [gmcs [e|]];
      [intros [= <-] [= <-]; reflexivity|].
    destruct (findFirst findStorageConfig gmcs None None) as [st [es|]];
      destruct (findFirst findRegistriesConfig gmcs None None) as [rg [er|]];
      destruct (findFirst findPolicyJSON gmcs None None) as [pl [ep|]];
      intros [= <-] [= <-]; reflexivity. }
  subst r1.
  match goal with |- bind _ ?K _ = _ => set (k := K) end.
  rewrite (bind_run _ _ _ _ _ Hr), (bind_run _ _ _ _ _ Hr1).
  assert (Hk : pureM (k r)).
  { subst k. destruct r as [[[st rg] pl] err]. cbv beta iota.
    repeat first [apply updateOriginal_pure | pure_step | progress cbv zeta]. }
  apply Hk.
Qed.

Lemma icspLister_List_nofault w :
  faults w = [] -> icspLister_List w = Done (icspCache w, None) (logCall ICSPList w).
Proof.
  intros Hf. unfold icspLister_List. rewrite (bind_run _ _ _ _ _ (call_nofault _ _ Hf)).
  reflexivity.
Qed.

Lemma imgLister_Get_found name w img :
  faults w = [] -> imgCache w !! name = Some img ->
  imgLister_Get name w = Done (Some img, None) (logCall (ImageListerGet name) w).
Proof.
  intros Hf Hi. unfold imgLister_Get. rewrite (bind_run _ _ _ _ _ (call_nofault _ _ Hf)).
  unfold bind, getWorld. simpl. by rewrite Hi.
Qed.

Lemma clusterVersionLister_Get_found name w cv :
  faults w = [] -> cvCache w !! name = Some cv ->
  clusterVersionLister_Get name w = Done (Some cv, None) (logCall (ClusterVersionGet name) w).
Proof.
  intros Hf Hi. unfold clusterVersionLister_Get.
  rewrite (bind_run _ _ _ _ _ (call_nofault _ _ Hf)).
  unfold bind, getWorld. simpl. by rewrite Hi.
Qed.

(** One attempt of the image pass without failure, once the payload is
    rendered: it leaves the machine config it found when the payload and
    the version are the same, updates it otherwise, and creates one when
    there was none. *)
Lemma syncImageAttempt_nofault imgcfg blk cc icsp keyOf p raw wref w :
  faults wref = [] -> faults w = [] ->
  freshPayload ctrl cc imgcfg blk icsp (poolName p) wref = Some raw ->
  imageReady keyOf (mcStore w) p ->
  syncImageAttempt ctrl imgcfg blk cc icsp (poolName p) (keyOf p) true w =
    match mcStore w !! keyOf p with
    | Some mc =>
        if unchangedByImage raw mc
        then Done (false, None)
               (logCalls [RenderTemplates (poolName p); MachineConfigsGet (keyOf p)] w)
        else Done (true, None)
               (setMcStore (insert (keyOf p) (imageWrite imgcfg raw mc))
                  (logCalls [RenderTemplates (poolName p); MachineConfigsGet (keyOf p);
                             MachineConfigsUpdate (keyOf p)] w))
    | None =>
        Done (true, None)
          (setMcStore (insert (keyOf p) (imageWrite imgcfg raw (fst (imageTemplate keyOf p))))
             (logCalls [RenderTemplates (poolName p); MachineConfigsGet (keyOf p);
                        MachineConfigsCreate (keyOf p)] w))
    end.
Proof.
  intros Hfr Hf Hfresh Hready. unfold syncImageAttempt. unfold bind at 1.
  rewrite (registriesConfigIgnition_nofault cc (poolName p) _ _ _ _ _ wref w Hfr Hf).
  unfold freshPayload in Hfresh.
  destruct (returned (registriesConfigIgnition ctrl cc (poolName p) _ _ _ _ icsp wref))
    as [[[ign|] [e|]]|]; try discriminate Hfresh.
  destruct (jsonMarshal ign) as [raw' [e|]] eqn:Hjson; [discriminate Hfresh|].
  injection Hfresh as ->. cbv beta iota.
  rewrite (bind_run _ _ _ _ _
             (MachineConfigs_Get_nofault (keyOf p) (logCall (RenderTemplates (poolName p)) w) Hf)).
  cbn [mcStore logCall]. unfold imageReady in Hready.
  destruct (mcStore w !! keyOf p) as [mc|] eqn:Hmc.
  - rewrite (@is_Some_None_false error). cbn [andb IsNotFound negb].
    fold (sameVersion mc). fold (unchangedByImage raw mc).
    destruct (unchangedByImage raw mc); [reflexivity|].
    cbv zeta. fold (imageWrite imgcfg raw mc).
    erewrite bind_run;
      [|apply (MachineConfigs_Update_nofault (imageWrite imgcfg raw mc) _ mc);
        [exact Hf | cbn [mcStore logCall mcName imageWrite SetOwnerReferences SetAnnotations withRaw];
                    rewrite Hready; exact Hmc]].
    cbn [mcName imageWrite SetOwnerReferences SetAnnotations withRaw]. rewrite Hready.
    reflexivity.
  - destruct Hready as [Hbuild Hname].
    assert (Hs : bool_decide (is_Some (Some (notFound "machineconfigs" (keyOf p)))) = true)
      by (apply bool_decide_eq_true; eauto).
    rewrite Hs. cbn [andb IsNotFound notFound negb]. cbv zeta.
    unfold imageTemplate in *.
    destruct (MachineConfigFromIgnConfig (poolName p) (keyOf p) NewIgnConfig) as [tmpl err].
    cbn [fst snd] in Hbuild, Hname |- *. subst err.
    fold (imageWrite imgcfg raw tmpl).
    erewrite bind_run;
      [|apply (MachineConfigs_Create_nofault (imageWrite imgcfg raw tmpl));
        [exact Hf | cbn [mcStore logCall mcName imageWrite SetOwnerReferences SetAnnotations withRaw];
                    rewrite Hname; exact Hmc]].
    cbn [mcName imageWrite SetOwnerReferences SetAnnotations withRaw]. rewrite Hname.
    reflexivity.
Qed.

(** The loop of the image pass without failure: pool after pool, the calls
    of [imageCalls] and the machine config of [imageResult]. *)
Lemma syncImagePools_nofault imgcfg blk cc icsp keyCalls keyOf rawOf store wref :
  faults wref = [] ->
  (forall p w', faults w' = [] ->
     getManagedKeyReg p w' = Done (keyOf p, None) (logCalls (keyCalls p) w')) ->
  forall pools w,
    faults w = [] ->
    List.NoDup (List.map keyOf pools) ->
    (forall p, List.In p pools ->
       mcStore w !! keyOf p = store !! keyOf p /\
       freshPayload ctrl cc imgcfg blk icsp (poolName p) wref = Some (rawOf p) /\
       imageReady keyOf store p) ->
    exists w',
      syncImagePools ctrl imgcfg blk cc icsp pools w = Done None w' /\
      faults w' = [] /\
      trace w' = (trace w ++ concat (List.map (imageCalls keyCalls keyOf rawOf store) pools))%list /\
      (forall p, List.In p pools ->
         mcStore w' !! keyOf p = Some (imageResult imgcfg keyOf rawOf store p)) /\
      (forall k, (forall p, List.In p pools -> keyOf p <> k) -> mcStore w' !! k = mcStore w !! k).
Proof.
  intros Hfr Hkey. induction pools as [|p rest IH]; intros w Hf Hnd Hall.
  - exists w. cbn. rewrite app_nil_r. repeat split; auto. intros p [].
  - cbn [syncImagePools]. cbv zeta.
    rewrite (bind_run _ _ _ _ _ (Hkey p w Hf)). cbv beta iota.
    destruct (logCalls_frame (keyCalls p) w) as (Hfk & Hmck & _ & _ & _ & _ & Htrk).
    destruct (Hall p (or_introl eq_refl)) as (Hmc & Hfresh & Hready).
    rewrite List.map_cons in Hnd. apply List.NoDup_cons_iff in Hnd as [Hnotin Hnd].
    rewrite Hf in Hfk.
    assert (Hother : forall p', List.In p' rest -> keyOf p' <> keyOf p).
    { intros p' Hp' Heq. apply Hnotin. rewrite <- Heq. by apply List.in_map. }
    assert (Hready' : imageReady keyOf (mcStore (logCalls (keyCalls p) w)) p).
    { unfold imageReady in *. by rewrite Hmck, Hmc. }
    pose proof (syncImageAttempt_nofault imgcfg blk cc icsp keyOf p (rawOf p)
                  wref (logCalls (keyCalls p) w) Hfr Hfk Hfresh Hready') as Hatt.
    rewrite Hmck, Hmc in Hatt.
    rewrite List.map_cons, List.concat_cons. unfold imageCalls at 1.
    assert (Hstep : exists applied w2,
              syncImageAttempt ctrl imgcfg blk cc icsp (poolName p) (keyOf p) true
                (logCalls (keyCalls p) w) = Done (applied, None) w2 /\
              faults w2 = [] /\
              trace w2 = (trace w ++ keyCalls p
                          ++ [RenderTemplates (poolName p); MachineConfigsGet (keyOf p)]
                          ++ match store !! keyOf p with
                             | Some mc => if unchangedByImage (rawOf p) mc then []
                                          else [MachineConfigsUpdate (keyOf p)]
                             | None => [MachineConfigsCreate (keyOf p)]
                             end)%list /\
              mcStore w2 !! keyOf p = Some (imageResult imgcfg keyOf rawOf store p) /\
              (forall k, k <> keyOf p -> mcStore w2 !! k = mcStore w !! k)).
    { unfold imageResult. rewrite Hatt.
      destruct (store !! keyOf p) as [mc|]; [destruct (unchangedByImage (rawOf p) mc)|];
        eexists _, _; (split; [reflexivity|]);
        cbn [faults trace mcStore setMcStore logCalls fold_left logCall];
        rewrite ?Hfk, ?Htrk, ?Hmck, <- ?app_assoc;
        (split; [reflexivity|]); (split; [reflexivity|]).
      - split; [by rewrite <- Hmc | auto].
      - split; [apply lookup_insert_eq|]. intros k Hk. by rewrite lookup_insert_ne.
      - split; [apply lookup_insert_eq|]. intros k Hk. by rewrite lookup_insert_ne. }
    destruct Hstep as (applied & w2 & Hrun2 & Hf2 & Htr2 & Hst2 & Hrest2).
    erewrite bind_run; [|apply retry_first_ok; exact Hrun2]. cbv beta iota.
    destruct (IH w2 Hf2 Hnd) as (w' & Hrun & Hf' & Htr & Hst & Hrest).
    { intros p' Hp'. destruct (Hall p' (or_intror Hp')) as (Hmc' & Hfr' & Hrd').
      split; [|by split]. rewrite Hrest2 by (by apply Hother). exact Hmc'. }
    exists w'. split; [exact Hrun|]. split; [exact Hf'|]. split; [|split].
    + rewrite Htr, Htr2. rewrite <- !app_assoc. reflexivity.
    + intros p' [<- | Hp']; [|by apply Hst].
      rewrite Hrest; [exact Hst2 | exact Hother].
    + intros k Hk. rewrite Hrest; [|intros p' Hp'; apply Hk; by right].
      apply Hrest2. intros ->. by apply (Hk p (or_introl eq_refl)).
Qed.

(** C7: a pass of the image policy without failure serves every pool that
    the lister returns: after the calls of the helper that finds its key it
    renders the payload, reads the machine config and then leaves it,
    updates it or creates it.  For every pool whose machine config holds the
    payload that the pass renders, the machine config is left as it is
    exactly when its version annotation is the controller's version, and
    then the pass only renders and reads for that pool; with another version
    the pass updates the machine config, with the same payload, the
    controller's version as its only annotation and the Image as its owner.
    The helper that finds the key of a pool is one that only reads;
    [keyCalls] are its calls. *)
Theorem image_skip_condition (key : string) (imgcfg : Image) (cv : ClusterVersion)
    (blockedRegs : option (list string)) (berr : option error) (cc : ControllerConfig)
    (sel : Selector) (keyCalls : MachineConfigPool -> list Call)
    (keyOf rawOf : MachineConfigPool -> string) (w : World) :
  faults w = [] ->
  imgCache w !! "cluster" = Some imgcfg ->
  cvCache w !! "version" = Some cv ->
  getValidBlockedRegistries (cvDesiredImage cv) imgcfg = (blockedRegs, berr) ->
  berr <> Some errParsingReference ->
  ccCache w !! ControllerConfigName = Some cc ->
  LabelSelectorAsSelector builtInSelector = (sel, None) ->
  (forall p w', faults w' = [] ->
     getManagedKeyReg p w' = Done (keyOf p, None) (logCalls (keyCalls p) w')) ->
  List.NoDup (List.map keyOf (listedPools sel w)) ->
  (forall p, List.In p (listedPools sel w) ->
     freshPayload ctrl cc imgcfg blockedRegs (icspCache w) (poolName p) w = Some (rawOf p) /\
     imageReady keyOf (mcStore w) p) ->
  exists w',
    syncImageConfig ctrl key w = Done None w' /\
    trace w' = (trace w ++ [ImageListerGet "cluster"; ClusterVersionGet "version";
                            ControllerConfigGet ControllerConfigName; ICSPList; PoolsList]
                        ++ concat (List.map (imageCalls keyCalls keyOf rawOf (mcStore w))
                                     (listedPools sel w)))%list /\
    (forall p, List.In p (listedPools sel w) ->
       mcStore w' !! keyOf p = Some (imageResult imgcfg keyOf rawOf (mcStore w) p)) /\
    (forall k, (forall p, List.In p (listedPools sel w) -> keyOf p <> k) ->
       mcStore w' !! k = mcStore w !! k) /\
    (forall p mc,
       List.In p (listedPools sel w) ->
       mcStore w !! keyOf p = Some mc ->
       mcRaw mc = rawOf p ->
       (mcStore w' !! keyOf p = Some mc <->
        goIndex (mcAnnotations mc) GeneratedByControllerVersionAnnotationKey = versionHash) /\
       (goIndex (mcAnnotations mc) GeneratedByControllerVersionAnnotationKey = versionHash ->
        imageCalls keyCalls keyOf rawOf (mcStore w) p
        = (keyCalls p ++ [RenderTemplates (poolName p); MachineConfigsGet (keyOf p)])%list) /\
       (goIndex (mcAnnotations mc) GeneratedByControllerVersionAnnotationKey <> versionHash ->
        mcStore w' !! keyOf p = Some (imageWrite imgcfg (mcRaw mc) mc) /\
        imageCalls keyCalls keyOf rawOf (mcStore w) p
        = (keyCalls p ++ [RenderTemplates (poolName p); MachineConfigsGet (keyOf p);
                          MachineConfigsUpdate (keyOf p)])%list)).
Proof.
  intros Hf Himg Hcv Hblk Hberr Hcc Hsel Hkey Hnd Hall.
  unfold syncImageConfig.
  rewrite (bind_run _ _ _ _ _ (imgLister_Get_found _ _ _ Hf Himg)). cbn [IsNotFound].
  rewrite (bind_run _ _ _ _ _
             (clusterVersionLister_Get_found "version" (logCall (ImageListerGet "cluster") w) cv
                Hf Hcv)).
  cbn [IsNotFound]. rewrite Hblk.
  rewrite bool_decide_eq_false_2 by exact Hberr.
  erewrite bind_run; [|apply ccLister_Get_nofault; exact Hf].
  cbn [ccCache logCall]. rewrite Hcc.
  erewrite bind_run; [|apply icspLister_List_nofault; exact Hf].
  cbv beta iota zeta. rewrite (@is_Some_None_false error).
  cbn [andb IsNotFound icspCache logCall].
  unfold builtInSelector in Hsel. rewrite Hsel.
  erewrite bind_run; [|apply mcpLister_List_nofault; exact Hf].
  cbv beta iota. cbn [mcpCache logCall]. fold (listedPools sel w).
  destruct (syncImagePools_nofault imgcfg blockedRegs cc (icspCache w) keyCalls keyOf rawOf
              (mcStore w) w Hf Hkey (listedPools sel w)
              (logCall PoolsList (logCall ICSPList
                 (logCall (ControllerConfigGet ControllerConfigName)
                    (logCall (ClusterVersionGet "version")
                       (logCall (ImageListerGet "cluster") w))))) Hf Hnd)
    as (w' & Hrun & _ & Htr & Hst & Hrest).
  { intros p Hp. destruct (Hall p Hp) as [Hfresh Hready]. by split. }
  cbn [trace mcStore logCall] in Htr, Hrest.
  exists w'. split; [exact Hrun|]. split; [|split; [exact Hst|split; [exact Hrest|]]].
  - rewrite Htr. rewrite <- !app_assoc. reflexivity.
  - intros p mc Hp Hmc Hraw. specialize (Hst p Hp).
    unfold imageResult in Hst. unfold imageCalls. rewrite Hmc in Hst |- *.
    unfold unchangedByImage, sameVersion in Hst |- *.
    rewrite <- Hraw in Hst |- *. rewrite String.eqb_refl in Hst |- *. cbn [andb] in Hst |- *.
    destruct (String.eqb_spec
                (goIndex (mcAnnotations mc) GeneratedByControllerVersionAnnotationKey)
                versionHash) as [Heq|Hne].
    + split; [tauto|]. split; [|contradiction]. intros _. by rewrite app_nil_r.
    + split; [|split; [contradiction|auto]].
      split; [|contradiction]. intros Hsame. exfalso. apply Hne.
      rewrite Hst in Hsame. injection Hsame as Hsame.
      rewrite <- Hsame. cbn [mcAnnotations imageWrite SetOwnerReferences SetAnnotations].
      unfold goIndex. by rewrite lookup_singleton_eq.
Qed.

(** * Further properties of the controller *)

(** ** Computations that return *)

Section ReturnsWith.
Context (R : relation World) `{!PreOrder R}.

Lemma returnsWith_ret {A} (Q : A -> Prop) a : Q a -> returnsWith Q R (ret a).
Proof. intros Ha w. exists a, w. split; [reflexivity|]. split; [exact Ha | reflexivity]. Qed.

Lemma returnsWith_getWorld : returnsWith (fun _ => True) R getWorld.
Proof. intros w. exists w, w. split; [reflexivity|]. split; [exact I | reflexivity]. Qed.

Lemma returnsWith_modify f : (forall w, R w (f w)) -> returnsWith (fun _ => True) R (modify f).
Proof. intros Hf w. exists tt, (f w). split; [reflexivity|]. split; [exact I | apply Hf]. Qed.

Lemma returnsWith_now : (forall w t, R w (setClock t w)) -> returnsWith (fun _ => True) R now.
Proof. intros Hf w. eexists _, _. split; [reflexivity|]. split; [exact I | apply Hf]. Qed.

Lemma returnsWith_call c :
  (forall w, R w (logCall c w)) -> (forall w fs, R w (setFaults fs w)) ->
  returnsWith (fun _ => True) R (call c).
Proof.
  intros Hlog Hfs w. unfold call.
  destruct (takeFault c (faults w)) as [[e rest]|]; eexists _, _;
    (split; [reflexivity|]); (split; [exact I|]); [|apply Hlog].
  etrans; [apply Hlog | apply Hfs].
Qed.

Lemma returnsWith_bind {A B} (Q1 : A -> Prop) (Q : B -> Prop) (m : M A) (k : A -> M B) :
  returnsWith Q1 R m -> (forall a, Q1 a -> returnsWith Q R (k a)) ->
  returnsWith Q R (bind m k).
Proof.
  intros Hm Hk w. destruct (Hm w) as (a & w1 & Hrun & Ha & H1).
  destruct (Hk a Ha w1) as (b & w2 & Hrun2 & Hb & H2).
  exists b, w2. rewrite (bind_run _ _ _ _ _ Hrun).
  split; [exact Hrun2|]. split; [exact Hb | etrans; eassumption].
Qed.

Lemma returnsWith_weaken {A} (Q Q' : A -> Prop) (m : M A) :
  (forall a, Q a -> Q' a) -> returnsWith Q R m -> returnsWith Q' R m.
Proof.
  intros HQ Hm w. destruct (Hm w) as (a & w' & Hrun & Ha & Hw). eauto 6.
Qed.

Lemma returnsWith_retry {S} (fn : S -> M (S * option error)) :
  (forall s, returnsWith (fun _ => True) R (fn s)) ->
  forall n s lastErr, returnsWith (fun _ => True) R (retryOnConflictN n fn s lastErr).
Proof.
  intros Hfn. induction n as [|n IH]; intros s lastErr; cbn [retryOnConflictN].
  - by apply returnsWith_ret.
  - apply (returnsWith_bind (fun _ => True)); [apply Hfn|]. intros [s' [e|]] _.
    + destruct (IsConflict (Some e)); [apply IH | by apply returnsWith_ret].
    + by apply returnsWith_ret.
Qed.

End ReturnsWith.

#[local] Instance sameArtifacts_preorder : PreOrder sameArtifacts.
Proof.
  split.
  - intros w. split; reflexivity.
  - intros w1 w2 w3 [H1 H1'] [H2 H2']. split; congruence.
Qed.

Ltac artifacts_side := first [ exact _ | intros; split; reflexivity ].
Ltac rw_ret := apply returnsWith_ret; first [ exact _ | exact I | reflexivity ].

Lemma mccrLister_Get_returns (R : relation World) `{!PreOrder R} name :
  (forall w, R w (logCall (CtrCfgListerGet name) w)) -> (forall w fs, R w (setFaults fs w)) ->
  returnsWith listerAnswer R (mccrLister_Get name).
Proof.
  intros Hlog Hfs. unfold mccrLister_Get.
  apply (returnsWith_bind R (fun _ => True)); [by apply returnsWith_call|].
  intros [e|] _; [by apply returnsWith_ret|].
  apply (returnsWith_bind R (fun _ => True)); [apply returnsWith_getWorld; exact _|].
  intros w0 _. destruct (mccrCache w0 !! name); by apply returnsWith_ret.
Qed.

Lemma CtrCfg_UpdateStatus_returns cfg :
  returnsWith (fun _ => True) sameArtifacts (CtrCfg_UpdateStatus cfg).
Proof.
  unfold CtrCfg_UpdateStatus.
  apply (returnsWith_bind _ (fun _ => True));
    [apply returnsWith_call; artifacts_side|].
  intros [e|] _; [rw_ret|].
  apply (returnsWith_bind _ (fun _ => True)); [apply returnsWith_getWorld; artifacts_side|].
  intros w0 _. destruct (mccrStore w0 !! crcName cfg); [|rw_ret].
  apply (returnsWith_bind _ (fun _ => True));
    [apply returnsWith_modify; artifacts_side|].
  intros _ _. rw_ret.
Qed.

Lemma syncStatusAttempt_returns cfg err args u :
  returnsWith (fun _ => True) sameArtifacts (syncStatusAttempt cfg err args u).
Proof.
  unfold syncStatusAttempt.
  apply (returnsWith_bind _ listerAnswer);
    [apply mccrLister_Get_returns; artifacts_side|].
  intros [[newcfg|] [e|]] Hshape; try contradiction; [|rw_ret].
  apply (returnsWith_bind _ (fun _ => True));
    [apply returnsWith_now; artifacts_side|].
  intros t _.
  apply (returnsWith_bind _ (fun _ => True));
    [apply returnsWith_modify; artifacts_side|].
  intros _ _.
  apply (returnsWith_bind _ (fun _ => True)); [apply CtrCfg_UpdateStatus_returns|].
  intros r _. rw_ret.
Qed.

(** X1: whatever the API answers, [syncStatusOnly] does not panic and returns
    the error it was given, never the error of the status update; it leaves
    the machine configs and the config maps as they are. *)
Theorem syncStatusOnly_returns_its_argument (cfg : ContainerRuntimeConfig)
    (err : option error) (args : list string) (w : World) :
  exists w',
    syncStatusOnly cfg err args w = Done err w' /\
    mcStore w' = mcStore w /\ cmStore w' = cmStore w.
Proof.
  assert (Hr : returnsWith (fun r => r = err) sameArtifacts (syncStatusOnly cfg err args)).
  { unfold syncStatusOnly, RetryOnConflict.
    apply (returnsWith_bind _ (fun _ => True)).
    - apply returnsWith_retry; [artifacts_side|]. intros u. apply syncStatusAttempt_returns.
    - intros r _. rw_ret. }
  destruct (Hr w) as (a & w' & Hrun & -> & Hmc & Hcm). eauto.
Qed.

(** ** Finalizers *)

Lemma CtrCfg_Patch_nofault name p w old :
  faults w = [] ->
  mccrStore w !! name = Some old ->
  CtrCfg_Patch name p w =
    Done None (setMccrStore (insert name (applyMergePatch p old)) (logCall (CtrCfgPatch name) w)).
Proof.
  intros Hf Hold. unfold CtrCfg_Patch.
  rewrite (bind_run _ _ _ _ _ (call_nofault _ _ Hf)).
  unfold bind, getWorld. simpl. by rewrite Hold.
Qed.

Lemma app_singleton_neq {A} (l : list A) (x : A) : (l ++ [x])%list <> l.
Proof.
  intros Heq. apply (f_equal length) in Heq. rewrite length_app in Heq. simpl in Heq. lia.
Qed.

Lemma cons_neq {A} (x : A) (l : list A) : l <> x :: l.
Proof. intros Heq. apply (f_equal length) in Heq. simpl in Heq. lia. Qed.

Lemma InSlice_In x l : InSlice x l = true <-> List.In x l.
Proof.
  unfold InSlice. rewrite existsb_exists. split.
  - intros (y & Hy & Heq). apply String.eqb_eq in Heq. by subst.
  - intros Hin. exists x. split; [exact Hin | apply String.eqb_refl].
Qed.

Lemma addFinalizer_nofault cfg mc w c s :
  faults w = [] ->
  mccrCache w !! crcName cfg = Some c ->
  mccrStore w !! crcName cfg = Some s ->
  exists w' s',
    addFinalizerToContainerRuntimeConfig cfg mc w = Done None w' /\
    mccrStore w' = <[crcName cfg := s']> (mccrStore w) /\
    mcStore w' = mcStore w /\ mccrCache w' = mccrCache w /\ faults w' = [] /\
    clock w' = clock w /\
    (List.In (mcName mc) (crcFinalizers c) -> s' = s) /\
    (~ List.In (mcName mc) (crcFinalizers c) ->
       s' = withFinalizers (crcFinalizers c ++ [mcName mc]) s).
Proof.
  intros Hf Hc Hs.
  unfold addFinalizerToContainerRuntimeConfig, RetryOnConflict, updateBackoffSteps.
  destruct (InSlice (mcName mc) (crcFinalizers c)) eqn:Hin.
  - assert (Hrun : addFinalizerAttempt cfg mc tt w
                   = Done (tt, None)
                       (setMccrStore (insert (crcName cfg) s)
                          (logCall (CtrCfgPatch (crcName cfg))
                             (logCall (CtrCfgListerGet (crcName cfg)) w)))).
    { unfold addFinalizerAttempt.
      rewrite (bind_run _ _ _ _ _ (mccrLister_Get_nofault _ _ Hf)). rewrite Hc.
      cbn [IsNotFound]. rewrite Hin. cbn [negb].
      unfold CreateThreeWayJSONMergePatch.
      destruct (decide (crcFinalizers c = crcFinalizers c)) as [_|Hne]; [|contradiction].
      unfold patchContainerRuntimeConfigs.
      by rewrite (bind_run _ _ _ _ _ (CtrCfg_Patch_nofault _ EmptyPatch (logCall (CtrCfgListerGet (crcName cfg)) w) s Hf Hs)). }
    rewrite (bind_run _ _ _ _ _ (retry_first_ok _ _ _ _ _ _ _ Hrun)).
    eexists _, s. split; [reflexivity|].
    cbn [mccrStore setMccrStore mcStore mccrCache faults clock logCall].
    repeat split; auto.
    intros Hnot. exfalso. apply Hnot. by apply InSlice_In.
  - assert (Hrun : addFinalizerAttempt cfg mc tt w
                   = Done (tt, None)
                       (setMccrStore
                          (insert (crcName cfg)
                             (withFinalizers (crcFinalizers c ++ [mcName mc]) s))
                          (logCall (CtrCfgPatch (crcName cfg))
                             (logCall (CtrCfgListerGet (crcName cfg)) w)))).
    { unfold addFinalizerAttempt.
      rewrite (bind_run _ _ _ _ _ (mccrLister_Get_nofault _ _ Hf)). rewrite Hc.
      cbn [IsNotFound]. rewrite Hin. cbn [negb].
      unfold CreateThreeWayJSONMergePatch. cbn [crcFinalizers withFinalizers].
      destruct (decide ((crcFinalizers c ++ [mcName mc])%list = crcFinalizers c)) as [Heq|_];
        [by apply app_singleton_neq in Heq|].
      unfold patchContainerRuntimeConfigs.
      by rewrite (bind_run _ _ _ _ _ (CtrCfg_Patch_nofault _ (ReplaceFinalizers _) (logCall (CtrCfgListerGet (crcName cfg)) w) s Hf Hs)). }
    rewrite (bind_run _ _ _ _ _ (retry_first_ok _ _ _ _ _ _ _ Hrun)).
    eexists _, _. split; [reflexivity|].
    cbn [mccrStore setMccrStore mcStore mccrCache faults clock logCall].
    repeat split; auto.
    intros Hi. apply InSlice_In in Hi. congruence.
Qed.

(** X2: [addFinalizerToContainerRuntimeConfig] is safe against duplicates.
    When the cached object already lists the machine config, nothing is
    patched; otherwise the stored finalizers become the cached ones followed
    by the machine config's name, so a list without duplicates stays without
    duplicates.  An object that is no longer in the cache is left alone and
    nil is returned. *)
Theorem addFinalizer_duplicate_safe (cfg : ContainerRuntimeConfig) (mc : MachineConfig)
    (w : World) :
  faults w = [] ->
  (forall c s,
     mccrCache w !! crcName cfg = Some c ->
     mccrStore w !! crcName cfg = Some s ->
     exists w' s',
       addFinalizerToContainerRuntimeConfig cfg mc w = Done None w' /\
       mccrStore w' !! crcName cfg = Some s' /\
       mcStore w' = mcStore w /\
       (List.In (mcName mc) (crcFinalizers c) -> s' = s) /\
       (~ List.In (mcName mc) (crcFinalizers c) ->
          crcFinalizers s' = (crcFinalizers c ++ [mcName mc])%list) /\
       (List.NoDup (crcFinalizers c) -> List.NoDup (crcFinalizers s) ->
          List.NoDup (crcFinalizers s'))) /\
  (mccrCache w !! crcName cfg = None ->
   exists w',
     addFinalizerToContainerRuntimeConfig cfg mc w = Done None w' /\
     mccrStore w' = mccrStore w /\ mcStore w' = mcStore w).
Proof.
  intros Hf. split.
  - intros c s Hc Hs.
    destruct (addFinalizer_nofault cfg mc w c s Hf Hc Hs)
      as (w' & s' & Hrun & Hst & Hmc & _ & _ & _ & Hin & Hnot).
    exists w', s'. split; [exact Hrun|]. split; [rewrite Hst; apply lookup_insert_eq|].
    split; [exact Hmc|]. split; [exact Hin|]. split.
    + intros Hn. by rewrite (Hnot Hn).
    + intros Hnd Hnds.
      destruct (List.in_dec string_dec (mcName mc) (crcFinalizers c)) as [Hi|Hn].
      * by rewrite (Hin Hi).
      * rewrite (Hnot Hn). cbn [crcFinalizers withFinalizers].
        apply NoDup_ListNoDup, NoDup_app. split; [by apply NoDup_ListNoDup|].
        split; [|apply NoDup_singleton].
        intros x Hx Hx'. apply list_elem_of_singleton in Hx'. subst x.
        apply Hn. by apply list_elem_of_In.
  - intros Hc.
    unfold addFinalizerToContainerRuntimeConfig, RetryOnConflict, updateBackoffSteps.
    assert (Hrun : addFinalizerAttempt cfg mc tt w
                   = Done (tt, None) (logCall (CtrCfgListerGet (crcName cfg)) w)).
    { unfold addFinalizerAttempt.
      rewrite (bind_run _ _ _ _ _ (mccrLister_Get_nofault _ _ Hf)). rewrite Hc. reflexivity. }
    rewrite (bind_run _ _ _ _ _ (retry_first_ok _ _ _ _ _ _ _ Hrun)).
    eexists. split; [reflexivity|]. split; reflexivity.
Qed.

Lemma retry_conflict_then {S} (fn : S -> M (S * option error)) n s lastErr w s' e w' :
  fn s w = Done (s', Some e) w' ->
  IsConflict (Some e) = true ->
  retryOnConflictN (Datatypes.S n) fn s lastErr w = retryOnConflictN n fn s' (Some e) w'.
Proof.
  intros Hfn Hc. cbn [retryOnConflictN]. rewrite (bind_run _ _ _ _ _ Hfn). by rewrite Hc.
Qed.

Lemma popFinalizerAttempt_nofault cfg fins tok rest c s w :
  faults w = [] ->
  fins = tok :: rest ->
  mccrCache w !! crcName cfg = Some c ->
  mccrStore w !! crcName cfg = Some s ->
  crcFinalizers c <> rest ->
  popFinalizerAttempt cfg fins w
  = Done ((rest ++ drop (length fins - 1) fins)%list, None)
      (setMccrStore (insert (crcName cfg) (withFinalizers rest s))
         (logCall (CtrCfgPatch (crcName cfg)) (logCall (CtrCfgListerGet (crcName cfg)) w))).
Proof.
  intros Hf -> Hc Hs Hne. unfold popFinalizerAttempt.
  rewrite (bind_run _ _ _ _ _ (mccrLister_Get_nofault _ _ Hf)). rewrite Hc.
  cbn [IsNotFound]. unfold CreateThreeWayJSONMergePatch. cbn [crcFinalizers withFinalizers].
  destruct (decide (rest = crcFinalizers c)) as [Heq|_]; [by subst|].
  unfold patchContainerRuntimeConfigs.
  by rewrite (bind_run _ _ _ _ _ (CtrCfg_Patch_nofault _ (ReplaceFinalizers _) (logCall (CtrCfgListerGet (crcName cfg)) w) s Hf Hs)).
Qed.

(** X3: without a conflict, [popFinalizerFromContainerRuntimeConfig] removes
    the first finalizer of the object it is given and keeps the others, in
    their order: the stored finalizers become the tail of the list. *)
Theorem popFinalizer_keeps_the_tail (cfg : ContainerRuntimeConfig) (tok : string)
    (rest : list string) (w : World) (c s : ContainerRuntimeConfig) :
  faults w = [] ->
  crcFinalizers cfg = tok :: rest ->
  mccrCache w !! crcName cfg = Some c ->
  crcFinalizers c = crcFinalizers cfg ->
  mccrStore w !! crcName cfg = Some s ->
  exists w',
    popFinalizerFromContainerRuntimeConfig cfg w = Done None w' /\
    mccrStore w' = <[crcName cfg := withFinalizers rest s]> (mccrStore w) /\
    mcStore w' = mcStore w /\
    trace w' = (trace w ++ [CtrCfgListerGet (crcName cfg); CtrCfgPatch (crcName cfg)])%list.
Proof.
  intros Hf Hfin Hc Hsame Hs.
  unfold popFinalizerFromContainerRuntimeConfig, RetryOnConflict, updateBackoffSteps.
  erewrite bind_run.
  2:{ apply retry_first_ok.
      apply (popFinalizerAttempt_nofault cfg _ tok rest c s w Hf Hfin Hc Hs).
      rewrite Hsame, Hfin. intros Heq. symmetry in Heq. by apply cons_neq in Heq. }
  eexists. split; [reflexivity|]. cbn [mccrStore setMccrStore mcStore trace logCall].
  rewrite <- !app_assoc. repeat split; reflexivity.
Qed.

Lemma call_miss c w : takeFault c (faults w) = None -> call c w = Done None (logCall c w).
Proof. intros Hf. unfold call. by rewrite Hf. Qed.

Lemma call_hit c w e rest :
  takeFault c (faults w) = Some (e, rest) ->
  call c w = Done (Some e) (setFaults rest (logCall c w)).
Proof. intros Hf. unfold call. by rewrite Hf. Qed.

Lemma mccrLister_Get_miss name w :
  takeFault (CtrCfgListerGet name) (faults w) = None ->
  mccrLister_Get name w =
    Done (match mccrCache w !! name with
          | Some cfg => (Some cfg, None)
          | None => (None, Some (notFound "containerruntimeconfigs" name))
          end) (logCall (CtrCfgListerGet name) w).
Proof.
  intros Hf. unfold mccrLister_Get. rewrite (bind_run _ _ _ _ _ (call_miss _ _ Hf)).
  unfold bind, getWorld. simpl. by destruct (mccrCache w !! name).
Qed.

Lemma CtrCfg_Patch_hit name p w e rest :
  takeFault (CtrCfgPatch name) (faults w) = Some (e, rest) ->
  CtrCfg_Patch name p w = Done (Some e) (setFaults rest (logCall (CtrCfgPatch name) w)).
Proof.
  intros Hf. unfold CtrCfg_Patch. by rewrite (bind_run _ _ _ _ _ (call_hit _ _ _ _ Hf)).
Qed.

Lemma drop_last {A} (l : list A) (x : A) :
  list.last l = Some x -> drop (length l - 1) l = [x].
Proof.
  intros Hl. apply last_Some in Hl as [l' ->].
  rewrite length_app. simpl. replace (length l' + 1 - 1)%nat with (length l') by lia.
  by rewrite drop_app_length.
Qed.

(** X4: after a conflict on the patch, the retry reads the finalizers that
    the first attempt has shifted in place ([append(s[:0], s[1:]...)] writes
    into the array of the object it was given).  With finalizers
    [a :: b :: rest], the second attempt stores [rest] followed by the last
    finalizer, and not the tail [b :: rest]. *)
Theorem popFinalizer_retry_reads_shifted_list (cfg : ContainerRuntimeConfig)
    (a b lastTok m : string) (rest : list string) (w : World) (c s : ContainerRuntimeConfig) :
  faults w = [(CtrCfgPatch (crcName cfg), StatusError ReasonConflict m)] ->
  crcFinalizers cfg = a :: b :: rest ->
  list.last (b :: rest) = Some lastTok ->
  mccrCache w !! crcName cfg = Some c ->
  crcFinalizers c = crcFinalizers cfg ->
  mccrStore w !! crcName cfg = Some s ->
  exists w',
    popFinalizerFromContainerRuntimeConfig cfg w = Done None w' /\
    mccrStore w' !! crcName cfg = Some (withFinalizers (rest ++ [lastTok]) s) /\
    trace w' = (trace w ++ [CtrCfgListerGet (crcName cfg); CtrCfgPatch (crcName cfg);
                            CtrCfgListerGet (crcName cfg); CtrCfgPatch (crcName cfg)])%list.
Proof.
  intros Hf Hfin Hlast Hc Hsame Hs.
  set (w1 := setFaults [] (logCall (CtrCfgPatch (crcName cfg))
                             (logCall (CtrCfgListerGet (crcName cfg)) w))).
  assert (Hdrop : drop (length (a :: b :: rest) - 1) (a :: b :: rest) = [lastTok]).
  { apply drop_last. rewrite last_cons, Hlast. reflexivity. }
  assert (H1 : popFinalizerAttempt cfg (a :: b :: rest) w
               = Done ((b :: rest ++ [lastTok])%list,
                       Some (StatusError ReasonConflict m)) w1).
  { unfold popFinalizerAttempt.
    rewrite (bind_run _ _ _ _ _ (mccrLister_Get_miss (crcName cfg) w
                                   ltac:(rewrite Hf; cbn [takeFault];
                                         by destruct (decide _)))).
    rewrite Hc. cbn [IsNotFound].
    unfold CreateThreeWayJSONMergePatch. cbn [crcFinalizers withFinalizers].
    rewrite Hsame, Hfin.
    destruct (decide (b :: rest = a :: b :: rest)) as [Heq|_]; [by apply cons_neq in Heq|].
    unfold patchContainerRuntimeConfigs.
    rewrite (bind_run _ _ _ _ _
               (CtrCfg_Patch_hit (crcName cfg) _ (logCall (CtrCfgListerGet (crcName cfg)) w)
                  (StatusError ReasonConflict m) []
                  ltac:(cbn [faults logCall]; rewrite Hf; cbn [takeFault];
                        by destruct (decide _)))).
    unfold ret. rewrite Hdrop. reflexivity. }
  assert (H2 : popFinalizerAttempt cfg (b :: rest ++ [lastTok])%list w1
               = Done (((rest ++ [lastTok]) ++
                        drop (length (b :: rest ++ [lastTok]) - 1) (b :: rest ++ [lastTok]))%list,
                       None)
                   (setMccrStore (insert (crcName cfg) (withFinalizers (rest ++ [lastTok]) s))
                      (logCall (CtrCfgPatch (crcName cfg))
                         (logCall (CtrCfgListerGet (crcName cfg)) w1)))).
  { apply (popFinalizerAttempt_nofault cfg _ b (rest ++ [lastTok])%list c s w1);
      [reflexivity | reflexivity | exact Hc | exact Hs |].
    rewrite Hsame, Hfin. intros Heq. apply (f_equal length) in Heq.
    rewrite length_app in Heq. simpl in Heq. lia. }
  unfold popFinalizerFromContainerRuntimeConfig, RetryOnConflict, updateBackoffSteps.
  rewrite Hfin.
  erewrite bind_run.
  2:{ rewrite (retry_conflict_then _ _ _ _ _ _ _ _ H1 eq_refl).
      apply (retry_first_ok _ _ _ _ _ _ _ H2). }
  eexists. split; [reflexivity|]. cbn [mccrStore setMccrStore trace logCall setFaults w1].
  split; [apply lookup_insert_eq|]. rewrite <- !app_assoc. reflexivity.
Qed.

(** ** The history of conditions *)

(** X5: recording a condition never shortens the list and lengthens it by
    one at most; every entry but the last one stays what it was, and the
    last entry is the condition recorded. *)
Theorem recordCondition_keeps_history (conds : list ContainerRuntimeConfigCondition)
    (c : ContainerRuntimeConfigCondition) :
  (length conds <= length (recordCondition conds c) <= S (length conds))%nat /\
  (forall i, (i < length conds - 1)%nat -> recordCondition conds c !! i = conds !! i) /\
  list.last (recordCondition conds c) = Some c.
Proof.
  split; [|split; [|apply recordCondition_last]].
  - unfold recordCondition. destruct (list.last conds) as [l|].
    + destruct (negb _); [rewrite length_app; simpl; lia|].
      destruct (String.eqb _ _); [rewrite length_insert|]; lia.
    + rewrite length_app. simpl. lia.
  - intros i Hi. unfold recordCondition. destruct (list.last conds) as [l|].
    + destruct (negb _); [apply lookup_app_l; lia|].
      destruct (String.eqb _ _); [|reflexivity].
      apply list_lookup_insert_ne. lia.
    + apply lookup_app_l. lia.
Qed.

(** ** Keys *)

Lemma Contains_slash_cons c s :
  Contains (String c s) "/" = Ascii.eqb c "/" || Contains s "/".
Proof.
  cbn [Contains String.prefix].
  destruct (ascii_dec "/" c) as [<-|Hne].
  - by destruct s.
  - rewrite (proj2 (Ascii.eqb_neq c "/")) by congruence. reflexivity.
Qed.

Lemma Split_no_slash s : Contains s "/" = false -> Split "/" s = [s].
Proof.
  induction s as [|c s IH]; [reflexivity|].
  rewrite Contains_slash_cons. intros Hc. apply orb_false_elim in Hc as [Hc Hs].
  cbn [Split]. rewrite Hc, (IH Hs). reflexivity.
Qed.

Lemma Split_append a b :
  Contains a "/" = false ->
  Split "/" (a ++ "/" ++ b)%string = a :: Split "/" b.
Proof.
  induction a as [|c a IH]; intros Hc.
  - reflexivity.
  - rewrite Contains_slash_cons in Hc. apply orb_false_elim in Hc as [Hc Ha].
    change (String c a ++ "/" ++ b)%string with (String c (a ++ "/" ++ b))%string.
    cbn [Split]. rewrite Hc, (IH Ha). reflexivity.
Qed.

(** X6: the key under which an object is enqueued leads the pass back to
    the object: [SplitMetaNamespaceKey] undoes [MetaNamespaceKeyFunc] for a
    namespace and a name without a slash, so with the marker present the
    pass for the key of a cached object whose name has no slash is the pass
    over that object.  The one exception is an object named like the
    start-up key, which the pass never fetches. *)
Theorem enqueue_key_round_trip (cfg : ContainerRuntimeConfig) (w : World) :
  (forall ns name, Contains ns "/" = false -> Contains name "/" = false ->
     SplitMetaNamespaceKey (MetaNamespaceKeyFunc ns name) = (ns, name, None)) /\
  (forall cm,
     Contains (crcName cfg) "/" = false ->
     faults w = [] ->
     cmStore w !! configMapName = Some cm ->
     mccrCache w !! crcName cfg = Some cfg ->
     (crcName cfg <> "force-sync-on-upgrade" ->
        syncContainerRuntimeConfig ctrl (enqueueKey cfg) w
        = syncFetched ctrl (enqueueKey cfg) cfg
            (logCall (CtrCfgListerGet (crcName cfg)) (logCall (ConfigMapsGet configMapName) w))) /\
     (crcName cfg = "force-sync-on-upgrade" ->
        syncContainerRuntimeConfig ctrl (enqueueKey cfg) w
        = Done None (logCall (ConfigMapsGet configMapName) w))).
Proof.
  assert (Hrt : forall ns name, Contains ns "/" = false -> Contains name "/" = false ->
            SplitMetaNamespaceKey (MetaNamespaceKeyFunc ns name) = (ns, name, None)).
  { intros ns name Hns Hname. unfold MetaNamespaceKeyFunc, SplitMetaNamespaceKey.
    destruct ns as [|c ns'].
    - simpl. rewrite (Split_no_slash _ Hname). reflexivity.
    - cbn [String.length Nat.ltb Nat.leb].
      rewrite (Split_append _ _ Hns), (Split_no_slash _ Hname). reflexivity. }
  split; [exact Hrt|].
  intros cm Hname Hf Hcm Hc. split.
  - intros Hne. apply (sync_fetches (enqueueKey cfg) "" (crcName cfg) cfg cm w Hf Hcm).
    + apply String.eqb_neq. exact Hne.
    + apply (Hrt "" (crcName cfg) eq_refl Hname).
    + exact Hc.
  - intros Heq. unfold syncContainerRuntimeConfig.
    rewrite (bind_run _ _ _ _ _ (createSeccomp_marker w cm Hf Hcm)).
    unfold enqueueKey, MetaNamespaceKeyFunc. simpl. rewrite Heq. reflexivity.
Qed.

(** X7: a pass for a key whose object is not in the cache returns nil after
    the one read, and the handler forgets the key; a key that does not split
    into a namespace and a name is returned as an error before any read of
    an object. *)
Theorem sync_absent_object_or_bad_key (key : string) (cm : ConfigMap) (w : World) (q : Queue) :
  faults w = [] ->
  cmStore w !! configMapName = Some cm ->
  String.eqb key "force-sync-on-upgrade" = false ->
  (forall ns name,
     SplitMetaNamespaceKey key = (ns, name, None) ->
     mccrCache w !! name = None ->
     syncContainerRuntimeConfig ctrl key w
     = Done None (logCall (CtrCfgListerGet name) (logCall (ConfigMapsGet configMapName) w)) /\
     processNextWorkItem ctrl key q w
     = Done (Forget key q)
         (logCall (CtrCfgListerGet name) (logCall (ConfigMapsGet configMapName) w))) /\
  (forall ns name e,
     SplitMetaNamespaceKey key = (ns, name, Some e) ->
     syncContainerRuntimeConfig ctrl key w
     = Done (Some e) (logCall (ConfigMapsGet configMapName) w)).
Proof.
  intros Hf Hcm Hkey. split.
  - intros ns name Hsplit Hc.
    assert (Hrun : syncContainerRuntimeConfig ctrl key w
                   = Done None (logCall (CtrCfgListerGet name)
                                  (logCall (ConfigMapsGet configMapName) w))).
    { unfold syncContainerRuntimeConfig.
      rewrite (bind_run _ _ _ _ _ (createSeccomp_marker w cm Hf Hcm)).
      rewrite Hkey, Hsplit.
      erewrite bind_run; [|apply mccrLister_Get_nofault; exact Hf].
      cbn [mccrCache logCall]. rewrite Hc. reflexivity. }
    split; [exact Hrun|].
    unfold processNextWorkItem. rewrite (bind_run _ _ _ _ _ Hrun). reflexivity.
  - intros ns name e Hsplit. unfold syncContainerRuntimeConfig.
    rewrite (bind_run _ _ _ _ _ (createSeccomp_marker w cm Hf Hcm)).
    rewrite Hkey, Hsplit. reflexivity.
Qed.

(** ** What makes an update enqueue the object *)

(** X8: an update is enqueued when the spec changed or when a deletion
    timestamp appears or disappears.  Between two objects without deletion
    timestamp, what the controller writes itself (status, annotations,
    finalizers) is not enqueued; and as the timestamps are compared as
    pointers, two objects that both have one are enqueued unless they share
    the pointer. *)
Theorem update_enqueues_on_spec_or_deletion (samePointer : bool)
    (old new : ContainerRuntimeConfig) :
  (crcDeletionTimestamp old = None -> crcDeletionTimestamp new = None ->
     (updateContainerRuntimeConfig samePointer old new = None <->
      crcPoolSelector old = crcPoolSelector new /\ crcSpec old = crcSpec new)) /\
  (crcDeletionTimestamp old = None ->
     forall obs conds annotations finalizers,
       updateContainerRuntimeConfig samePointer old (withStatus obs conds old) = None /\
       updateContainerRuntimeConfig samePointer old (withAnnotations annotations old) = None /\
       updateContainerRuntimeConfig samePointer old (withFinalizers finalizers old) = None) /\
  (crcDeletionTimestamp old = None -> is_Some (crcDeletionTimestamp new) ->
     updateContainerRuntimeConfig samePointer old new = Some (enqueueKey new)) /\
  (is_Some (crcDeletionTimestamp old) -> is_Some (crcDeletionTimestamp new) ->
     samePointer = false ->
     updateContainerRuntimeConfig samePointer old new = Some (enqueueKey new)).
Proof.
  assert (Hsame : crcDeletionTimestamp old = None -> crcDeletionTimestamp new = None ->
            (updateContainerRuntimeConfig samePointer old new = None <->
             crcPoolSelector old = crcPoolSelector new /\ crcSpec old = crcSpec new)).
  { intros Ho Hn. unfold updateContainerRuntimeConfig, ctrConfigTriggerObjectChange.
    rewrite Ho, Hn.
    destruct (bool_decide_reflect
                ((crcPoolSelector old, crcSpec old) = (crcPoolSelector new, crcSpec new)))
      as [Heq|Hne]; cbn [negb].
    - split; [intros _; by injection Heq | reflexivity].
    - split; [discriminate | intros [H1 H2]; exfalso; apply Hne; congruence]. }
  split; [exact Hsame|]. split; [|split].
  - intros Ho obs conds annotations finalizers.
    unfold updateContainerRuntimeConfig, ctrConfigTriggerObjectChange.
    cbn [crcDeletionTimestamp crcPoolSelector crcSpec withStatus withAnnotations withFinalizers].
    rewrite Ho. rewrite bool_decide_eq_true_2 by reflexivity. auto.
  - intros Ho [t Hn]. unfold updateContainerRuntimeConfig, ctrConfigTriggerObjectChange.
    rewrite Ho, Hn. reflexivity.
  - intros [t Ho] [t' Hn] ->. unfold updateContainerRuntimeConfig, ctrConfigTriggerObjectChange.
    rewrite Ho, Hn. reflexivity.
Qed.

(** ** The seccomp machine configs, once *)

#[local] Instance keepsMachineConfigs_preorder : PreOrder keepsMachineConfigs.
Proof.
  split.
  - intros w. unfold keepsMachineConfigs. reflexivity.
  - intros w1 w2 w3 H1 H2. unfold keepsMachineConfigs in *. by etrans.
Qed.

#[local] Instance keepsConfigMaps_preorder : PreOrder keepsConfigMaps.
Proof.
  split.
  - intros w. unfold keepsConfigMaps. reflexivity.
  - intros w1 w2 w3 H1 H2. unfold keepsConfigMaps in *. by etrans.
Qed.

Ltac keeps_side :=
  first [ exact _
        | intros; unfold keepsMachineConfigs, keepsConfigMaps; reflexivity ].

Ltac keeps_step :=
  lazymatch goal with
  | |- steps _ (ret _) => apply steps_ret; keeps_side
  | |- steps _ getWorld => apply steps_getWorld; keeps_side
  | |- steps _ (modify _) => apply steps_modify; keeps_side
  | |- steps _ (call _) => apply steps_call; keeps_side
  | |- steps _ (RetryOnConflict _ _) => apply steps_retry; [keeps_side | intros]
  | |- steps _ (bind _ _) => apply steps_bind; [keeps_side | | intros]
  | |- steps _ (match ?x with _ => _ end) => destruct x
  end.

Lemma MachineConfigs_Create_keeps mc : steps keepsMachineConfigs (MachineConfigs_Create mc).
Proof.
  intros w. unfold MachineConfigs_Create, bind, call, getWorld, modify, ret, keepsMachineConfigs.
  destruct (takeFault _ (faults w)) as [[e rest]|]; simpl; [reflexivity|].
  destruct (mcStore w !! mcName mc) eqn:Hl; simpl; [reflexivity|].
  by apply insert_subseteq.
Qed.

Lemma ConfigMaps_Create_keeps cm : steps keepsConfigMaps (ConfigMaps_Create cm).
Proof.
  intros w. unfold ConfigMaps_Create, bind, call, getWorld, modify, ret, keepsConfigMaps.
  destruct (takeFault _ (faults w)) as [[e rest]|]; simpl; [reflexivity|].
  destruct (cmStore w !! cmName cm) eqn:Hl; simpl; [reflexivity|].
  by apply insert_subseteq.
Qed.

Lemma createSeccompForPools_keeps pools :
  steps keepsMachineConfigs (createSeccompForPools pools) /\
  steps keepsConfigMaps (createSeccompForPools pools).
Proof.
  induction pools as [|pool rest [IH1 IH2]]; cbn [createSeccompForPools].
  - split; keeps_step.
  - split; unfold MachineConfigs_Get;
      repeat first [ exact IH1 | exact IH2 | apply MachineConfigs_Create_keeps | keeps_step ].
    all: intros w; unfold MachineConfigs_Create, bind, call, getWorld, modify, ret, keepsConfigMaps;
      destruct (takeFault _ (faults w)) as [[e' rest']|]; simpl; [reflexivity|];
      destruct (mcStore w !! _); reflexivity.
Qed.

Lemma bind_inv {A B} (m : M A) (k : A -> M B) w b w' :
  bind m k w = Done b w' -> exists a w1, m w = Done a w1 /\ k a w1 = Done b w'.
Proof.
  unfold bind. destruct (m w) as [a w1|w1]; [eauto | discriminate].
Qed.

Lemma ConfigMaps_Get_found name w cm w0 :
  ConfigMaps_Get name w = Done (cm, None) w0 -> cmStore w0 !! name = Some cm.
Proof.
  unfold ConfigMaps_Get, bind, call, getWorld, ret.
  destruct (takeFault _ (faults w)) as [[e rest]|]; simpl; [discriminate|].
  destruct (cmStore w !! name) eqn:Hl; [|discriminate].
  intros [= <- <-]. exact Hl.
Qed.

Lemma ConfigMaps_Create_done cm w w' :
  ConfigMaps_Create cm w = Done None w' -> cmStore w' !! cmName cm = Some cm.
Proof.
  unfold ConfigMaps_Create, bind, call, getWorld, modify, ret.
  destruct (takeFault _ (faults w)) as [[e rest]|]; simpl; [discriminate|].
  destruct (cmStore w !! cmName cm); [discriminate|].
  intros [= <-]. simpl. apply lookup_insert_eq.
Qed.

Lemma createSeccompForPools_createsOnly pools : emits createsOnly (createSeccompForPools pools).
Proof.
  induction pools as [|pool rest IH]; cbn [createSeccompForPools].
  - trace_step.
  - unfold MachineConfigs_Get, MachineConfigs_Create. trace_steps; first [exact IH | exact I].
Qed.

(** X9: [createSeccompUseDefaultMC] does its work once.  Without the
    marker and without failure it returns nil and leaves the marker and,
    under the key of every pool that the lister returns, a machine config:
    the one that was there or the one built for the pool; nothing else is
    new.  When it returns nil the marker config map is in the store, so that
    a later call without failure only reads the marker; and whatever happens
    it creates and never updates or deletes: the machine configs and the
    config maps that were there are still there, unchanged. *)
Theorem createSeccomp_once (w : World) :
  (forall w',
     createSeccompUseDefaultMC ctrl w = Done None w' ->
     (exists cm, cmStore w' !! configMapName = Some cm) /\
     (forall w2, faults w2 = [] -> cmStore w' ⊆ cmStore w2 ->
        createSeccompUseDefaultMC ctrl w2 = Done None (logCall (ConfigMapsGet configMapName) w2))) /\
  mcStore w ⊆ mcStore (finalWorld (createSeccompUseDefaultMC ctrl w)) /\
  cmStore w ⊆ cmStore (finalWorld (createSeccompUseDefaultMC ctrl w)) /\
  appends createsOnly w (finalWorld (createSeccompUseDefaultMC ctrl w)) /\
  (forall sel raw,
     faults w = [] ->
     cmStore w !! configMapName = None ->
     LabelSelectorAsSelector builtInSelector = (sel, None) ->
     jsonMarshal (createNewIgnition createDefaultSeccompUseDefaultWhenEmptyFile) = (raw, None) ->
     List.Forall (seccompBuildable raw) (listedPools sel w) ->
     exists w1,
       createSeccompUseDefaultMC ctrl w = Done None w1 /\
       seccompEnsured ctrl raw (listedPools sel w) w w1 /\
       mccrCache w1 = mccrCache w /\ mccrStore w1 = mccrStore w).
Proof.
  assert (Hmarker : forall w', createSeccompUseDefaultMC ctrl w = Done None w' ->
            exists cm, cmStore w' !! configMapName = Some cm).
  { intros w'. unfold createSeccompUseDefaultMC. intros Hrun.
    apply bind_inv in Hrun as ([cm err] & w0 & Hget & Hk).
    destruct err as [e|].
    - assert (Hs : bool_decide (is_Some (Some e)) = true) by (apply bool_decide_eq_true; eauto).
      rewrite Hs in Hk. cbn [andb] in Hk.
      destruct (IsNotFound (Some e)); cbn [negb] in Hk; [|discriminate Hk].
      destruct (LabelSelectorAsSelector _) as [sel [e1|]]; [discriminate Hk|].
      apply bind_inv in Hk as ([pools err1] & w1 & _ & Hk).
      destruct err1 as [e1|]; [discriminate Hk|].
      apply bind_inv in Hk as (r & w2 & _ & Hk).
      destruct r as [e2|]; [discriminate Hk|].
      apply bind_inv in Hk as (err3 & w3 & Hcreate & Hk).
      destruct err3 as [e3|]; [discriminate Hk|].
      injection Hk as <-. eexists. apply (ConfigMaps_Create_done _ _ _ Hcreate).
    - rewrite (@is_Some_None_false error) in Hk. cbn [andb IsNotFound negb] in Hk.
      injection Hk as <-. exists cm. apply (ConfigMaps_Get_found _ _ _ _ Hget). }
  split; [|split; [|split; [|split]]].
  - intros w' Hrun. destruct (Hmarker w' Hrun) as [cm Hcm]. split; [eauto|].
    intros w2 Hf Hsub. apply (createSeccomp_marker w2 cm Hf).
    by eapply lookup_weaken.
  - assert (Hk : steps keepsMachineConfigs (createSeccompUseDefaultMC ctrl)).
    { unfold createSeccompUseDefaultMC, ConfigMaps_Get, mcpLister_List.
      repeat first [ apply createSeccompForPools_keeps | keeps_step ].
      intros w0. unfold ConfigMaps_Create, bind, call, getWorld, modify, ret, keepsMachineConfigs.
      destruct (takeFault _ (faults w0)) as [[e' rest']|]; simpl; [reflexivity|].
      destruct (cmStore w0 !! _); reflexivity. }
    apply Hk.
  - assert (Hk : steps keepsConfigMaps (createSeccompUseDefaultMC ctrl)).
    { unfold createSeccompUseDefaultMC, ConfigMaps_Get, mcpLister_List.
      repeat first [ apply createSeccompForPools_keeps | apply ConfigMaps_Create_keeps
                   | keeps_step ]. }
    apply Hk.
  - assert (Hk : emits createsOnly (createSeccompUseDefaultMC ctrl)).
    { unfold createSeccompUseDefaultMC, ConfigMaps_Get, ConfigMaps_Create, mcpLister_List.
      repeat first [ apply createSeccompForPools_createsOnly | trace_step ]; exact I. }
    apply Hk.
  - intros sel raw Hf Hnone Hsel Hraw Hbuild.
    destruct (createSeccomp_creates sel raw w Hf Hnone Hsel Hraw Hbuild)
      as (w1 & Hrun & _ & Hca & Hst & _ & Hens).
    exists w1. auto.
Qed.

(** ** The image pass *)

#[local] Instance keepsNames_preorder : PreOrder keepsNames.
Proof.
  split.
  - intros w k Hk. exact Hk.
  - intros w1 w2 w3 H1 H2 k Hk. apply H2, H1, Hk.
Qed.

Ltac names_side :=
  first [ exact _ | intros; intros ? ?; assumption ].

Ltac names_step :=
  lazymatch goal with
  | |- steps _ (ret _) => apply steps_ret; names_side
  | |- steps _ panic => apply steps_panic; names_side
  | |- steps _ getWorld => apply steps_getWorld; names_side
  | |- steps _ (modify _) => apply steps_modify; names_side
  | |- steps _ (call _) => apply steps_call; names_side
  | |- steps _ (RetryOnConflict _ _) => apply steps_retry; [names_side | intros]
  | |- steps _ (bind _ _) => apply steps_bind; [names_side | | intros]
  | |- steps _ (match ?x with _ => _ end) => destruct x
  end.

Lemma MachineConfigs_Create_keepsNames mc : steps keepsNames (MachineConfigs_Create mc).
Proof.
  intros w. unfold MachineConfigs_Create, bind, call, getWorld, modify, ret.
  destruct (takeFault _ (faults w)) as [[e rest]|]; simpl; [by intros ? ?|].
  destruct (mcStore w !! mcName mc) eqn:Hl; simpl; [by intros ? ?|].
  intros k Hk. simpl. rewrite lookup_insert. by case_decide.
Qed.

Lemma MachineConfigs_Update_keepsNames mc : steps keepsNames (MachineConfigs_Update mc).
Proof.
  intros w. unfold MachineConfigs_Update, bind, call, getWorld, modify, ret.
  destruct (takeFault _ (faults w)) as [[e rest]|]; simpl; [by intros ? ?|].
  destruct (mcStore w !! mcName mc) eqn:Hl; simpl; [|by intros ? ?].
  intros k Hk. simpl. rewrite lookup_insert. by case_decide.
Qed.

Lemma generateOriginal_emits_any P cc role :
  P (RenderTemplates role) -> emits P (generateOriginalContainerRuntimeConfigs ctrl cc role).
Proof.
  intros HP. unfold generateOriginalContainerRuntimeConfigs. trace_steps; exact HP.
Qed.

Lemma registriesConfigIgnition_emits cc role ins blk alw srch icsp :
  emits imageCall (registriesConfigIgnition ctrl cc role ins blk alw srch icsp).
Proof.
  unfold registriesConfigIgnition, updateOriginal.
  repeat first [ apply generateOriginal_emits_any; split; reflexivity | trace_step ].
Qed.

Lemma registriesConfigIgnition_keepsNames cc role ins blk alw srch icsp :
  steps keepsNames (registriesConfigIgnition ctrl cc role ins blk alw srch icsp).
Proof.
  unfold registriesConfigIgnition, updateOriginal, generateOriginalContainerRuntimeConfigs.
  repeat names_step.
Qed.

Lemma syncImagePools_emits imgcfg blk cc icsp pools :
  (forall pool, emits imageCall (getManagedKeyReg pool)) ->
  emits imageCall (syncImagePools ctrl imgcfg blk cc icsp pools).
Proof.
  intros Hkey. induction pools as [|pool rest IH]; cbn [syncImagePools].
  - trace_step.
  - unfold syncImageAttempt, MachineConfigs_Get, MachineConfigs_Create, MachineConfigs_Update.
    repeat first [ exact IH | apply Hkey | apply registriesConfigIgnition_emits | trace_step ];
      split; reflexivity.
Qed.

Lemma syncImagePools_keepsNames imgcfg blk cc icsp pools :
  (forall pool, steps keepsNames (getManagedKeyReg pool)) ->
  steps keepsNames (syncImagePools ctrl imgcfg blk cc icsp pools).
Proof.
  intros Hkey. induction pools as [|pool rest IH]; cbn [syncImagePools].
  - names_step.
  - unfold syncImageAttempt, MachineConfigs_Get.
    repeat first [ exact IH | apply Hkey | apply registriesConfigIgnition_keepsNames
                 | apply MachineConfigs_Create_keepsNames
                 | apply MachineConfigs_Update_keepsNames | names_step ].
Qed.

(** X10: the image pass has no cascade delete, provided the helper that
    finds the key of a pool has none: when that helper makes no call that
    deletes a machine config or is on a ContainerRuntimeConfig, and leaves
    every name of the store in place, then whatever the cluster and the
    failures the pass never deletes a machine config (every name in the
    store is still there afterwards) and never reads or writes a
    ContainerRuntimeConfig. *)
Theorem syncImageConfig_never_deletes (key : string) (w : World) :
  (forall pool, emits imageCall (getManagedKeyReg pool)) ->
  (forall pool, steps keepsNames (getManagedKeyReg pool)) ->
  appends imageCall w (finalWorld (syncImageConfig ctrl key w)) /\
  (forall k, is_Some (mcStore w !! k) ->
             is_Some (mcStore (finalWorld (syncImageConfig ctrl key w)) !! k)).
Proof.
  intros Hcalls Hnames. split.
  - assert (Hk : emits imageCall (syncImageConfig ctrl key)).
    { unfold syncImageConfig. unfold_clients.
      repeat first [ apply (syncImagePools_emits _ _ _ _ _ Hcalls) | trace_step ];
        split; reflexivity. }
    apply Hk.
  - assert (Hk : steps keepsNames (syncImageConfig ctrl key)).
    { unfold syncImageConfig. unfold_clients.
      repeat first [ apply (syncImagePools_keepsNames _ _ _ _ _ Hnames) | names_step ]. }
    apply Hk.
Qed.

Lemma imgLister_Get_nofault name w :
  faults w = [] ->
  imgLister_Get name w =
    Done (match imgCache w !! name with
          | Some i => (Some i, None)
          | None => (None, Some (notFound "images" name))
          end) (logCall (ImageListerGet name) w).
Proof.
  intros Hf. unfold imgLister_Get. rewrite (bind_run _ _ _ _ _ (call_nofault _ _ Hf)).
  unfold bind, getWorld. simpl. by destruct (imgCache w !! name).
Qed.

Lemma clusterVersionLister_Get_nofault name w :
  faults w = [] ->
  clusterVersionLister_Get name w =
    Done (match cvCache w !! name with
          | Some cv => (Some cv, None)
          | None => (None, Some (notFound "clusterversions" name))
          end) (logCall (ClusterVersionGet name) w).
Proof.
  intros Hf. unfold clusterVersionLister_Get.
  rewrite (bind_run _ _ _ _ _ (call_nofault _ _ Hf)).
  unfold bind, getWorld. simpl. by destruct (cvCache w !! name).
Qed.

(** X11: without the Image [cluster] or without the ClusterVersion
    [version] the image pass has nothing to do: it returns nil after the
    reads, and the handler forgets the key.  When the release image cannot
    be parsed, the pass returns [errParsingReference] before it renders or
    writes anything. *)
Theorem syncImageConfig_nothing_to_do (key : string) (w : World) (q : Queue) :
  faults w = [] ->
  (imgCache w !! "cluster" = None ->
     syncImageConfig ctrl key w = Done None (logCall (ImageListerGet "cluster") w) /\
     processNextImgWorkItem ctrl key q w
     = Done (Forget key q) (logCall (ImageListerGet "cluster") w)) /\
  (forall imgcfg, imgCache w !! "cluster" = Some imgcfg -> cvCache w !! "version" = None ->
     syncImageConfig ctrl key w
     = Done None (logCall (ClusterVersionGet "version") (logCall (ImageListerGet "cluster") w))) /\
  (forall imgcfg cv blocked,
     imgCache w !! "cluster" = Some imgcfg -> cvCache w !! "version" = Some cv ->
     getValidBlockedRegistries (cvDesiredImage cv) imgcfg = (blocked, Some errParsingReference) ->
     syncImageConfig ctrl key w
     = Done (Some errParsingReference)
         (logCall (ClusterVersionGet "version") (logCall (ImageListerGet "cluster") w))).
Proof.
  intros Hf. split; [|split].
  - intros Himg.
    assert (Hrun : syncImageConfig ctrl key w = Done None (logCall (ImageListerGet "cluster") w)).
    { unfold syncImageConfig. rewrite (bind_run _ _ _ _ _ (imgLister_Get_nofault _ _ Hf)).
      rewrite Himg. reflexivity. }
    split; [exact Hrun|]. unfold processNextImgWorkItem.
    rewrite (bind_run _ _ _ _ _ Hrun). reflexivity.
  - intros imgcfg Himg Hcv. unfold syncImageConfig.
    rewrite (bind_run _ _ _ _ _ (imgLister_Get_nofault _ _ Hf)). rewrite Himg.
    cbn [IsNotFound].
    erewrite bind_run; [|apply clusterVersionLister_Get_nofault; exact Hf].
    cbn [cvCache logCall]. rewrite Hcv. reflexivity.
  - intros imgcfg cv blocked Himg Hcv Hparse. unfold syncImageConfig.
    rewrite (bind_run _ _ _ _ _ (imgLister_Get_nofault _ _ Hf)). rewrite Himg.
    cbn [IsNotFound].
    erewrite bind_run; [|apply clusterVersionLister_Get_nofault; exact Hf].
    cbn [cvCache logCall]. rewrite Hcv. cbn [IsNotFound]. rewrite Hparse.
    rewrite bool_decide_eq_true_2 by reflexivity. reflexivity.
Qed.

(** ** Retries on conflict *)

Lemma takeFault_repeat_other c c' e k :
  c' <> c -> takeFault c (repeat (c', e) k) = None.
Proof.
  intros Hne. induction k as [|k IH]; [reflexivity|].
  cbn [repeat takeFault]. destruct (decide (c' = c)); [contradiction|]. by rewrite IH.
Qed.

Lemma CtrCfg_Update_hit cfg w e rest :
  takeFault (CtrCfgUpdate (crcName cfg)) (faults w) = Some (e, rest) ->
  CtrCfg_Update cfg w = Done (Some e) (setFaults rest (logCall (CtrCfgUpdate (crcName cfg)) w)).
Proof.
  intros Hf. unfold CtrCfg_Update. by rewrite (bind_run _ _ _ _ _ (call_hit _ _ _ _ Hf)).
Qed.

Lemma addAnnotationAttempt_conflict cfg ak av c m k w :
  faults w = repeat (CtrCfgUpdate (crcName cfg), StatusError ReasonConflict m) (S k) ->
  mccrCache w !! crcName cfg = Some c ->
  crcName c = crcName cfg ->
  addAnnotationAttempt cfg ak av tt w
  = Done (tt, Some (StatusError ReasonConflict m))
      (setFaults (repeat (CtrCfgUpdate (crcName cfg), StatusError ReasonConflict m) k)
         (logCall (CtrCfgUpdate (crcName cfg))
            (setMccrCache (insert (crcName cfg) (withAnnotations {[ ak := av ]} c))
               (logCall (CtrCfgListerGet (crcName cfg)) w)))).
Proof.
  intros Hf Hc Hn. unfold addAnnotationAttempt.
  rewrite (bind_run _ _ _ _ _ (mccrLister_Get_miss (crcName cfg) w
             ltac:(rewrite Hf; by apply takeFault_repeat_other))).
  rewrite Hc. unfold bind at 1. unfold modify at 1.
  erewrite bind_run.
  2:{ apply (CtrCfg_Update_hit _ _ (StatusError ReasonConflict m)
               (repeat (CtrCfgUpdate (crcName cfg), StatusError ReasonConflict m) k)).
      cbn [faults setMccrCache logCall crcName withAnnotations]. rewrite Hf, Hn.
      cbn [repeat takeFault].
      destruct (decide (CtrCfgUpdate (crcName cfg) = CtrCfgUpdate (crcName cfg)));
        [reflexivity | contradiction]. }
  cbn [crcName withAnnotations]. rewrite Hn. reflexivity.
Qed.

Lemma addAnnotation_retries cfg ak av m :
  forall n k w c lastErr,
    (n <= k)%nat ->
    faults w = repeat (CtrCfgUpdate (crcName cfg), StatusError ReasonConflict m) k ->
    mccrCache w !! crcName cfg = Some c ->
    crcName c = crcName cfg ->
    exists w',
      retryOnConflictN n (addAnnotationAttempt cfg ak av) tt lastErr w
      = Done (tt, match n with O => lastErr | S _ => Some (StatusError ReasonConflict m) end) w' /\
      mccrStore w' = mccrStore w /\
      faults w' = repeat (CtrCfgUpdate (crcName cfg), StatusError ReasonConflict m) (k - n) /\
      trace w' = (trace w ++ annotationAttempts n (crcName cfg))%list.
Proof.
  induction n as [|n IH]; intros k w c lastErr Hle Hf Hc Hn.
  - exists w. cbn [retryOnConflictN annotationAttempts]. rewrite Nat.sub_0_r, app_nil_r.
    repeat split; auto.
  - destruct k as [|k]; [lia|].
    pose proof (addAnnotationAttempt_conflict cfg ak av c m k w Hf Hc Hn) as Hrun.
    rewrite (retry_conflict_then _ _ _ _ _ _ _ _ Hrun eq_refl).
    match type of Hrun with
    | _ = Done _ ?w1 =>
        destruct (IH k w1 (withAnnotations {[ ak := av ]} c)
                    (Some (StatusError ReasonConflict m)))
          as (w' & Hrun' & Hst & Hf' & Htr);
          [lia | reflexivity
          | cbn [mccrCache setFaults logCall setMccrCache]; apply lookup_insert_eq
          | exact Hn |]
    end.
    exists w'. split.
    + rewrite Hrun'. by destruct n.
    + split; [rewrite Hst; reflexivity|]. split; [exact Hf'|].
      rewrite Htr. cbn [trace setFaults logCall setMccrCache annotationAttempts].
      rewrite <- !app_assoc. reflexivity.
Qed.

(** X12: the retries of a conflicting write are bounded: when the update of
    the annotation keeps meeting a conflict, [addAnnotation] makes exactly
    five attempts, each one a read and an update, then gives up and returns
    the conflict, with the stored object as it was. *)
Theorem addAnnotation_gives_up_after_five (cfg : ContainerRuntimeConfig) (ak av m : string)
    (k : nat) (w : World) (c : ContainerRuntimeConfig) :
  (5 <= k)%nat ->
  faults w = repeat (CtrCfgUpdate (crcName cfg), StatusError ReasonConflict m) k ->
  mccrCache w !! crcName cfg = Some c ->
  crcName c = crcName cfg ->
  exists w',
    addAnnotation cfg ak av w = Done (Some (StatusError ReasonConflict m)) w' /\
    mccrStore w' = mccrStore w /\
    trace w' = (trace w ++ annotationAttempts 5 (crcName cfg))%list.
Proof.
  intros Hk Hf Hc Hn.
  destruct (addAnnotation_retries cfg ak av m 5 k w c None Hk Hf Hc Hn)
    as (w' & Hrun & Hst & _ & Htr).
  exists w'. unfold addAnnotation, RetryOnConflict, updateBackoffSteps.
  rewrite (bind_run _ _ _ _ _ Hrun). split; [reflexivity|]. split; [exact Hst | exact Htr].
Qed.

(** ** Cleaning up the machine configs of another version *)

Lemma MachineConfigs_Delete_nofault name w mc :
  faults w = [] ->
  mcStore w !! name = Some mc ->
  MachineConfigs_Delete name w =
    Done None (setMcStore (delete name) (logCall (MachineConfigsDelete name) w)).
Proof.
  intros Hf Hmc. unfold MachineConfigs_Delete.
  rewrite (bind_run _ _ _ _ _ (call_nofault _ _ Hf)).
  unfold bind, getWorld. simpl. by rewrite Hmc.
Qed.

Lemma MachineConfigs_List_nofault w :
  faults w = [] ->
  MachineConfigs_List w =
    Done (List.map snd (map_to_list (mcStore w)), None) (logCall MachineConfigsList w).
Proof.
  intros Hf. unfold MachineConfigs_List.
  rewrite (bind_run _ _ _ _ _ (call_nofault _ _ Hf)). reflexivity.
Qed.

Lemma cleanUpLoop_step mc rest :
  cleanUpLoop (mc :: rest)
  = if degraded mc
    then bind (MachineConfigs_Delete (mcName mc))
           (fun err => match err with
                       | Some e =>
                           ret (Some (Errorf ["error deleting degraded containerruntime machine config ";
                                              mcName mc; ": "; errorString e]))
                       | None => cleanUpLoop rest
                       end)
    else cleanUpLoop rest.
Proof.
  cbn [cleanUpLoop]. unfold degraded.
  destruct (Contains (mcName mc) "generated-containerruntime"); cbn [negb andb]; [|reflexivity].
  destruct (String.eqb _ versionHash); reflexivity.
Qed.

Lemma cleanUpLoop_nofault :
  forall items w,
    faults w = [] ->
    List.NoDup (List.map mcName items) ->
    (forall mc, List.In mc items -> mcStore w !! mcName mc = Some mc) ->
    exists w',
      cleanUpLoop items w = Done None w' /\
      faults w' = [] /\ mccrStore w' = mccrStore w /\ mccrCache w' = mccrCache w /\
      clock w' = clock w /\
      (forall mc, List.In mc items -> degraded mc = true -> mcStore w' !! mcName mc = None) /\
      (forall k, (forall mc, List.In mc items -> degraded mc = true -> mcName mc <> k) ->
                 mcStore w' !! k = mcStore w !! k) /\
      appends (fun c => isDelete c = true) w w'.
Proof.
  induction items as [|mc rest IH]; intros w Hf Hnd Hin.
  - exists w. cbn [cleanUpLoop]. unfold ret. repeat split; auto; try contradiction.
    reflexivity.
  - rewrite cleanUpLoop_step. cbn [List.map] in Hnd. apply List.NoDup_cons_iff in Hnd as [Hnot Hnd].
    destruct (degraded mc) eqn:Hdeg.
    + rewrite (bind_run _ _ _ _ _
                 (MachineConfigs_Delete_nofault (mcName mc) w mc Hf (Hin mc (or_introl eq_refl)))).
      destruct (IH (setMcStore (delete (mcName mc)) (logCall (MachineConfigsDelete (mcName mc)) w)))
        as (w' & Hrun & Hf' & Hst & Hca & Hclk & Ha & Hb & Htr); [exact Hf | exact Hnd | |].
      { intros mc' Hmc'. cbn [mcStore setMcStore logCall].
        rewrite lookup_delete_ne; [apply Hin; by right|].
        intros Heq. apply Hnot. rewrite Heq. by apply List.in_map. }
      exists w'. split; [exact Hrun|]. split; [exact Hf'|].
      split; [exact Hst|]. split; [exact Hca|]. split; [exact Hclk|]. split; [|split].
      * intros mc' [<-|Hmc'] Hd; [|by apply Ha].
        rewrite Hb.
        -- cbn [mcStore setMcStore logCall]. apply lookup_delete_eq.
        -- intros mc'' Hmc'' _ Heq. apply Hnot. rewrite <- Heq. by apply List.in_map.
      * intros k Hk. rewrite Hb.
        -- cbn [mcStore setMcStore logCall]. apply lookup_delete_ne.
           apply (Hk mc (or_introl eq_refl) Hdeg).
        -- intros mc' Hmc'. apply Hk. by right.
      * etrans; [|exact Htr]. etrans; [apply (appends_logCall _ (MachineConfigsDelete (mcName mc)))|].
        { reflexivity. }
        apply appends_same. reflexivity.
    + destruct (IH w) as (w' & Hrun & Hf' & Hst & Hca & Hclk & Ha & Hb & Htr);
        [exact Hf | exact Hnd | intros mc' Hmc'; apply Hin; by right |].
      exists w'. split; [exact Hrun|]. split; [exact Hf'|].
      split; [exact Hst|]. split; [exact Hca|]. split; [exact Hclk|]. split; [|split].
      * intros mc' [<-|Hmc'] Hd; [congruence | by apply Ha].
      * intros k Hk. apply Hb. intros mc' Hmc'. apply Hk. by right.
      * exact Htr.
Qed.

(** X13: in a store that holds every machine config under its name, and
    without failure, [cleanUpDuplicatedMC] deletes exactly the machine
    configs whose name holds [generated-containerruntime] and whose version
    annotation is not the controller's: those are gone, every other machine
    config is as it was, and no ContainerRuntimeConfig is touched. *)
Theorem cleanUpDuplicatedMC_deletes_the_degraded (w : World) :
  faults w = [] ->
  storedByName (mcStore w) ->
  exists w',
    cleanUpDuplicatedMC w = Done None w' /\
    (forall k, mcStore w' !! k =
               match mcStore w !! k with
               | Some mc => if degraded mc then None else Some mc
               | None => None
               end) /\
    mccrStore w' = mccrStore w /\ mccrCache w' = mccrCache w /\ faults w' = [].
Proof.
  intros Hf Hnames. unfold cleanUpDuplicatedMC.
  rewrite (bind_run _ _ _ _ _ (MachineConfigs_List_nofault w Hf)).
  set (items := List.map snd (map_to_list (mcStore w))).
  assert (Hitems : forall mc, List.In mc items <-> mcStore w !! mcName mc = Some mc).
  { intros mc. unfold items. rewrite List.in_map_iff. split.
    - intros ([k mc'] & Heq & Hkv). simpl in Heq. subst mc'.
      apply list_elem_of_In, elem_of_map_to_list in Hkv.
      rewrite (Hnames _ _ Hkv). exact Hkv.
    - intros Hmc. exists (mcName mc, mc). split; [reflexivity|].
      by apply list_elem_of_In, elem_of_map_to_list. }
  assert (Hnd : List.NoDup (List.map mcName items)).
  { unfold items. rewrite List.map_map.
    rewrite (List.map_ext_in _ fst).
    - apply NoDup_ListNoDup, NoDup_fst_map_to_list.
    - intros [k mc] Hkv. simpl. apply list_elem_of_In, elem_of_map_to_list in Hkv.
      by apply Hnames. }
  destruct (cleanUpLoop_nofault items (logCall MachineConfigsList w) Hf Hnd)
    as (w' & Hrun & Hf' & Hst & Hca & _ & Ha & Hb & _).
  { intros mc Hmc. by apply Hitems. }
  exists w'. split; [exact Hrun|]. split; [|auto].
  intros k. destruct (mcStore w !! k) as [mc|] eqn:Hk.
  - pose proof (Hnames _ _ Hk) as Hname. subst k.
    destruct (degraded mc) eqn:Hdeg.
    + apply Ha; [by apply Hitems | exact Hdeg].
    + rewrite Hb; [exact Hk|].
      intros mc' Hmc' Hd Heq. apply Hitems in Hmc'. rewrite Heq in Hmc'. congruence.
  - rewrite Hb; [exact Hk|].
    intros mc' Hmc' _ Heq. apply Hitems in Hmc'. rewrite Heq in Hmc'. congruence.
Qed.

(** ** A second pass *)

Lemma syncPool_skips key cfg cc pool managedKey mc lastCond w w0 :
  getManagedKeyCtrCfg pool cfg w = Done (managedKey, None) w0 ->
  faults w0 = [] ->
  mcStore w0 !! managedKey = Some mc ->
  crcGeneration cfg <= crcObservedGeneration cfg ->
  list.last (crcConditions cfg) = Some lastCond ->
  condType lastCond = ContainerRuntimeConfigSuccess ->
  goIndex (mcAnnotations mc) GeneratedByControllerVersionAnnotationKey = versionHash ->
  syncPool ctrl key cfg cc pool w = Done Continue (logCall (MachineConfigsGet managedKey) w0).
Proof.
  intros Hkey Hf Hmc Hle Hl Hty Hv. unfold syncPool.
  rewrite (bind_run _ _ _ _ _ Hkey). cbv beta iota.
  rewrite (bind_run _ _ _ _ _ (MachineConfigs_Get_nofault _ _ Hf)). rewrite Hmc.
  rewrite (@is_Some_None_false error). cbn [andb IsNotFound negb].
  unfold seenAndSucceeded. cbn [negb andb].
  destruct (Z.leb_spec (crcGeneration cfg) (crcObservedGeneration cfg)) as [_|Hgt]; [|lia].
  rewrite Hl, Hty, Hv, String.eqb_refl. rewrite bool_decide_eq_true_2 by reflexivity.
  reflexivity.
Qed.

Lemma fetched_frame keyCalls keyOf pools w :
  faults (fetched keyCalls keyOf pools w) = faults w /\
  mcStore (fetched keyCalls keyOf pools w) = mcStore w /\
  cmStore (fetched keyCalls keyOf pools w) = cmStore w /\
  mccrCache (fetched keyCalls keyOf pools w) = mccrCache w /\
  mccrStore (fetched keyCalls keyOf pools w) = mccrStore w /\
  clock (fetched keyCalls keyOf pools w) = clock w /\
  trace (fetched keyCalls keyOf pools w)
  = (trace w ++ concat (List.map (fun p => keyCalls p ++ [MachineConfigsGet (keyOf p)]) pools))%list.
Proof.
  revert w. induction pools as [|p ps IH]; intros w.
  - cbn. rewrite app_nil_r. repeat split.
  - rewrite List.map_cons, List.concat_cons. cbn [fetched fold_left].
    destruct (IH (logCall (MachineConfigsGet (keyOf p)) (logCalls (keyCalls p) w)))
      as (H1 & H2 & H3 & H4 & H5 & H6 & H7).
    destruct (logCalls_frame (keyCalls p) w) as (G1 & G2 & G3 & G4 & G5 & G6 & G7).
    unfold fetched in *. rewrite H1, H2, H3, H4, H5, H6, H7. cbn [faults mcStore cmStore mccrCache mccrStore clock trace logCall].
    rewrite G1, G2, G3, G4, G5, G6, G7.
    rewrite <- !app_assoc. repeat split.
Qed.

Lemma forPools_all_skip key cfg cc keyCalls keyOf lastCond :
  (forall p w', faults w' = [] ->
     getManagedKeyCtrCfg p cfg w' = Done (keyOf p, None) (logCalls (keyCalls p) w')) ->
  crcGeneration cfg <= crcObservedGeneration cfg ->
  list.last (crcConditions cfg) = Some lastCond ->
  condType lastCond = ContainerRuntimeConfigSuccess ->
  forall pools w,
    faults w = [] ->
    (forall p, List.In p pools ->
       exists mc, mcStore w !! keyOf p = Some mc /\
                  goIndex (mcAnnotations mc) GeneratedByControllerVersionAnnotationKey = versionHash) ->
    forPools (syncPool ctrl key cfg cc) pools w = Done None (fetched keyCalls keyOf pools w).
Proof.
  intros Hkey Hle Hl Hty. induction pools as [|p ps IH]; intros w Hf Hall; [reflexivity|].
  cbn [forPools fetched fold_left].
  destruct (Hall p (or_introl eq_refl)) as (mc & Hmc & Hv).
  destruct (logCalls_frame (keyCalls p) w) as (G1 & G2 & _).
  rewrite (bind_run _ _ _ _ _
             (syncPool_skips key cfg cc p (keyOf p) mc lastCond w _ (Hkey p w Hf)
                ltac:(by rewrite G1) ltac:(by rewrite G2) Hle Hl Hty Hv)).
  apply IH; [cbn [faults logCall]; by rewrite G1|].
  intros p' Hp'. cbn [mcStore logCall]. rewrite G2. apply Hall. by right.
Qed.

Lemma cleanUpLoop_nothing items w :
  (forall mc, List.In mc items -> degraded mc = false) ->
  cleanUpLoop items w = Done None w.
Proof.
  induction items as [|mc rest IH]; intros Hall; [reflexivity|].
  rewrite cleanUpLoop_step, (Hall mc (or_introl eq_refl)).
  apply IH. intros mc' Hmc'. apply Hall. by right.
Qed.

(** X14: a pass over an object that is already applied is idempotent,
    provided the helper that finds the key of a pool only reads: it returns
    the key after its calls [keyCalls] and leaves the world as it was.  When
    the generation is observed, the last condition is a success, every
    selected pool has its machine config with the controller's version and
    the store holds no machine config to clean up, the pass returns nil,
    fetches each machine config once and writes nothing but the status: the
    machine configs and the config maps are as they were, and so are the
    finalizers and the annotations of the stored object. *)
Theorem second_pass_writes_only_the_status (key ns name : string)
    (cfg : ContainerRuntimeConfig) (cm : ConfigMap) (cc : ControllerConfig)
    (sel : Selector) (p : MachineConfigPool) (ps : list MachineConfigPool)
    (keyCalls : MachineConfigPool -> list Call) (keyOf : MachineConfigPool -> string)
    (lastCond : ContainerRuntimeConfigCondition) (w : World) :
  faults w = [] ->
  cmStore w !! configMapName = Some cm ->
  String.eqb key "force-sync-on-upgrade" = false ->
  SplitMetaNamespaceKey key = (ns, name, None) ->
  mccrCache w !! name = Some cfg ->
  crcName cfg = name ->
  crcDeletionTimestamp cfg = None ->
  validateUserContainerRuntimeConfig cfg = None ->
  ccCache w !! ControllerConfigName = Some cc ->
  LabelSelectorAsSelector (crcPoolSelector cfg) = (sel, None) ->
  selectPools sel (mcpCache w) = p :: ps ->
  (forall p' w', faults w' = [] ->
     getManagedKeyCtrCfg p' cfg w' = Done (keyOf p', None) (logCalls (keyCalls p') w')) ->
  (forall p', List.In p' (p :: ps) ->
     exists mc, mcStore w !! keyOf p' = Some mc /\
                goIndex (mcAnnotations mc) GeneratedByControllerVersionAnnotationKey = versionHash) ->
  crcGeneration cfg <= crcObservedGeneration cfg ->
  list.last (crcConditions cfg) = Some lastCond ->
  condType lastCond = ContainerRuntimeConfigSuccess ->
  (forall k mc, mcStore w !! k = Some mc -> degraded mc = false) ->
  exists w',
    syncContainerRuntimeConfig ctrl key w = Done None w' /\
    mcStore w' = mcStore w /\ cmStore w' = cmStore w /\
    trace w' = (trace w ++ [ConfigMapsGet configMapName; CtrCfgListerGet name;
                            ControllerConfigGet ControllerConfigName; PoolsList]
                        ++ concat (List.map (fun p' => keyCalls p' ++ [MachineConfigsGet (keyOf p')])
                                     (p :: ps))
                        ++ [MachineConfigsList; CtrCfgListerGet name; CtrCfgUpdateStatus name])%list /\
    (forall s, mccrStore w !! name = Some s ->
       exists s', mccrStore w' !! name = Some s' /\
                  crcFinalizers s' = crcFinalizers s /\ crcAnnotations s' = crcAnnotations s /\
                  crcGeneration s' = crcGeneration s).
Proof.
  intros Hf Hcm Hk Hsplit Hc Hname Hdel Hval Hcc Hsel Hps Hkey Hall Hle Hl Hty Hclean.
  rewrite (sync_fetches key ns name cfg cm w Hf Hcm Hk Hsplit Hc).
  unfold syncFetched. rewrite Hdel, Hval.
  erewrite bind_run; [|apply ccLister_Get_nofault; exact Hf].
  cbn [ccCache logCall]. rewrite Hcc.
  erewrite bind_run; [|eapply getPools_nofault; [exact Hf | exact Hsel | exact Hps]].
  cbv beta iota.
  erewrite bind_run; [|apply (forPools_all_skip key cfg cc keyCalls keyOf lastCond Hkey Hle Hl Hty);
                        [exact Hf | exact Hall]].
  cbv beta iota.
  match goal with |- context [fetched keyCalls keyOf (p :: ps) ?w0] =>
    set (w1 := fetched keyCalls keyOf (p :: ps) w0) end.
  destruct (fetched_frame keyCalls keyOf (p :: ps)
              (logCall PoolsList (logCall (ControllerConfigGet ControllerConfigName)
                 (logCall (CtrCfgListerGet name) (logCall (ConfigMapsGet configMapName) w)))))
    as (Hf1 & Hmc1 & Hcm1 & Hca1 & Hst1 & Hclk1 & Htr1).
  fold w1 in Hf1, Hmc1, Hcm1, Hca1, Hst1, Hclk1, Htr1.
  cbn [faults mcStore cmStore mccrCache mccrStore clock trace logCall] in Hf1, Hmc1, Hcm1, Hca1, Hst1, Hclk1, Htr1.
  assert (Hclean1 : cleanUpDuplicatedMC w1 = Done None (logCall MachineConfigsList w1)).
  { unfold cleanUpDuplicatedMC.
    rewrite (bind_run _ _ _ _ _ (MachineConfigs_List_nofault w1 ltac:(congruence))).
    apply cleanUpLoop_nothing. intros mc Hmc. apply List.in_map_iff in Hmc as ([k mc'] & Heq & Hkv).
    simpl in Heq. subst mc'. apply list_elem_of_In, elem_of_map_to_list in Hkv.
    rewrite Hmc1 in Hkv. by apply (Hclean k). }
  rewrite (bind_run _ _ _ _ _ Hclean1).
  destruct (syncStatusOnly_nofault cfg None [] (logCall MachineConfigsList w1) cfg)
    as (w' & Hrun & _ & _ & Hst' & Hmc' & Hcm' & _ & _ & _ & Htr').
  { cbn [faults logCall]. congruence. }
  { cbn [mccrCache logCall]. rewrite Hca1, Hname. exact Hc. }
  { reflexivity. }
  exists w'. split; [exact Hrun|].
  cbn [mcStore cmStore mccrStore trace logCall] in Hst', Hmc', Hcm', Htr'.
  split; [congruence|]. split; [congruence|]. split.
  - rewrite Htr', Htr1, Hname. rewrite <- !app_assoc. reflexivity.
  - intros s Hs. rewrite Hst', Hst1, Hname, Hs. eexists. split; [apply lookup_insert_eq|].
    repeat split.
Qed.

(** ** Rendering the defaults *)

Lemma findFirst_spec find :
  forall gmcs found lastErr,
    match findFirst find gmcs found lastErr with
    | (f, None) =>
        (f = found /\ lastErr = None /\ gmcs = []) \/
        (exists pre g post,
           gmcs = (pre ++ g :: post)%list /\ find g = (f, None) /\
           List.Forall (fun g' => is_Some (snd (find g'))) pre)
    | (f, Some e) =>
        f = found /\
        List.Forall (fun g' => is_Some (snd (find g'))) gmcs /\
        ((gmcs = [] /\ lastErr = Some e) \/
         (exists g, list.last gmcs = Some g /\ snd (find g) = Some e))
    end.
Proof.
  induction gmcs as [|g rest IH]; intros found lastErr.
  - cbn [findFirst]. destruct lastErr as [e|]; [|by left].
    split; [reflexivity|]. split; [constructor | by left].
  - cbn [findFirst]. destruct (find g) as [config [e|]] eqn:Hg.
    + specialize (IH found (Some e)).
      destruct (findFirst find rest found (Some e)) as [f [e'|]].
      * destruct IH as (Hf & Hall & Hlast). split; [exact Hf|]. split.
        -- constructor; [rewrite Hg; simpl; eauto | exact Hall].
        -- right. destruct Hlast as [[-> [= <-]] | (g' & Hl & He)].
           ++ exists g. split; [reflexivity | by rewrite Hg].
           ++ exists g'. split; [|exact He]. rewrite last_cons, Hl. reflexivity.
      * destruct IH as [(_ & Hne & _) | (pre & g' & post & -> & Hfind & Hall)]; [discriminate|].
        right. exists (g :: pre), g', post. split; [reflexivity|]. split; [exact Hfind|].
        constructor; [rewrite Hg; simpl; eauto | exact Hall].
    + right. exists [], g, rest. split; [reflexivity|]. split; [exact Hg | constructor].
Qed.

Lemma findFirst_from_nil find gmcs :
  match findFirst find gmcs None None with
  | (f, None) => (gmcs = [] /\ f = None) \/ firstFound find gmcs f
  | (f, Some e) => f = None /\ gmcs <> [] /\ foundNowhere find gmcs
  end.
Proof.
  pose proof (findFirst_spec find gmcs None None) as Hs.
  destruct (findFirst find gmcs None None) as [f [e|]].
  - destruct Hs as (Hf & Hall & Hlast). split; [exact Hf|]. split; [|exact Hall].
    destruct Hlast as [[_ Hd] | (g & Hl & _)]; [discriminate Hd|].
    intros ->. discriminate Hl.
  - destruct Hs as [(Hf & _ & Hnil) | Hfound]; [by left | by right].
Qed.

Lemma firstFound_not_nowhere find gmcs f : firstFound find gmcs f -> ~ foundNowhere find gmcs.
Proof.
  intros (pre & g & post & -> & Hfind & _) Hall. unfold foundNowhere in Hall.
  apply List.Forall_app in Hall as [_ Hall]. apply List.Forall_cons_iff in Hall as [[x Hx] _].
  rewrite Hfind in Hx. discriminate Hx.
Qed.

(** X15: each of the three default files is taken from the first rendered
    config in which it is found, and [generateOriginalContainerRuntimeConfigs]
    fails exactly when a file is found in none of the rendered configs.
    With an empty rendering nothing is searched: it returns three nil files
    and no error, and [mergeConfigChanges] on such a nil file panics. *)
Theorem generateOriginal_first_found (cc : ControllerConfig) (role : string)
    (gmcs : list MachineConfig) (w : World) :
  takeFault (RenderTemplates role) (faults w) = None ->
  GenerateMachineConfigsForRole cc role (templatesDir ctrl) = (gmcs, None) ->
  exists st rg pl err,
    generateOriginalContainerRuntimeConfigs ctrl cc role w
    = Done (st, rg, pl, err) (logCall (RenderTemplates role) w) /\
    (gmcs = [] ->
       st = None /\ rg = None /\ pl = None /\ err = None /\
       forall cfg update w', mergeConfigChanges st cfg update w' = Panicked w') /\
    (gmcs <> [] -> err = None ->
       firstFound findStorageConfig gmcs st /\ firstFound findRegistriesConfig gmcs rg /\
       firstFound findPolicyJSON gmcs pl) /\
    (is_Some err <->
       gmcs <> [] /\
       (foundNowhere findStorageConfig gmcs \/ foundNowhere findRegistriesConfig gmcs \/
        foundNowhere findPolicyJSON gmcs)).
Proof.
  intros Hf Hgen. unfold generateOriginalContainerRuntimeConfigs.
  rewrite (bind_run _ _ _ _ _ (call_miss _ _ Hf)). rewrite Hgen.
  pose proof (findFirst_from_nil findStorageConfig gmcs) as Hs.
  pose proof (findFirst_from_nil findRegistriesConfig gmcs) as Hr.
  pose proof (findFirst_from_nil findPolicyJSON gmcs) as Hp.
  destruct (findFirst findStorageConfig gmcs None None) as [st [es|]];
    [destruct Hs as (_ & Hne & Hs); destruct (findFirst findRegistriesConfig gmcs None None) as [rg [er|]];
       destruct (findFirst findPolicyJSON gmcs None None) as [pl [ep|]];
       (eexists _, _, _, _; split; [reflexivity|]);
       (split; [intros Hnil; contradiction|]);
       (split; [intros _ Hd; discriminate Hd|]);
       (split; [intros _; auto | intros _; eauto])|].
  destruct (findFirst findRegistriesConfig gmcs None None) as [rg [er|]];
    [destruct Hr as (_ & Hne & Hr); destruct (findFirst findPolicyJSON gmcs None None) as [pl [ep|]];
       (eexists _, _, _, _; split; [reflexivity|]);
       (split; [intros Hnil; contradiction|]);
       (split; [intros _ Hd; discriminate Hd|]);
       (split; [intros _; auto | intros _; eauto])|].
  destruct (findFirst findPolicyJSON gmcs None None) as [pl [ep|]];
    [destruct Hp as (_ & Hne & Hp);
       (eexists _, _, _, _; split; [reflexivity|]);
       (split; [intros Hnil; contradiction|]);
       (split; [intros _ Hd; discriminate Hd|]);
       (split; [intros _; auto | intros _; eauto])|].
  eexists _, _, _, _. split; [reflexivity|]. split; [|split].
  - intros Hnil.
    destruct Hs as [[_ ->] | Hx]; [|destruct Hx as (pre & g & post & Heq & _); subst gmcs; by destruct pre].
    destruct Hr as [[_ ->] | Hx]; [|destruct Hx as (pre & g & post & Heq & _); subst gmcs; by destruct pre].
    destruct Hp as [[_ ->] | Hx]; [|destruct Hx as (pre & g & post & Heq & _); subst gmcs; by destruct pre].
    repeat split; reflexivity.
  - intros Hne _.
    destruct Hs as [[Hnil _] | Hs]; [contradiction|].
    destruct Hr as [[Hnil _] | Hr]; [contradiction|].
    destruct Hp as [[Hnil _] | Hp]; [contradiction|]. auto.
  - split; [intros [x Hx]; discriminate Hx|].
    intros (Hne & Hno). exfalso.
    destruct Hs as [[Hnil _] | Hs]; [contradiction|].
    destruct Hr as [[Hnil _] | Hr]; [contradiction|].
    destruct Hp as [[Hnil _] | Hp]; [contradiction|].
    destruct Hno as [Hno | [Hno | Hno]].
    + exact (firstFound_not_nowhere _ _ _ Hs Hno).
    + exact (firstFound_not_nowhere _ _ _ Hr Hno).
    + exact (firstFound_not_nowhere _ _ _ Hp Hno).
Qed.

(** ** What the loop over the pools writes *)

Section McFrame.
Context (R : relation World) `{!PreOrder R}.
Hypothesis Hframe : forall w w', mcStore w' = mcStore w -> R w w'.

Ltac mcframe_side := first [ exact _ | intros; apply Hframe; reflexivity ].

Ltac mcframe_step :=
  lazymatch goal with
  | |- steps _ (ret _) => apply steps_ret; mcframe_side
  | |- steps _ panic => apply steps_panic; mcframe_side
  | |- steps _ getWorld => apply steps_getWorld; mcframe_side
  | |- steps _ now => apply steps_now; mcframe_side
  | |- steps _ (modify _) => apply steps_modify; mcframe_side
  | |- steps _ (call _) => apply steps_call; mcframe_side
  | |- steps _ (RetryOnConflict _ _) => apply steps_retry; [mcframe_side | intros]
  | |- steps _ (bind _ _) => apply steps_bind; [mcframe_side | | intros]
  | |- steps _ (match ?x with _ => _ end) => destruct x
  end.

Lemma syncStatusOnly_mcframe cfg err args : steps R (syncStatusOnly cfg err args).
Proof.
  unfold syncStatusOnly. repeat mcframe_step. unfold syncStatusAttempt. unfold_clients.
  repeat mcframe_step.
Qed.

Lemma addAnnotation_mcframe cfg k v : steps R (addAnnotation cfg k v).
Proof.
  unfold addAnnotation. repeat mcframe_step. unfold addAnnotationAttempt. unfold_clients.
  repeat mcframe_step.
Qed.

Lemma addFinalizer_mcframe cfg mc : steps R (addFinalizerToContainerRuntimeConfig cfg mc).
Proof.
  unfold addFinalizerToContainerRuntimeConfig. repeat mcframe_step.
  unfold addFinalizerAttempt. unfold_clients. repeat mcframe_step.
Qed.

Lemma generateOriginal_mcframe cc role :
  steps R (generateOriginalContainerRuntimeConfigs ctrl cc role).
Proof. unfold generateOriginalContainerRuntimeConfigs. repeat mcframe_step. Qed.

Lemma mergeConfigChanges_mcframe f cfg u : steps R (mergeConfigChanges f cfg u).
Proof. unfold mergeConfigChanges. repeat mcframe_step. Qed.

Lemma MachineConfigs_Get_mcframe name : steps R (MachineConfigs_Get name).
Proof. unfold MachineConfigs_Get. repeat mcframe_step. Qed.

End McFrame.

#[local] Instance writesStamped_preorder owners : PreOrder (writesStamped owners).
Proof.
  split.
  - intros w. split; [reflexivity | intros k mc Hk; by left].
  - intros w1 w2 w3 [Hn1 Ho1] [Hn2 Ho2]. split; [by etrans|].
    intros k mc Hk. destruct (Ho2 k mc Hk) as [H2 | H2]; [|by right].
    exact (Ho1 k mc H2).
Qed.

Lemma writesStamped_frame owners w w' : mcStore w' = mcStore w -> writesStamped owners w w'.
Proof.
  intros He. split.
  - intros k Hk. by rewrite He.
  - intros k mc Hk. left. by rewrite <- He.
Qed.

Lemma writesStamped_insert owners mc w w1 :
  stamped owners mc -> mcStore w1 = mcStore w ->
  writesStamped owners w (setMcStore (insert (mcName mc) mc) w1).
Proof.
  intros Ho He. split.
  - intros k Hk. simpl. rewrite lookup_insert, He. by case_decide.
  - intros k mc' Hk. simpl in Hk. rewrite lookup_insert, He in Hk. case_decide as Hd.
    + injection Hk as <-. right. by split.
    + by left.
Qed.

Lemma MachineConfigs_Create_stamped owners mc :
  stamped owners mc -> steps (writesStamped owners) (MachineConfigs_Create mc).
Proof.
  intros Ho w. unfold MachineConfigs_Create, bind, call, getWorld, modify, ret.
  destruct (takeFault _ (faults w)) as [[e rest]|]; simpl;
    [by apply writesStamped_frame|].
  destruct (mcStore w !! mcName mc) eqn:Hl; simpl; [by apply writesStamped_frame|].
  by apply writesStamped_insert.
Qed.

Lemma MachineConfigs_Update_stamped owners mc :
  stamped owners mc -> steps (writesStamped owners) (MachineConfigs_Update mc).
Proof.
  intros Ho w. unfold MachineConfigs_Update, bind, call, getWorld, modify, ret.
  destruct (takeFault _ (faults w)) as [[e rest]|]; simpl;
    [by apply writesStamped_frame|].
  destruct (mcStore w !! mcName mc) eqn:Hl; simpl; [|by apply writesStamped_frame].
  by apply writesStamped_insert.
Qed.

Ltac owned_side := first [ exact _ | intros; apply writesStamped_frame; reflexivity ].

Ltac owned_step :=
  lazymatch goal with
  | |- steps _ (ret _) => apply steps_ret; owned_side
  | |- steps _ panic => apply steps_panic; owned_side
  | |- steps _ getWorld => apply steps_getWorld; owned_side
  | |- steps _ (syncStatusOnly _ _ _) =>
      apply syncStatusOnly_mcframe; first [exact _ | apply writesStamped_frame]
  | |- steps _ (addAnnotation _ _ _) =>
      apply addAnnotation_mcframe; first [exact _ | apply writesStamped_frame]
  | |- steps _ (addFinalizerToContainerRuntimeConfig _ _) =>
      apply addFinalizer_mcframe; first [exact _ | apply writesStamped_frame]
  | |- steps _ (generateOriginalContainerRuntimeConfigs _ _ _) =>
      apply generateOriginal_mcframe; first [exact _ | apply writesStamped_frame]
  | |- steps _ (mergeConfigChanges _ _ _) =>
      apply mergeConfigChanges_mcframe; first [exact _ | apply writesStamped_frame]
  | |- steps _ (MachineConfigs_Get _) =>
      apply MachineConfigs_Get_mcframe; first [exact _ | apply writesStamped_frame]
  | |- steps _ (MachineConfigs_Create _) =>
      apply MachineConfigs_Create_stamped; split; reflexivity
  | |- steps _ (MachineConfigs_Update _) =>
      apply MachineConfigs_Update_stamped; split; reflexivity
  | |- steps _ (RetryOnConflict _ _) => apply steps_retry; [owned_side | intros]
  | |- steps _ (bind _ _) => apply steps_bind; [owned_side | | intros]
  | |- steps _ (match ?x with _ => _ end) => destruct x
  end.

Lemma regenerate_owned key cfg cc pool managedKey mc isNotFound :
  steps (writesStamped [controllerRef cfg])
    (regenerate ctrl key cfg cc pool managedKey mc isNotFound).
Proof.
  unfold regenerate. cbv zeta. repeat owned_step.
Qed.

Lemma sameMachineConfigs_stamped {A} owners (m : M A) :
  steps sameMachineConfigs m -> steps (writesStamped owners) m.
Proof. intros Hm w. apply writesStamped_frame, Hm. Qed.

Lemma syncPool_owned key cfg cc pool :
  steps sameMachineConfigs (getManagedKeyCtrCfg pool cfg) ->
  steps (writesStamped [controllerRef cfg]) (syncPool ctrl key cfg cc pool).
Proof.
  intros Hkey. apply (sameMachineConfigs_stamped [controllerRef cfg]) in Hkey.
  unfold syncPool. cbv zeta.
  repeat first [ exact Hkey | apply regenerate_owned | owned_step ].
Qed.

(** X16: provided the helper that finds the key of a pool leaves the
    machine configs as they are, then whatever the cluster and the failures
    the loop over the pools deletes no machine config, and every machine
    config it leaves in the store is the one that was there or one it wrote
    for the object: stored under its name, owned by the
    ContainerRuntimeConfig alone and with the controller's version as its
    only annotation, so that it passes the version check of the next
    pass. *)
Theorem pool_loop_writes_owned (key : string) (cfg : ContainerRuntimeConfig)
    (cc : ControllerConfig) (pools : list MachineConfigPool) (w : World) :
  (forall pool, steps sameMachineConfigs (getManagedKeyCtrCfg pool cfg)) ->
  (forall k, is_Some (mcStore w !! k) ->
     is_Some (mcStore (finalWorld (forPools (syncPool ctrl key cfg cc) pools w)) !! k)) /\
  (forall k mc,
     mcStore (finalWorld (forPools (syncPool ctrl key cfg cc) pools w)) !! k = Some mc ->
     mcStore w !! k = Some mc \/
     (mcName mc = k /\
      mcAnnotations mc = {[ GeneratedByControllerVersionAnnotationKey := versionHash ]} /\
      mcOwnerReferences mc = [controllerRef cfg] /\
      goIndex (mcAnnotations mc) GeneratedByControllerVersionAnnotationKey = versionHash)).
Proof.
  intros Hkey.
  assert (Hloop : steps (writesStamped [controllerRef cfg])
                    (forPools (syncPool ctrl key cfg cc) pools)).
  { induction pools as [|p rest IH]; cbn [forPools].
    - apply steps_ret. exact _.
    - apply steps_bind; [exact _ | apply syncPool_owned, Hkey |].
      intros [| |r]; [exact IH | exact IH | apply steps_ret; exact _]. }
  destruct (Hloop w) as [Hnames Howned]. split; [exact Hnames|].
  intros k mc Hk. destruct (Howned k mc Hk) as [Hold | (Hname & Hann & Hown)]; [by left|].
  right. split; [exact Hname|]. split; [exact Hann|]. split; [exact Hown|].
  rewrite Hann. unfold goIndex. by rewrite lookup_singleton_eq.
Qed.

(** ** A storage.conf that cannot be merged *)

(** [mergeConfigChanges] reads and writes nothing. *)
Lemma mergeConfigChanges_pure f cfg u w w1 :
  mergeConfigChanges f cfg u w1 =
    match returned (mergeConfigChanges f cfg u w) with
    | Some r => Done r w1
    | None => Panicked w1
    end.
Proof.
  unfold mergeConfigChanges. destruct f as [f|]; [|reflexivity].
  destruct (contentsSource f) as [src|]; [|reflexivity].
  destruct (dataurlDecodeString src) as [d [e|]]; [reflexivity|].
  destruct (u d (crcSpec cfg)) as [t [e|]]; reflexivity.
Qed.

(** X17: a [storage.conf] that cannot be merged does not end the pass over
    the pool.  When the object asks for an overlay size and
    [mergeConfigChanges] fails, [regenerate] records the failure in the
    status and goes on: it writes the machine config with the cri-o files
    only, adds the finalizer and lets the loop continue, so that the error is
    not what the pass returns. *)
Theorem storage_failure_is_not_fatal (key : string) (cfg c s : ContainerRuntimeConfig)
    (cc : ControllerConfig) (pool : MachineConfigPool) (managedKey : string)
    (mc old : MachineConfig) (st rg pl : option IgnFile) (e : error) (toml raw : string)
    (w : World) :
  faults w = [] ->
  mccrCache w !! crcName cfg = Some c ->
  crcName c = crcName cfg ->
  mccrStore w !! crcName cfg = Some s ->
  mcStore w !! mcName mc = Some old ->
  returned (generateOriginalContainerRuntimeConfigs ctrl cc (poolName pool) w)
  = Some (st, rg, pl, None) ->
  OverlaySize (crcSpec cfg) <> 0 ->
  returned (mergeConfigChanges st cfg updateStorageConfig w) = Some (toml, Some e) ->
  jsonMarshal (createNewIgnition (crioFiles cfg)) = (raw, None) ->
  exists w' c',
    regenerate ctrl key cfg cc pool managedKey mc false w = Done Applied w' /\
    mcStore w' = <[mcName mc := written cfg raw mc]> (mcStore w) /\
    mccrCache w' !! crcName cfg = Some c' /\
    list.last (crcConditions c') = Some (wrapErrorWithCondition (Some e) [] (clock w)) /\
    (~ List.In (mcName mc) (crcFinalizers c) ->
       crcFinalizers <$> mccrStore w' !! crcName cfg = Some (crcFinalizers c ++ [mcName mc])%list).
Proof.
  intros Hf Hc Hn Hs Hold Hgen Hsize Hmerge Hjson.
  destruct (generateOriginal_nofault cc (poolName pool) w Hf) as (r & Hrun).
  rewrite Hrun in Hgen. injection Hgen as ->.
  set (w1 := logCall (RenderTemplates (poolName pool)) w) in *.
  assert (Hm1 : mergeConfigChanges st cfg updateStorageConfig w1 = Done (toml, Some e) w1).
  { rewrite (mergeConfigChanges_pure _ _ _ w w1), Hmerge. reflexivity. }
  destruct (syncStatusOnly_nofault cfg (Some e) [] w1 c)
    as (w2 & Hstatus & Hf2 & Hcache2 & Hstore2 & Hmc2 & _ & _ & _ & _ & _);
    [exact Hf | exact Hc | exact Hn |].
  assert (Hupd : MachineConfigs_Update (written cfg raw mc) w2
                 = Done None (setMcStore (insert (mcName mc) (written cfg raw mc))
                                (logCall (MachineConfigsUpdate (mcName mc)) w2))).
  { apply (MachineConfigs_Update_nofault (written cfg raw mc) w2 old Hf2).
    rewrite Hmc2. exact Hold. }
  set (w3 := setMcStore (insert (mcName mc) (written cfg raw mc))
               (logCall (MachineConfigsUpdate (mcName mc)) w2)) in *.
  assert (Hc3 : mccrCache w3 !! crcName cfg = Some (recorded (Some e) [] (clock w1) c)).
  { unfold w3. cbn [mccrCache setMcStore logCall]. rewrite Hcache2. apply lookup_insert_eq. }
  assert (Hs3 : is_Some (mccrStore w3 !! crcName cfg)).
  { unfold w3. cbn [mccrStore setMcStore logCall]. rewrite Hstore2.
    change (mccrStore w1) with (mccrStore w). rewrite Hs. rewrite lookup_insert_eq. eauto. }
  destruct Hs3 as [s3 Hs3].
  destruct (addFinalizer_nofault cfg (written cfg raw mc) w3 _ s3 Hf2 Hc3 Hs3)
    as (w4 & s4 & Hfin & Hstore4 & Hmc4 & Hcache4 & _ & _ & _ & Hadd).
  exists w4, (recorded (Some e) [] (clock w1) c).
  split; [|split; [|split; [|split]]].
  - unfold regenerate. cbv zeta. rewrite (bind_run _ _ _ _ _ Hrun). cbv beta iota.
    destruct (Z.eqb_spec (OverlaySize (crcSpec cfg)) 0) as [Hz|_]; [contradiction|].
    cbn [negb].
    erewrite bind_run;
      [|rewrite (bind_run _ _ _ _ _ Hm1); cbv beta iota;
        rewrite (bind_run _ _ _ _ _ Hstatus); reflexivity].
    cbv beta iota. rewrite app_nil_l. fold (crioFiles cfg).
    erewrite bind_run; [|reflexivity]. cbv beta iota.
    rewrite Hjson. fold (written cfg raw mc).
    erewrite bind_run;
      [|apply retry_first_ok; rewrite (bind_run _ _ _ _ _ Hupd); reflexivity].
    cbv beta iota. rewrite (bind_run _ _ _ _ _ Hfin). reflexivity.
  - rewrite Hmc4. unfold w3. cbn [mcStore setMcStore logCall]. by rewrite Hmc2.
  - rewrite Hcache4. exact Hc3.
  - unfold recorded. cbn [crcConditions withStatus]. apply recordCondition_last.
  - intros Hnot. rewrite Hstore4, lookup_insert_eq. cbn [fmap option_fmap option_map].
    rewrite Hadd; [reflexivity|]. exact Hnot.
Qed.

(** ** The bootstrap of the seccomp machine configs *)

(** X18: [RunSeccompUseDefaultBootstrap] returns one machine config for each
    pool, in the order of the pools, or none at all: when
    [MachineConfigFromIgnConfig] fails for a pool, the machine configs built
    for the pools before it are dropped and the error of the first pool that
    fails is returned, wrapped. *)
Theorem RunSeccompUseDefaultBootstrap_all_or_nothing (pools : list MachineConfigPool) :
  (List.Forall (fun p => snd (seccompBootstrapMC p) = None) pools ->
     RunSeccompUseDefaultBootstrap pools
     = (List.map (fun p => fst (seccompBootstrapMC p)) pools, None)) /\
  (forall pre p post e,
     pools = (pre ++ p :: post)%list ->
     List.Forall (fun p' => snd (seccompBootstrapMC p') = None) pre ->
     snd (seccompBootstrapMC p) = Some e ->
     RunSeccompUseDefaultBootstrap pools
     = ([], Some (Errorf ["could not create MachineConfig from new Ignition config: ";
                          errorString e]))).
Proof.
  split.
  - induction 1 as [|p rest Hp _ IH]; [reflexivity|].
    cbn [RunSeccompUseDefaultBootstrap List.map]. unfold seccompBootstrapMC in Hp |- *.
    destruct (MachineConfigFromIgnConfig _ _ _) as [mc [e|]]; [discriminate Hp|].
    unfold seccompBootstrapMC in IH. rewrite IH. reflexivity.
  - intros pre p post e -> Hpre Hp. induction Hpre as [|p' pre' Hp' _ IH].
    + cbn [app RunSeccompUseDefaultBootstrap]. unfold seccompBootstrapMC in Hp.
      destruct (MachineConfigFromIgnConfig _ _ _) as [mc [e'|]]; [|discriminate Hp].
      simpl in Hp. by injection Hp as ->.
    + cbn [app RunSeccompUseDefaultBootstrap]. fold (@app MachineConfigPool).
      unfold seccompBootstrapMC in Hp'.
      destruct (MachineConfigFromIgnConfig _ _ _) as [mc [e'|]]; [discriminate Hp'|].
      rewrite IH. reflexivity.
Qed.

(** ** The queue of the image pass *)

Lemma handleImgErr_other key key' err q :
  key' <> key -> NumRequeues key' (handleImgErr err key q) = NumRequeues key' q.
Proof.
  intros Hne. unfold handleImgErr. destruct err as [e|].
  - destruct (NumRequeues key q <? maxRetries)%nat.
    + unfold NumRequeues at 1, AddRateLimited. simpl. by rewrite lookup_insert_ne.
    + unfold NumRequeues, AddAfter, Forget, HandleError. simpl. by rewrite lookup_delete_ne.
  - unfold NumRequeues, Forget. simpl. by rewrite lookup_delete_ne.
Qed.

Lemma imgFailures_below key errs : forall q,
  (NumRequeues key q + length errs <= maxRetries)%nat ->
  qops (imgFailures key errs q) = (qops q ++ repeat (QAddRateLimited key) (length errs))%list /\
  NumRequeues key (imgFailures key errs q) = (NumRequeues key q + length errs)%nat.
Proof.
  induction errs as [|e rest IH]; intros q Hle.
  - simpl. rewrite app_nil_r. split; [reflexivity | lia].
  - cbn [imgFailures fold_left length repeat] in *.
    assert (Hstep : handleImgErr (Some e) key q = AddRateLimited key q).
    { unfold handleImgErr. destruct (Nat.ltb_spec (NumRequeues key q) maxRetries); [reflexivity | lia]. }
    rewrite Hstep. destruct (IH (AddRateLimited key q)) as [Hops Hnum].
    { rewrite NumRequeues_AddRateLimited. lia. }
    unfold imgFailures in Hops, Hnum. rewrite Hops, Hnum, NumRequeues_AddRateLimited.
    split; [|lia]. cbn [qops AddRateLimited]. by rewrite <- app_assoc.
Qed.

Lemma imgFailures_other key key' errs : forall q,
  key' <> key -> NumRequeues key' (imgFailures key errs q) = NumRequeues key' q.
Proof.
  induction errs as [|e rest IH]; intros q Hne; [reflexivity|].
  cbn [imgFailures fold_left]. fold (imgFailures key rest (handleImgErr (Some e) key q)).
  rewrite IH by exact Hne. by apply handleImgErr_other.
Qed.

(** X19: a key of the image pass that fails again and again is re-added
    rate-limited fifteen times; the sixteenth failure in a row is the one
    that goes to the error sink, clears the count and adds the key back one
    minute later, so that the next failures are counted from zero again.
    The counts of the other keys are not touched. *)
Theorem handleImgErr_sixteenth_failure (key : string) (errs : list error) (e : error) (q : Queue) :
  NumRequeues key q = O ->
  length errs = maxRetries ->
  qops (imgFailures key errs q) = (qops q ++ repeat (QAddRateLimited key) 15)%list /\
  qops (imgFailures key (errs ++ [e]) q)
  = (qops q ++ repeat (QAddRateLimited key) 15
            ++ [QHandleError e; QForget key; QAddAfter key 60])%list /\
  NumRequeues key (imgFailures key (errs ++ [e]) q) = O /\
  (forall key', key' <> key ->
     NumRequeues key' (imgFailures key (errs ++ [e]) q) = NumRequeues key' q).
Proof.
  intros Hzero Hlen.
  destruct (imgFailures_below key errs q) as [Hops Hnum]; [lia|].
  rewrite Hlen in Hops, Hnum. rewrite Hzero in Hnum. cbn [Nat.add] in Hnum.
  assert (Hlast : imgFailures key (errs ++ [e]) q
                  = AddAfter key 60 (Forget key (HandleError e (imgFailures key errs q)))).
  { unfold imgFailures at 1. rewrite fold_left_app. cbn [fold_left].
    fold (imgFailures key errs q). unfold handleImgErr. by rewrite Hnum. }
  split; [exact Hops|]. split; [|split].
  - rewrite Hlast. cbn [qops AddAfter Forget HandleError]. rewrite Hops.
    rewrite <- !app_assoc. reflexivity.
  - rewrite Hlast. unfold NumRequeues, AddAfter, Forget, HandleError. simpl.
    by rewrite lookup_delete_eq.
  - intros key' Hne. by apply imgFailures_other.
Qed.

(** ** The selectors of the build controller *)

Section BuildSelectors.
Context `{BuildConstants}.
Import constants.

Lemma forallb_Permutation {A} (f : A -> bool) (l l' : list A) :
  l ≡ₚ l' -> forallb f l = forallb f l'.
Proof.
  induction 1 as [|x l l' _ IH|x y l|l l' l'' _ IH1 _ IH2]; simpl.
  - reflexivity.
  - by rewrite IH.
  - destruct (f x), (f y); reflexivity.
  - by rewrite IH1.
Qed.

Lemma forallb_sortByKey (f : Requirement -> bool) reqs :
  forallb f (sortByKey reqs) = forallb f reqs.
Proof. apply forallb_Permutation. unfold sortByKey. apply merge_sort_Permutation. Qed.

Lemma SelectorMatches_sortByKey reqs ls :
  SelectorMatches (internalSelector (sortByKey reqs)) ls
  = forallb (fun r => RequirementMatches r ls) reqs.
Proof. cbn [SelectorMatches]. apply forallb_sortByKey. Qed.

Lemma NewRequirement_Exists k :
  NewRequirement k selection_Exists [] = (existsRequirement k, validateLabelKey k).
Proof. unfold NewRequirement. simpl. by destruct (validateLabelKey k). Qed.

Lemma NewRequirement_Equals k v :
  validateLabelKey k = None ->
  NewRequirement k selection_Equals [v] = (equalsRequirement k v, validateLabelValue k v).
Proof.
  intros Hk. unfold NewRequirement. simpl. rewrite Hk.
  by destruct (validateLabelValue k v).
Qed.

Lemma existsRequirement_matches k ls :
  RequirementMatches (existsRequirement k) ls = bool_decide (is_Some (ls !! k)).
Proof. reflexivity. Qed.

Lemma equalsRequirement_matches k v ls :
  RequirementMatches (equalsRequirement k v) ls = true <-> ls !! k = Some v.
Proof.
  unfold RequirementMatches, equalsRequirement, InSlice. simpl.
  destruct (ls !! k) as [v'|]; [|split; discriminate].
  rewrite orb_false_r. rewrite String.eqb_eq. split; [by intros -> | by intros [= ->]].
Qed.

Lemma labelRequirements_valid keys : forall reqs,
  List.Forall (fun k => validateLabelKey k = None) keys ->
  labelRequirements keys reqs = Some (reqs ++ List.map existsRequirement keys)%list.
Proof.
  induction keys as [|k rest IH]; intros reqs Hv; cbn [labelRequirements List.map].
  - by rewrite app_nil_r.
  - apply List.Forall_cons_iff in Hv as [Hk Hrest].
    rewrite NewRequirement_Exists, Hk. rewrite (IH _ Hrest).
    by rewrite <- app_assoc.
Qed.

Lemma labelRequirements_invalid keys : forall reqs,
  List.Exists (fun k => is_Some (validateLabelKey k)) keys ->
  labelRequirements keys reqs = None.
Proof.
  induction keys as [|k rest IH]; intros reqs Hx; [by apply List.Exists_nil in Hx|].
  cbn [labelRequirements]. rewrite NewRequirement_Exists.
  destruct (validateLabelKey k) as [e|] eqn:Hk; [reflexivity|].
  apply IH. apply List.Exists_cons in Hx as [[x Hx] | Hx]; [congruence | exact Hx].
Qed.

Lemma labelsToSelector_valid keys :
  List.Forall (fun k => validateLabelKey k = None) keys ->
  labelsToSelector keys = Some (internalSelector (sortByKey (List.map existsRequirement keys))).
Proof.
  intros Hv. unfold labelsToSelector. by rewrite (labelRequirements_valid keys [] Hv).
Qed.

Lemma present_forallb keys ls :
  forallb (fun r => RequirementMatches r ls) (List.map existsRequirement keys) = true <->
  forall k, List.In k keys -> is_Some (ls !! k).
Proof.
  rewrite forallb_forall. split.
  - intros Hall k Hk. specialize (Hall (existsRequirement k) (in_map _ _ _ Hk)).
    rewrite existsRequirement_matches in Hall. by apply bool_decide_eq_true_1 in Hall.
  - intros Hall r Hr. apply in_map_iff in Hr as (k & <- & Hk).
    rewrite existsRequirement_matches. apply bool_decide_eq_true_2. by apply Hall.
Qed.

(** X20: [labelsToSelector] gives the selector that requires every key of
    the list to be present, whatever the values: it matches a set of labels
    exactly when each of the keys has a label.  It panics as soon as one of
    the keys is not a valid label key. *)
Theorem labelsToSelector_requires_every_key (keys : list string) :
  (List.Forall (fun k => validateLabelKey k = None) keys ->
     exists sel,
       labelsToSelector keys = Some sel /\
       forall ls, SelectorMatches sel ls = true <->
                  forall k, List.In k keys -> is_Some (ls !! k)) /\
  (List.Exists (fun k => is_Some (validateLabelKey k)) keys -> labelsToSelector keys = None).
Proof.
  split.
  - intros Hv. eexists. split; [by apply labelsToSelector_valid|].
    intros ls. rewrite SelectorMatches_sortByKey. apply present_forallb.
  - intros Hx. unfold labelsToSelector. by rewrite (labelRequirements_invalid keys [] Hx).
Qed.

(** X21: [MachineOSBuildSelector] matches the objects that carry the name
    of the pool, the name of its rendered config and the name of the
    MachineOSConfig under the three label keys, with exactly these values.
    The three keys are distinct constants (as keys of one map literal they
    have to be). *)
Theorem MachineOSBuildSelector_matches_exactly (mosc : MachineOSConfig)
    (mcp : MachineConfigPool) (ls : gmap string string) :
  TargetMachineConfigPoolLabelKey <> RenderedMachineConfigLabelKey ->
  TargetMachineConfigPoolLabelKey <> MachineOSConfigNameLabelKey ->
  RenderedMachineConfigLabelKey <> MachineOSConfigNameLabelKey ->
  SelectorMatches (MachineOSBuildSelector mosc mcp) ls = true <->
  ls !! TargetMachineConfigPoolLabelKey = Some (mcpName mcp) /\
  ls !! RenderedMachineConfigLabelKey = Some (mcpConfigurationName mcp) /\
  ls !! MachineOSConfigNameLabelKey = Some (moscName mosc).
Proof.
  intros H12 H13 H23. unfold MachineOSBuildSelector, SelectorFromSet.
  set (m := ({[ TargetMachineConfigPoolLabelKey := mcpName mcp;
                RenderedMachineConfigLabelKey := mcpConfigurationName mcp;
                MachineOSConfigNameLabelKey := moscName mosc ]} : gmap string string)).
  assert (Hperm : map_to_list m ≡ₚ
                  [(TargetMachineConfigPoolLabelKey, mcpName mcp);
                   (RenderedMachineConfigLabelKey, mcpConfigurationName mcp);
                   (MachineOSConfigNameLabelKey, moscName mosc)]).
  { unfold m. rewrite map_to_list_insert.
    2:{ rewrite lookup_insert_ne by (intros Heq; by apply H12).
        by rewrite lookup_singleton_ne by (intros Heq; by apply H13). }
    apply Permutation_skip. rewrite map_to_list_insert.
    2:{ by rewrite lookup_singleton_ne by (intros Heq; by apply H23). }
    apply Permutation_skip. by rewrite map_to_list_singleton. }
  destruct (Nat.eqb_spec (size m) 0) as [Hz|_].
  { apply map_size_empty_iff in Hz. exfalso. revert Hz. unfold m. apply insert_non_empty. }
  rewrite SelectorMatches_sortByKey.
  rewrite (forallb_Permutation _ _ _ (Permutation_map _ Hperm)).
  cbn [List.map forallb fst snd].
  fold (equalsRequirement TargetMachineConfigPoolLabelKey (mcpName mcp)).
  fold (equalsRequirement RenderedMachineConfigLabelKey (mcpConfigurationName mcp)).
  fold (equalsRequirement MachineOSConfigNameLabelKey (moscName mosc)).
  rewrite !andb_true_iff, !equalsRequirement_matches. tauto.
Qed.

(** X22: [EphemeralBuildObjectSelectorForSpecificBuild] returns the error
    of the first of the two names that is not a valid label value, the name
    of the rendered config first.  Otherwise its selector matches the
    objects that have the two marker labels and carry the name of the
    desired config and the name of the pool under their keys; every such
    object is an ephemeral build object. *)
Theorem EphemeralBuildObjectSelectorForSpecificBuild_narrows (mosb : MachineOSBuild)
    (mosc : MachineOSConfig) :
  List.Forall (fun k => validateLabelKey k = None)
    [EphemeralBuildObjectLabelKey; OnClusterLayeringLabelKey;
     RenderedMachineConfigLabelKey; TargetMachineConfigPoolLabelKey] ->
  (forall e,
     validateLabelValue RenderedMachineConfigLabelKey (mosbDesiredConfigName mosb) = Some e ->
     EphemeralBuildObjectSelectorForSpecificBuild mosb mosc = Some (None, Some e)) /\
  (forall e,
     validateLabelValue RenderedMachineConfigLabelKey (mosbDesiredConfigName mosb) = None ->
     validateLabelValue TargetMachineConfigPoolLabelKey (moscMachineConfigPoolName mosc) = Some e ->
     EphemeralBuildObjectSelectorForSpecificBuild mosb mosc = Some (None, Some e)) /\
  (validateLabelValue RenderedMachineConfigLabelKey (mosbDesiredConfigName mosb) = None ->
   validateLabelValue TargetMachineConfigPoolLabelKey (moscMachineConfigPoolName mosc) = None ->
   exists sel,
     EphemeralBuildObjectSelectorForSpecificBuild mosb mosc = Some (Some sel, None) /\
     (forall ls,
        SelectorMatches sel ls = true <->
        is_Some (ls !! EphemeralBuildObjectLabelKey) /\
        is_Some (ls !! OnClusterLayeringLabelKey) /\
        ls !! RenderedMachineConfigLabelKey = Some (mosbDesiredConfigName mosb) /\
        ls !! TargetMachineConfigPoolLabelKey = Some (moscMachineConfigPoolName mosc)) /\
     (forall obj,
        SelectorMatches sel (GetLabels obj) = true -> isEphemeralBuildObject obj = Some true)).
Proof.
  intros Hv.
  assert (Hv2 : List.Forall (fun k => validateLabelKey k = None)
                  [EphemeralBuildObjectLabelKey; OnClusterLayeringLabelKey]).
  { apply List.Forall_cons_iff in Hv as [H1 Hv]. apply List.Forall_cons_iff in Hv as [H2 _].
    repeat constructor; assumption. }
  assert (Hr : validateLabelKey RenderedMachineConfigLabelKey = None).
  { rewrite List.Forall_forall in Hv. apply Hv. simpl. auto. }
  assert (Ht : validateLabelKey TargetMachineConfigPoolLabelKey = None).
  { rewrite List.Forall_forall in Hv. apply Hv. simpl. auto. }
  unfold EphemeralBuildObjectSelectorForSpecificBuild.
  rewrite (labelsToSelector_valid _ Hv2).
  rewrite (NewRequirement_Equals _ _ Hr), (NewRequirement_Equals _ _ Ht).
  split; [|split].
  - intros e ->. reflexivity.
  - intros e -> ->. reflexivity.
  - intros -> ->. eexists. split; [reflexivity|].
    assert (Hm : forall ls,
      SelectorMatches
        (SelectorAdd
           (internalSelector
              (sortByKey (List.map existsRequirement
                            [EphemeralBuildObjectLabelKey; OnClusterLayeringLabelKey])))
           [equalsRequirement RenderedMachineConfigLabelKey (mosbDesiredConfigName mosb);
            equalsRequirement TargetMachineConfigPoolLabelKey (moscMachineConfigPoolName mosc)])
        ls = true <->
      is_Some (ls !! EphemeralBuildObjectLabelKey) /\
      is_Some (ls !! OnClusterLayeringLabelKey) /\
      ls !! RenderedMachineConfigLabelKey = Some (mosbDesiredConfigName mosb) /\
      ls !! TargetMachineConfigPoolLabelKey = Some (moscMachineConfigPoolName mosc)).
    { intros ls. cbn [SelectorAdd]. rewrite SelectorMatches_sortByKey.
      rewrite forallb_app, forallb_sortByKey.
      cbn [List.map forallb]. rewrite !existsRequirement_matches.
      rewrite !andb_true_iff, !equalsRequirement_matches, !bool_decide_eq_true. tauto. }
    split; [exact Hm|].
    intros obj Hobj. apply Hm in Hobj as (He & Ho & Hrend & Htgt).
    unfold isEphemeralBuildObject, EphemeralBuildObjectSelector.
    rewrite (labelsToSelector_valid _ Hv). f_equal.
    rewrite SelectorMatches_sortByKey. apply present_forallb.
    intros k Hk. simpl in Hk.
    destruct Hk as [<- | [<- | [<- | [<- | []]]]]; [exact He | exact Ho | by rewrite Hrend | by rewrite Htgt].
Qed.

(** X23: with valid label keys, [IsObjectCreatedByBuildController] never
    panics and answers true exactly for an object that has the three labels
    of an OS build, for a secret that has the three labels of a
    canonicalized secret and a name that ends in the canonical suffix, and
    for a MachineOSBuild.  Its first check decides nothing that the second
    would not: an ephemeral build object has the three labels of an OS
    build. *)
Theorem IsObjectCreatedByBuildController_cases (obj : Object) :
  List.Forall (fun k => validateLabelKey k = None)
    [EphemeralBuildObjectLabelKey; OnClusterLayeringLabelKey; RenderedMachineConfigLabelKey;
     TargetMachineConfigPoolLabelKey; CanonicalSecretLabelKey; OriginalSecretNameLabelKey] ->
  (exists b, IsObjectCreatedByBuildController obj = Some b) /\
  (IsObjectCreatedByBuildController obj = Some true <->
     (is_Some (GetLabels obj !! OnClusterLayeringLabelKey) /\
      is_Some (GetLabels obj !! RenderedMachineConfigLabelKey) /\
      is_Some (GetLabels obj !! TargetMachineConfigPoolLabelKey)) \/
     (exists secret,
        obj = SecretObject secret /\
        is_Some (secretLabels secret !! CanonicalSecretLabelKey) /\
        is_Some (secretLabels secret !! OriginalSecretNameLabelKey) /\
        is_Some (secretLabels secret !! OnClusterLayeringLabelKey) /\
        HasSuffix (secretName secret) canonicalSecretSuffix = true) \/
     (exists mosb, obj = MachineOSBuildObject mosb)) /\
  (isEphemeralBuildObject obj = Some true ->
   hasAllRequiredOSBuildLabels (GetLabels obj) = Some true).
Proof.
  intros Hv. rewrite List.Forall_forall in Hv.
  assert (Hvalid : forall keys,
            (forall k, List.In k keys ->
               List.In k [EphemeralBuildObjectLabelKey; OnClusterLayeringLabelKey;
                          RenderedMachineConfigLabelKey; TargetMachineConfigPoolLabelKey;
                          CanonicalSecretLabelKey; OriginalSecretNameLabelKey]) ->
            List.Forall (fun k => validateLabelKey k = None) keys).
  { intros keys Hsub. apply List.Forall_forall. intros k Hk. apply Hv, Hsub, Hk. }
  assert (Heph : forall ls,
            (match EphemeralBuildObjectSelector with
             | Some sel => Some (SelectorMatches sel ls) | None => None end)
            = Some (forallb (fun r => RequirementMatches r ls)
                      (List.map existsRequirement
                         [EphemeralBuildObjectLabelKey; OnClusterLayeringLabelKey;
                          RenderedMachineConfigLabelKey; TargetMachineConfigPoolLabelKey]))).
  { intros ls. unfold EphemeralBuildObjectSelector. rewrite labelsToSelector_valid.
    - by rewrite SelectorMatches_sortByKey.
    - apply Hvalid. simpl. tauto. }
  assert (Hos : forall ls,
            hasAllRequiredOSBuildLabels ls
            = Some (forallb (fun r => RequirementMatches r ls)
                      (List.map existsRequirement
                         [OnClusterLayeringLabelKey; RenderedMachineConfigLabelKey;
                          TargetMachineConfigPoolLabelKey]))).
  { intros ls. unfold hasAllRequiredOSBuildLabels, OSBuildSelector.
    rewrite labelsToSelector_valid.
    - by rewrite SelectorMatches_sortByKey.
    - apply Hvalid. simpl. tauto. }
  assert (Hcan : forall secret,
            isCanonicalizedSecret secret
            = Some (forallb (fun r => RequirementMatches r (secretLabels secret))
                      (List.map existsRequirement
                         [CanonicalSecretLabelKey; OriginalSecretNameLabelKey;
                          OnClusterLayeringLabelKey])
                    && HasSuffix (secretName secret) canonicalSecretSuffix)).
  { intros secret. unfold isCanonicalizedSecret, hasCanonicalizedSecretLabels,
      CanonicalizedSecretSelector.
    rewrite labelsToSelector_valid.
    - by rewrite SelectorMatches_sortByKey.
    - apply Hvalid. simpl. tauto. }
  assert (Himp : forall ls,
            forallb (fun r => RequirementMatches r ls)
              (List.map existsRequirement
                 [EphemeralBuildObjectLabelKey; OnClusterLayeringLabelKey;
                  RenderedMachineConfigLabelKey; TargetMachineConfigPoolLabelKey]) = true ->
            forallb (fun r => RequirementMatches r ls)
              (List.map existsRequirement
                 [OnClusterLayeringLabelKey; RenderedMachineConfigLabelKey;
                  TargetMachineConfigPoolLabelKey]) = true).
  { intros ls. cbn [List.map forallb]. rewrite !andb_true_iff. tauto. }
  assert (Hthree : forall ls,
            forallb (fun r => RequirementMatches r ls)
              (List.map existsRequirement
                 [OnClusterLayeringLabelKey; RenderedMachineConfigLabelKey;
                  TargetMachineConfigPoolLabelKey]) = true <->
            is_Some (ls !! OnClusterLayeringLabelKey) /\
            is_Some (ls !! RenderedMachineConfigLabelKey) /\
            is_Some (ls !! TargetMachineConfigPoolLabelKey)).
  { intros ls. cbn [List.map forallb]. rewrite !existsRequirement_matches.
    rewrite !andb_true_iff, !bool_decide_eq_true. tauto. }
  assert (Hsec : forall secret,
            forallb (fun r => RequirementMatches r (secretLabels secret))
              (List.map existsRequirement
                 [CanonicalSecretLabelKey; OriginalSecretNameLabelKey;
                  OnClusterLayeringLabelKey])
            && HasSuffix (secretName secret) canonicalSecretSuffix = true <->
            is_Some (secretLabels secret !! CanonicalSecretLabelKey) /\
            is_Some (secretLabels secret !! OriginalSecretNameLabelKey) /\
            is_Some (secretLabels secret !! OnClusterLayeringLabelKey) /\
            HasSuffix (secretName secret) canonicalSecretSuffix = true).
  { intros secret. cbn [List.map forallb]. rewrite !existsRequirement_matches.
    rewrite !andb_true_iff, !bool_decide_eq_true. tauto. }
  unfold IsObjectCreatedByBuildController, isEphemeralBuildObject.
  rewrite (Heph (GetLabels obj)), (Hos (GetLabels obj)).
  pose proof (Himp (GetLabels obj)) as Hi. pose proof (Hthree (GetLabels obj)) as Ht.
  destruct (forallb _ (List.map existsRequirement
                         [EphemeralBuildObjectLabelKey; OnClusterLayeringLabelKey;
                          RenderedMachineConfigLabelKey; TargetMachineConfigPoolLabelKey]))
    eqn:He.
  { specialize (Hi eq_refl). split; [eauto|]. split; [|by rewrite Hi].
    split; [intros _; left; by apply Ht | reflexivity]. }
  clear Hi.
  destruct (forallb _ (List.map existsRequirement
                         [OnClusterLayeringLabelKey; RenderedMachineConfigLabelKey;
                          TargetMachineConfigPoolLabelKey])) eqn:Ho.
  { split; [eauto|]. split; [|discriminate].
    split; [intros _; left; by apply Ht | reflexivity]. }
  assert (Hno : ~ (is_Some (GetLabels obj !! OnClusterLayeringLabelKey) /\
                   is_Some (GetLabels obj !! RenderedMachineConfigLabelKey) /\
                   is_Some (GetLabels obj !! TargetMachineConfigPoolLabelKey))).
  { intros Hall. apply Ht in Hall. discriminate Hall. }
  destruct obj as [secret|mosb|name labels].
  - rewrite (Hcan secret). pose proof (Hsec secret) as Hs.
    destruct (forallb _ _ && HasSuffix _ _) eqn:Hc.
    + split; [eauto|]. split; [|discriminate].
      split; [|reflexivity]. intros _. right. left. exists secret. split; [reflexivity|].
      by apply Hs.
    + split; [eauto|]. split; [|discriminate]. split; [discriminate|].
      intros [Hall | [(secret' & [= <-] & Hrest) | (mosb & Hm)]];
        [contradiction | | discriminate Hm].
      destruct Hs as [_ Hs]. specialize (Hs Hrest). discriminate Hs.
  - split; [eauto|]. split; [|discriminate]. split; [|reflexivity].
    intros _. right. right. by exists mosb.
  - split; [eauto|]. split; [|discriminate]. split; [discriminate|].
    intros [Hall | [(secret' & Hs' & _) | (mosb & Hm)]];
      [contradiction | discriminate Hs' | discriminate Hm].
Qed.

End BuildSelectors.

(** ** What the image pass writes *)

Lemma registriesConfigIgnition_stamped owners cc role ins blk alw srch icsp :
  steps (writesStamped owners) (registriesConfigIgnition ctrl cc role ins blk alw srch icsp).
Proof.
  unfold registriesConfigIgnition, updateOriginal. cbv zeta. repeat owned_step.
Qed.

Lemma syncImagePools_stamped imgcfg blk cc icsp pools :
  (forall pool, steps sameMachineConfigs (getManagedKeyReg pool)) ->
  steps (writesStamped [imageOwnerReference imgcfg])
    (syncImagePools ctrl imgcfg blk cc icsp pools).
Proof.
  intros Hkey.
  assert (Hk : forall pool, steps (writesStamped [imageOwnerReference imgcfg])
                              (getManagedKeyReg pool))
    by (intros pool; apply sameMachineConfigs_stamped, Hkey).
  induction pools as [|pool rest IH]; cbn [syncImagePools]; cbv zeta.
  - owned_step.
  - unfold syncImageAttempt.
    repeat first [ exact IH | apply Hk | apply registriesConfigIgnition_stamped | owned_step ].
Qed.

(** X24: provided the helper that finds the key of a pool leaves the
    machine configs as they are, then whatever the cluster and the failures
    the loop of the image pass deletes no machine config, and every machine
    config it leaves in the store is the one that was there or one it wrote
    for the Image: stored under its name, with the controller's version as
    its only annotation and the reference to the Image as its only owner. *)
Theorem image_pass_writes_stamped (imgcfg : Image) (blockedRegs : option (list string))
    (cc : ControllerConfig) (icspRules : list ImageContentSourcePolicy)
    (pools : list MachineConfigPool) (w : World) :
  (forall pool, steps sameMachineConfigs (getManagedKeyReg pool)) ->
  (forall k, is_Some (mcStore w !! k) ->
     is_Some (mcStore (finalWorld (syncImagePools ctrl imgcfg blockedRegs cc icspRules pools w))
                !! k)) /\
  (forall k mc,
     mcStore (finalWorld (syncImagePools ctrl imgcfg blockedRegs cc icspRules pools w)) !! k
     = Some mc ->
     mcStore w !! k = Some mc \/
     (mcName mc = k /\
      mcAnnotations mc = {[ GeneratedByControllerVersionAnnotationKey := versionHash ]} /\
      mcOwnerReferences mc = [imageOwnerReference imgcfg])).
Proof.
  intros Hkey.
  destruct (syncImagePools_stamped imgcfg blockedRegs cc icspRules pools Hkey w) as [Hnames Hst].
  split; [exact Hnames|].
  intros k mc Hk.
  destruct (Hst k mc Hk) as [Hold | (Hname & Hann & Hown)]; [by left|].
  right. split; [exact Hname|]. split; [exact Hann | exact Hown].
Qed.

(** ** A helper that reads *)

Lemma readKey_nofault key w :
  faults w = [] ->
  readKey (key, None) w = Done (key, None) (logCalls [MachineConfigsGet key] w).
Proof.
  intros Hf. unfold readKey.
  rewrite (bind_run _ _ _ _ _ (MachineConfigs_Get_nofault key w Hf)).
  destruct (mcStore w !! key); [by rewrite (@is_Some_None_false error)|].
  assert (Hs : bool_decide (is_Some (Some (notFound "machineconfigs" key))) = true)
    by (apply bool_decide_eq_true; eauto).
  rewrite Hs. reflexivity.
Qed.

Lemma readKey_sameMachineConfigs r : steps sameMachineConfigs (readKey r).
Proof.
  destruct r as [key [e|]]; unfold readKey; [apply steps_ret; exact _|].
  apply steps_bind; [exact _ | |].
  - apply MachineConfigs_Get_mcframe; [exact _ | intros w w' He; exact He].
  - intros [mc err]. destruct (_ && _); apply steps_ret; exact _.
Qed.

Lemma readKey_keepsNames r : steps keepsNames (readKey r).
Proof. intros w k Hk. by rewrite (readKey_sameMachineConfigs r w). Qed.

Lemma readKey_emits r : emits imageCall (readKey r).
Proof.
  destruct r as [key [e|]]; unfold readKey, MachineConfigs_Get; trace_steps; split; reflexivity.
Qed.
End Properties.

(** * The properties on the concrete clusters *)

Lemma handleErr_policy_witness :
  qops (handleErr (Some (PlainError "boom")) "set-pids"
          {| failures := {[ "set-pids" := 15%nat ]}; qops := [] |})
  = [QHandleError (PlainError "boom"); QForget "set-pids"; QAddAfter "set-pids" 60] /\
  qops (handleErr (Some (PlainError "boom")) "set-pids"
          {| failures := {[ "set-pids" := 14%nat ]}; qops := [] |})
  = [QAddRateLimited "set-pids"].
Proof.
  split.
  - destruct (handleErr_policy "set-pids"
                {| failures := {[ "set-pids" := 15%nat ]}; qops := [] |} (PlainError "boom"))
      as (_ & _ & Hdrop & _).
    destruct Hdrop as [Hops _]; [vm_compute; lia | exact Hops].
  - destruct (handleErr_policy "set-pids"
                {| failures := {[ "set-pids" := 14%nat ]}; qops := [] |} (PlainError "boom"))
      as (_ & Hretry & _).
    destruct Hretry as [Hops _]; [vm_compute; lia | exact Hops].
Defined.

Lemma getPools_selector_safety_witness :
  exists e w',
    getPoolsForContainerRuntimeConfig unselectingCfg (steadyWorld unselectingCfg [])
    = Done ([], Some e) w'.
Proof.
  destruct (getPools_selector_safety unselectingCfg (steadyWorld unselectingCfg []))
    as [Hnone _].
  destruct Hnone as [_ Herr]; [exact I | exact Herr].
Defined.

Lemma status_conditions_policy_witness :
  exists w' c',
    syncStatusTimes 3 badCfg (Some (PlainError "invalid PidsLimit")) [] badWorld = Done tt w' /\
    mccrCache w' !! "bad" = Some c' /\
    length (crcConditions c') = 1%nat.
Proof.
  destruct (status_conditions_policy badCfg (Some (PlainError "invalid PidsLimit")) [])
    as (_ & _ & _ & Hn).
  destruct (Hn 3%nat badWorld badCfg) as (w' & c' & Hrun & Hc & Hlen & _).
  - lia.
  - intros t t'. reflexivity.
  - reflexivity.
  - reflexivity.
  - reflexivity.
  - reflexivity.
  - exists w', c'. auto.
Defined.

Lemma addAnnotation_replaces_map_witness :
  exists w' s',
    addAnnotation annotatedCfg specSuffixKey "1" annotatedWorld = Done None w' /\
    mccrStore w' !! "set-pids" = Some s' /\
    crcAnnotations annotatedCfg !! "owner" = Some "team-a" /\
    crcAnnotations s' !! "owner" = None.
Proof.
  destruct (addAnnotation_replaces_map annotatedCfg specSuffixKey "1" annotatedWorld
              annotatedCfg annotatedCfg)
    as (w' & c' & s' & Hrun & _ & Hs & _ & _ & Hgone);
    [reflexivity | reflexivity | reflexivity | reflexivity |].
  exists w', s'. split; [exact Hrun|]. split; [exact Hs|]. split; [reflexivity|].
  apply Hgone. discriminate.
Defined.

Lemma cascadeDelete_one_finalizer_witness :
  exists w',
    syncContainerRuntimeConfig exampleCtrl "set-pids" deletingWorld = Done None w' /\
    mcStore w' !! workerKey = None /\
    crcFinalizers <$> (mccrStore w' !! "set-pids") = Some [].
Proof.
  destruct (cascadeDelete_one_finalizer exampleCtrl deletedCfg workerKey
              (logCall (CtrCfgListerGet "set-pids")
                 (logCall (ConfigMapsGet configMapName) deletingWorld)) deletedCfg)
    as (Hok & _ & _ & Hsync); [reflexivity | reflexivity | reflexivity |].
  destruct Hok as (w' & Hrun & _ & Hmc & Hstore & _); [reflexivity|].
  exists w'. split.
  - rewrite (Hsync "set-pids" "" markerCM 9%nat deletingWorld);
      [exact Hrun | reflexivity | reflexivity | reflexivity | reflexivity | reflexivity
      | reflexivity].
  - split; [exact Hmc|]. rewrite Hstore. reflexivity.
Defined.

Lemma sync_starts_with_seccomp_witness :
  exists w1,
    syncContainerRuntimeConfig exampleCtrl "force-sync-on-upgrade" (freshWorld doneCfg [])
    = Done None w1 /\
    cmStore w1 !! configMapName = Some markerCM /\
    mcRaw <$> (mcStore w1 !! seccompKey)
    = Some "/etc/crio/crio.conf.d/01-mc-seccompUseDefault=seccomp" /\
    createSeccompUseDefaultMC exampleCtrl w1
    = Done None (logCall (ConfigMapsGet configMapName) w1).
Proof.
  destruct (sync_starts_with_seccomp exampleCtrl "force-sync-on-upgrade" (freshWorld doneCfg []))
    as (r & w1 & l & _ & _ & _ & _ & Hstart & _ & _ & Hcreate).
  edestruct Hcreate as (Hr & (Hcm & _ & Hall & Hnew) & Hagain);
    [reflexivity | reflexivity | reflexivity | reflexivity
    | repeat constructor |].
  exists w1. split; [exact (Hstart Hr)|]. split; [|split; [|exact Hagain]].
  - rewrite Hcm. apply lookup_insert_eq.
  - destruct (Hall workerPool (or_introl eq_refl)) as [mc Hmc].
    change (getManagedKeySeccomp workerPool) with seccompKey in Hmc. rewrite Hmc.
    destruct (Hnew _ _ Hmc) as [Hold | (p & [<- | []] & _ & ->)]; [discriminate Hold|].
    reflexivity.
Defined.

Lemma syncPool_skip_condition_witness :
  syncPool exampleCtrl "set-pids" doneCfg exampleCC workerPool currentWorld
  = Done Continue (logCall (MachineConfigsGet workerKey) currentWorld) /\
  mcAnnotations <$>
    (mcStore (finalWorld (syncPool exampleCtrl "set-pids" doneCfg exampleCC workerPool upgradedWorld))
       !! workerKey)
  = Some {[ "machineconfiguration.openshift.io/generated-by-controller-version" := "v2" ]}.
Proof.
  split.
  - apply (proj1 (syncPool_skip_condition exampleCtrl "set-pids" doneCfg exampleCC workerPool
                    currentWorld)).
    exists workerKey, (generatedMC workerKey "v2" "/etc/crio/crio.conf.d/01-ctrcfg=crio"),
      currentWorld.
    split; [reflexivity|]. split; [reflexivity|]. split; [simpl; lia|].
    split; [|reflexivity]. exists (successCondition 7). split; reflexivity.
  - destruct (proj2 (syncPool_skip_condition exampleCtrl "set-pids" doneCfg exampleCC workerPool
                       upgradedWorld)
                workerKey (generatedMC workerKey "v1" "/etc/crio/crio.conf.d/01-ctrcfg=crio")
                upgradedWorld
                (logCall (MachineConfigsGet workerKey) upgradedWorld) (successCondition 7))
      as [_ Hrewrite];
      [reflexivity | reflexivity | simpl; lia | reflexivity | reflexivity
      | vm_compute; discriminate |].
    change (mcName (generatedMC workerKey "v1" "/etc/crio/crio.conf.d/01-ctrcfg=crio"))
      with workerKey in Hrewrite.
    erewrite Hrewrite; [reflexivity | reflexivity | reflexivity | reflexivity | reflexivity
                       | reflexivity | reflexivity | reflexivity | reflexivity].
Defined.

Lemma skip_check_needs_a_condition_witness :
  exists w', syncContainerRuntimeConfig exampleCtrl "set-pids" clearedWorld = Panicked w'.
Proof.
  destruct (skip_check_needs_a_condition exampleCtrl "set-pids" clearedCfg exampleCC workerPool
              clearedWorld) as (_ & _ & Hsync).
  apply (Hsync "" "set-pids" markerCM
           (internalSelector [{| reqKey := "pool"; reqOperator := selection_Equals;
                                 reqValues := ["worker"] |}])
           [] workerKey (generatedMC workerKey "v2" "/etc/crio/crio.conf.d/01-ctrcfg=crio"));
    first [ reflexivity
          | intros w' Hf'; exists w'; split; [reflexivity | split; [exact Hf' | reflexivity]]
          | simpl; lia ].
Defined.

Lemma validation_failure_returns_the_error_witness :
  exists w' s',
    syncContainerRuntimeConfig exampleCtrl "bad" (freshWorld badCfg [])
    = Done (Some (PlainError "invalid PidsLimit")) w' /\
    mccrStore w' !! "bad" = Some s' /\
    condType <$> list.last (crcConditions s') = Some ContainerRuntimeConfigFailure /\
    processNextWorkItem exampleCtrl "bad" emptyQueue (freshWorld badCfg [])
    = Done (handleErr (Some (PlainError "invalid PidsLimit")) "bad" emptyQueue) w' /\
    qops (handleErr (Some (PlainError "invalid PidsLimit")) "bad" emptyQueue)
    = [QAddRateLimited "bad"].
Proof.
  destruct (validation_failure_returns_the_error exampleCtrl "bad" "" "bad" badCfg
              (PlainError "invalid PidsLimit") (freshWorld badCfg [])
              (finalWorld (createSeccompUseDefaultMC exampleCtrl (freshWorld badCfg [])))
              emptyQueue)
    as (w' & cfg' & failing & Hrun & _ & Hty & _ & _ & Hs & _ & _ & _ & Hq & Hretry);
    [vm_compute; reflexivity | reflexivity | reflexivity | reflexivity | reflexivity
    | reflexivity | reflexivity | reflexivity | intros t; reflexivity |].
  destruct (Hs badCfg eq_refl) as (s' & Hs' & Hlast).
  exists w', s'. split; [exact Hrun|]. split; [exact Hs'|]. split; [|split; [exact Hq|]].
  - rewrite Hlast. cbn [fmap option_fmap option_map]. by rewrite Hty.
  - destruct Hretry as [Hops _]; [vm_compute; lia | exact Hops].
Defined.

(** C1 as the spec has it does not hold: the pass over [badCfg], whose
    validation fails, returns the validation error and not nil, and the
    handler re-adds its key rate-limited, as for any failed pass. *)
Lemma validation_failure_is_retried :
  validateUserContainerRuntimeConfig badCfg = Some (PlainError "invalid PidsLimit") /\
  returned (syncContainerRuntimeConfig exampleCtrl "bad" badWorld)
  = Some (Some (PlainError "invalid PidsLimit")) /\
  returned (syncContainerRuntimeConfig exampleCtrl "bad" badWorld) <> Some None /\
  qops <$> returned (processNextWorkItem exampleCtrl "bad" emptyQueue badWorld)
  = Some [QAddRateLimited "bad"].
Proof.
  split; [reflexivity|]. split; [vm_compute; reflexivity|].
  split; [vm_compute; discriminate | vm_compute; reflexivity].
Qed.

Lemma image_skip_condition_witness :
  (exists w',
     @syncImageConfig readingHelpers exampleCtrl "openshift-config"
       (policyWorld [registriesMC "v2"]) = Done None w' /\
     trace w' = [ImageListerGet "cluster"; ClusterVersionGet "version";
                 ControllerConfigGet "machine-config-controller"; ICSPList; PoolsList;
                 MachineConfigsGet registriesKey;
                 RenderTemplates "worker"; MachineConfigsGet registriesKey] /\
     mcStore w' !! registriesKey = Some (registriesMC "v2")) /\
  (exists w',
     @syncImageConfig readingHelpers exampleCtrl "openshift-config"
       (policyWorld [registriesMC "v1"]) = Done None w' /\
     trace w' = [ImageListerGet "cluster"; ClusterVersionGet "version";
                 ControllerConfigGet "machine-config-controller"; ICSPList; PoolsList;
                 MachineConfigsGet registriesKey;
                 RenderTemplates "worker"; MachineConfigsGet registriesKey;
                 MachineConfigsUpdate registriesKey] /\
     mcStore w' !! registriesKey
     = Some (@imageWrite readingHelpers exampleImage registriesRaw (registriesMC "v1")) /\
     mcStore w' !! registriesKey <> Some (registriesMC "v1")).
Proof.
  split.
  - edestruct (fun sel => @image_skip_condition readingHelpers exampleCtrl "openshift-config"
                 exampleImage exampleClusterVersion None None exampleCC sel
                 (fun p => [MachineConfigsGet (registriesKeyOf p)]) registriesKeyOf
                 (fun _ => registriesRaw) (policyWorld [registriesMC "v2"]))
      as (w' & Hrun & Htr & _ & _ & Hsame);
      [reflexivity | reflexivity | reflexivity | reflexivity | discriminate | reflexivity
      | reflexivity | intros p w' Hf'; exact (readKey_nofault _ _ Hf')
      | repeat constructor; intros []
      | intros p [<- | []]; split; reflexivity |].
    exists w'. split; [exact Hrun|]. split; [exact Htr|].
    destruct (Hsame workerPool (registriesMC "v2") (or_introl eq_refl) eq_refl eq_refl)
      as (Hiff & _).
    apply Hiff. reflexivity.
  - edestruct (fun sel => @image_skip_condition readingHelpers exampleCtrl "openshift-config"
                 exampleImage exampleClusterVersion None None exampleCC sel
                 (fun p => [MachineConfigsGet (registriesKeyOf p)]) registriesKeyOf
                 (fun _ => registriesRaw) (policyWorld [registriesMC "v1"]))
      as (w' & Hrun & Htr & _ & _ & Hsame);
      [reflexivity | reflexivity | reflexivity | reflexivity | discriminate | reflexivity
      | reflexivity | intros p w' Hf'; exact (readKey_nofault _ _ Hf')
      | repeat constructor; intros []
      | intros p [<- | []]; split; reflexivity |].
    exists w'. split; [exact Hrun|]. split; [exact Htr|].
    destruct (Hsame workerPool (registriesMC "v1") (or_introl eq_refl) eq_refl eq_refl)
      as (Hiff & _ & Hup).
    split; [apply Hup; vm_compute; discriminate|].
    intros Hkept. apply Hiff in Hkept. vm_compute in Hkept. discriminate Hkept.
Defined.

(** * The further properties on the concrete clusters *)

Lemma syncStatusOnly_returns_its_argument_witness :
  exists w',
    syncStatusOnly badCfg (Some (PlainError "invalid PidsLimit")) [] statusDownWorld
    = Done (Some (PlainError "invalid PidsLimit")) w' /\
    mcStore w' = mcStore statusDownWorld.
Proof.
  destruct (syncStatusOnly_returns_its_argument badCfg (Some (PlainError "invalid PidsLimit")) []
              statusDownWorld) as (w' & Hrun & Hmc & _).
  exists w'. split; [exact Hrun | exact Hmc].
Defined.

Lemma addFinalizer_duplicate_safe_witness :
  exists w',
    addFinalizerToContainerRuntimeConfig doneCfg
      (generatedMC workerKey "v2" "/etc/crio/crio.conf.d/01-ctrcfg=crio") currentWorld
    = Done None w' /\
    mccrStore w' !! "set-pids" = Some doneCfg.
Proof.
  destruct (addFinalizer_duplicate_safe doneCfg
              (generatedMC workerKey "v2" "/etc/crio/crio.conf.d/01-ctrcfg=crio") currentWorld)
    as [Hthere _]; [reflexivity|].
  destruct (Hthere doneCfg doneCfg) as (w' & s' & Hrun & Hs & _ & Hin & _);
    [reflexivity | reflexivity |].
  exists w'. split; [exact Hrun|]. rewrite <- Hin; [exact Hs|]. simpl. auto.
Defined.

Lemma popFinalizer_keeps_the_tail_witness :
  exists w',
    popFinalizerFromContainerRuntimeConfig deletedCfg deletingWorld = Done None w' /\
    crcFinalizers <$> (mccrStore w' !! "set-pids") = Some [].
Proof.
  destruct (popFinalizer_keeps_the_tail deletedCfg workerKey [] deletingWorld deletedCfg deletedCfg)
    as (w' & Hrun & Hstore & _);
    [reflexivity | reflexivity | reflexivity | reflexivity | reflexivity |].
  exists w'. split; [exact Hrun|]. rewrite Hstore. reflexivity.
Defined.

Lemma popFinalizer_retry_reads_shifted_list_witness :
  exists w',
    popFinalizerFromContainerRuntimeConfig threeFinalizersCfg conflictingWorld = Done None w' /\
    crcFinalizers <$> (mccrStore w' !! "set-pids") = Some ["mc-c"; "mc-c"].
Proof.
  destruct (popFinalizer_retry_reads_shifted_list threeFinalizersCfg "mc-a" "mc-b" "mc-c"
              "the object has been modified" ["mc-c"] conflictingWorld
              threeFinalizersCfg threeFinalizersCfg)
    as (w' & Hrun & Hstore & _);
    [reflexivity | reflexivity | reflexivity | reflexivity | reflexivity | reflexivity |].
  exists w'. split; [exact Hrun|]. exact (f_equal (fmap crcFinalizers) Hstore).
Defined.

Lemma recordCondition_keeps_history_witness :
  list.last (recordCondition [successCondition 7] (successCondition 8))
  = Some (successCondition 8).
Proof.
  exact (proj2 (proj2 (recordCondition_keeps_history [successCondition 7] (successCondition 8)))).
Defined.

Lemma enqueue_key_round_trip_witness :
  SplitMetaNamespaceKey (MetaNamespaceKeyFunc "" "set-pids") = ("", "set-pids", None) /\
  syncContainerRuntimeConfig exampleCtrl (enqueueKey doneCfg) currentWorld
  = syncFetched exampleCtrl (enqueueKey doneCfg) doneCfg
      (logCall (CtrCfgListerGet "set-pids") (logCall (ConfigMapsGet configMapName) currentWorld)).
Proof.
  destruct (enqueue_key_round_trip exampleCtrl doneCfg currentWorld) as [Hsplit Hpass].
  split.
  - apply Hsplit; reflexivity.
  - destruct (Hpass markerCM) as [Hrun _];
      [reflexivity | reflexivity | reflexivity | reflexivity |].
    apply Hrun. discriminate.
Defined.

Lemma sync_absent_object_or_bad_key_witness :
  syncContainerRuntimeConfig exampleCtrl "gone" currentWorld
  = Done None (logCall (CtrCfgListerGet "gone") (logCall (ConfigMapsGet configMapName) currentWorld))
  /\
  exists e, syncContainerRuntimeConfig exampleCtrl "a/b/c" currentWorld
            = Done (Some e) (logCall (ConfigMapsGet configMapName) currentWorld).
Proof.
  split.
  - destruct (sync_absent_object_or_bad_key exampleCtrl "gone" markerCM currentWorld emptyQueue)
      as [Habsent _]; [reflexivity | reflexivity | reflexivity |].
    destruct (Habsent "" "gone") as [Hrun _]; [reflexivity | reflexivity | exact Hrun].
  - destruct (sync_absent_object_or_bad_key exampleCtrl "a/b/c" markerCM currentWorld emptyQueue)
      as [_ Hbad]; [reflexivity | reflexivity | reflexivity |].
    eexists. apply (Hbad "" ""). reflexivity.
Defined.

Lemma update_enqueues_on_spec_or_deletion_witness :
  updateContainerRuntimeConfig false doneCfg deletedCfg = Some "set-pids" /\
  updateContainerRuntimeConfig false doneCfg (withFinalizers [] doneCfg) = None.
Proof.
  destruct (update_enqueues_on_spec_or_deletion false doneCfg deletedCfg)
    as (_ & Hown & Hdel & _).
  split.
  - apply Hdel; [reflexivity | eexists; reflexivity].
  - destruct (Hown eq_refl 0 [] ∅ []) as (_ & _ & Hfin). exact Hfin.
Defined.

Lemma createSeccomp_once_witness :
  exists w1,
    createSeccompUseDefaultMC exampleCtrl (freshWorld doneCfg []) = Done None w1 /\
    cmStore w1 !! configMapName = Some markerCM /\
    mcRaw <$> (mcStore w1 !! seccompKey)
    = Some "/etc/crio/crio.conf.d/01-mc-seccompUseDefault=seccomp" /\
    createSeccompUseDefaultMC exampleCtrl w1
    = Done None (logCall (ConfigMapsGet configMapName) w1).
Proof.
  destruct (createSeccomp_once exampleCtrl (freshWorld doneCfg []))
    as (Honce & _ & _ & _ & Hcreate).
  edestruct Hcreate as (w1 & Hrun & (Hcm & _ & Hall & Hnew) & _);
    [reflexivity | reflexivity | reflexivity | reflexivity | repeat constructor |].
  exists w1. split; [exact Hrun|]. split; [|split].
  - rewrite Hcm. apply lookup_insert_eq.
  - destruct (Hall workerPool (or_introl eq_refl)) as [mc Hmc].
    change (getManagedKeySeccomp workerPool) with seccompKey in Hmc. rewrite Hmc.
    destruct (Hnew _ _ Hmc) as [Hold | (p & [<- | []] & _ & ->)]; [discriminate Hold|].
    reflexivity.
  - destruct (Honce w1 Hrun) as [_ Hagain]. apply Hagain; [|reflexivity].
    assert (Hw1 : w1 = finalWorld (createSeccompUseDefaultMC exampleCtrl (freshWorld doneCfg [])))
      by (rewrite Hrun; reflexivity).
    rewrite Hw1. reflexivity.
Defined.

Lemma syncImageConfig_never_deletes_witness :
  is_Some (mcStore (finalWorld (@syncImageConfig readingHelpers exampleCtrl "openshift-config"
                                  (policyWorld [registriesMC "v1"]))) !! registriesKey) /\
  Forall imageCall
    (trace (finalWorld (@syncImageConfig readingHelpers exampleCtrl "openshift-config"
                          (policyWorld [registriesMC "v1"])))) /\
  List.In (MachineConfigsUpdate registriesKey)
    (trace (finalWorld (@syncImageConfig readingHelpers exampleCtrl "openshift-config"
                          (policyWorld [registriesMC "v1"])))).
Proof.
  destruct (@syncImageConfig_never_deletes readingHelpers exampleCtrl "openshift-config"
              (policyWorld [registriesMC "v1"]))
    as [(l & Htr & Hl) Hnames].
  - intros pool. apply readKey_emits.
  - intros pool. apply readKey_keepsNames.
  - split; [|split].
    + apply Hnames. eexists. reflexivity.
    + rewrite Htr. exact Hl.
    + vm_compute. tauto.
Defined.

Lemma syncImageConfig_nothing_to_do_witness :
  syncImageConfig exampleCtrl "openshift-config" (imageWorld "v2")
  = Done None (logCall (ImageListerGet "cluster") (imageWorld "v2")).
Proof.
  destruct (syncImageConfig_nothing_to_do exampleCtrl "openshift-config" (imageWorld "v2")
              emptyQueue) as [Hnone _]; [reflexivity|].
  destruct Hnone as [Hrun _]; [reflexivity | exact Hrun].
Defined.

Lemma addAnnotation_gives_up_after_five_witness :
  exists w',
    addAnnotation annotatedCfg specSuffixKey "1" contendedWorld = Done (Some conflict) w' /\
    mccrStore w' = mccrStore contendedWorld.
Proof.
  destruct (addAnnotation_gives_up_after_five annotatedCfg specSuffixKey "1"
              "the object has been modified" 5 contendedWorld annotatedCfg)
    as (w' & Hrun & Hstore & _); [lia | reflexivity | reflexivity | reflexivity |].
  exists w'. split; [exact Hrun | exact Hstore].
Defined.

Lemma cleanUpDuplicatedMC_deletes_the_degraded_witness :
  exists w',
    cleanUpDuplicatedMC upgradedWorld = Done None w' /\
    mcStore w' !! workerKey = None.
Proof.
  destruct (cleanUpDuplicatedMC_deletes_the_degraded upgradedWorld) as (w' & Hrun & Hmc & _).
  - reflexivity.
  - intros k mc Hk. cbn in Hk. rewrite lookup_insert in Hk. case_decide as Hd.
    + injection Hk as <-. exact Hd.
    + rewrite lookup_empty in Hk. discriminate Hk.
  - exists w'. split; [exact Hrun|]. rewrite Hmc. reflexivity.
Defined.

Lemma second_pass_writes_only_the_status_witness :
  exists w',
    @syncContainerRuntimeConfig readingHelpers exampleCtrl "set-pids" currentWorld
    = Done None w' /\
    mcStore w' = mcStore currentWorld /\ cmStore w' = cmStore currentWorld /\
    trace w' = [ConfigMapsGet configMapName; CtrCfgListerGet "set-pids";
                ControllerConfigGet "machine-config-controller"; PoolsList;
                MachineConfigsGet workerKey; MachineConfigsGet workerKey;
                MachineConfigsList; CtrCfgListerGet "set-pids"; CtrCfgUpdateStatus "set-pids"].
Proof.
  destruct (@second_pass_writes_only_the_status readingHelpers exampleCtrl "set-pids" ""
              "set-pids" doneCfg markerCM exampleCC
              (internalSelector [{| reqKey := "pool"; reqOperator := selection_Equals;
                                    reqValues := ["worker"] |}])
              workerPool [] (fun p => [MachineConfigsGet (runtimeKeyOf p)]) runtimeKeyOf
              (successCondition 7) currentWorld)
    as (w' & Hrun & Hmc & Hcm & Htr & _).
  - reflexivity.
  - reflexivity.
  - reflexivity.
  - reflexivity.
  - reflexivity.
  - reflexivity.
  - reflexivity.
  - reflexivity.
  - reflexivity.
  - reflexivity.
  - reflexivity.
  - intros p' w' Hf'. exact (readKey_nofault _ _ Hf').
  - intros p' [<- | []]. eexists. split; reflexivity.
  - simpl; lia.
  - reflexivity.
  - reflexivity.
  - intros k mc Hk. cbn in Hk. rewrite lookup_insert in Hk. case_decide as Hd.
    + injection Hk as <-. reflexivity.
    + rewrite lookup_empty in Hk. discriminate Hk.
  - exists w'. split; [exact Hrun|]. split; [exact Hmc|]. split; [exact Hcm | exact Htr].
Defined.

Lemma generateOriginal_first_found_witness :
  exists st rg pl err,
    generateOriginalContainerRuntimeConfigs exampleCtrl exampleCC "worker" currentWorld
    = Done (st, rg, pl, err) (logCall (RenderTemplates "worker") currentWorld) /\
    firstFound findStorageConfig
      (fst (GenerateMachineConfigsForRole exampleCC "worker" (templatesDir exampleCtrl))) st.
Proof.
  destruct (generateOriginal_first_found exampleCtrl exampleCC "worker"
              (fst (GenerateMachineConfigsForRole exampleCC "worker" (templatesDir exampleCtrl)))
              currentWorld)
    as (st & rg & pl & err & Hrun & _ & Hfound & Herr); [reflexivity | reflexivity |].
  exists st, rg, pl, err. split; [exact Hrun|].
  assert (Hnone : err = None).
  { destruct err as [e|]; [|reflexivity]. exfalso.
    destruct (proj1 Herr (ex_intro _ e eq_refl)) as [_ [Hno | [Hno | Hno]]];
      apply List.Forall_inv in Hno; destruct Hno as [x Hx]; discriminate Hx. }
  destruct (Hfound ltac:(discriminate) Hnone) as [Hst _]. exact Hst.
Defined.

Lemma pool_loop_writes_owned_witness :
  exists mc,
    mcStore (finalWorld (forPools (@syncPool readingHelpers exampleCtrl "set-pids" doneCfg exampleCC)
                           [workerPool] upgradedWorld)) !! workerKey = Some mc /\
    (mc = generatedMC workerKey "v1" "/etc/crio/crio.conf.d/01-ctrcfg=crio" \/
     mcOwnerReferences mc = [controllerRef doneCfg]).
Proof.
  destruct (@pool_loop_writes_owned readingHelpers exampleCtrl "set-pids" doneCfg exampleCC
              [workerPool] upgradedWorld) as [Hnames Howned].
  - intros pool. apply readKey_sameMachineConfigs.
  - destruct (Hnames workerKey) as [mc Hmc]; [eexists; reflexivity|].
    exists mc. split; [exact Hmc|].
    destruct (Howned workerKey mc Hmc) as [Hold | (_ & _ & Hown & _)].
    + left. cbn in Hold. rewrite lookup_insert_eq in Hold. by injection Hold.
    + right. exact Hown.
Defined.

Lemma storage_failure_is_not_fatal_witness :
  exists w',
    @regenerate brokenStorageHelpers exampleCtrl "set-overlay" overlayCfg exampleCC workerPool
      workerKey staleMC false overlayWorld = Done Applied w' /\
    mcRaw <$> (mcStore w' !! workerKey) = Some "/etc/crio/crio.conf.d/01-ctrcfg=crio" /\
    crcFinalizers <$> (mccrStore w' !! "set-overlay") = Some [workerKey].
Proof.
  edestruct (fun st rg pl e toml raw =>
               @storage_failure_is_not_fatal brokenStorageHelpers exampleCtrl "set-overlay"
                 overlayCfg overlayCfg overlayCfg exampleCC workerPool workerKey staleMC staleMC
                 st rg pl e toml raw overlayWorld)
    as (w' & c' & Hrun & Hmc & _ & _ & Hfin);
    [reflexivity | reflexivity | reflexivity | reflexivity | reflexivity | reflexivity
    | discriminate | reflexivity | reflexivity |].
  exists w'. split; [exact Hrun|]. split.
  - rewrite Hmc. reflexivity.
  - apply Hfin. simpl. tauto.
Defined.

Lemma RunSeccompUseDefaultBootstrap_all_or_nothing_witness :
  RunSeccompUseDefaultBootstrap [workerPool] = ([fst (seccompBootstrapMC workerPool)], None).
Proof.
  apply (proj1 (RunSeccompUseDefaultBootstrap_all_or_nothing [workerPool])).
  repeat constructor.
Defined.

Lemma handleImgErr_sixteenth_failure_witness :
  NumRequeues "openshift-config"
    (imgFailures "openshift-config" (repeat (PlainError "boom") 15 ++ [PlainError "boom"])
       emptyQueue) = O /\
  qops (imgFailures "openshift-config" (repeat (PlainError "boom") 15) emptyQueue)
  = repeat (QAddRateLimited "openshift-config") 15.
Proof.
  destruct (handleImgErr_sixteenth_failure "openshift-config" (repeat (PlainError "boom") 15)
              (PlainError "boom") emptyQueue) as (Hops & _ & Hzero & _);
    [reflexivity | reflexivity |].
  split; [exact Hzero | exact Hops].
Defined.

Lemma labelsToSelector_requires_every_key_witness :
  exists sel,
    constants.labelsToSelector ["app"; "tier"] = Some sel /\
    SelectorMatches sel {[ "app" := "db"; "tier" := "" ]} = true /\
    SelectorMatches sel {[ "app" := "db" ]} = false.
Proof.
  destruct (proj1 (labelsToSelector_requires_every_key ["app"; "tier"])) as (sel & Hsel & Hm);
    [repeat constructor|].
  exists sel. split; [exact Hsel|]. split.
  - apply Hm. intros k [<- | [<- | []]]; eexists; reflexivity.
  - destruct (SelectorMatches sel {[ "app" := "db" ]}) eqn:Hs; [|reflexivity].
    destruct (proj1 (Hm _) Hs "tier") as [x Hx]; [simpl; auto | discriminate Hx].
Defined.

Lemma MachineOSBuildSelector_matches_exactly_witness :
  SelectorMatches (constants.MachineOSBuildSelector exampleMOSC examplePool) buildLabels = true.
Proof.
  apply (MachineOSBuildSelector_matches_exactly exampleMOSC examplePool buildLabels);
    [discriminate | discriminate | discriminate |].
  repeat split; reflexivity.
Defined.

Lemma EphemeralBuildObjectSelectorForSpecificBuild_narrows_witness :
  exists sel,
    constants.EphemeralBuildObjectSelectorForSpecificBuild exampleMOSB exampleMOSC
    = Some (Some sel, None) /\
    SelectorMatches sel buildLabels = false.
Proof.
  destruct (EphemeralBuildObjectSelectorForSpecificBuild_narrows exampleMOSB exampleMOSC)
    as (_ & _ & Hsel); [repeat constructor|].
  destruct Hsel as (sel & Hrun & Hm & _); [reflexivity | reflexivity |].
  exists sel. split; [exact Hrun|].
  destruct (SelectorMatches sel buildLabels) eqn:Hs; [|reflexivity].
  destruct (proj1 (Hm _) Hs) as [[x Hx] _]. discriminate Hx.
Defined.

Lemma IsObjectCreatedByBuildController_cases_witness :
  constants.IsObjectCreatedByBuildController (constants.MachineOSBuildObject exampleMOSB)
  = Some true.
Proof.
  destruct (IsObjectCreatedByBuildController_cases (constants.MachineOSBuildObject exampleMOSB))
    as (_ & Hiff & _); [repeat constructor|].
  apply Hiff. right. right. eexists. reflexivity.
Defined.

Lemma image_pass_writes_stamped_witness :
  exists mc,
    mcStore (finalWorld (@syncImagePools readingHelpers exampleCtrl exampleImage None exampleCC []
                           [workerPool] (policyWorld [registriesMC "v1"]))) !! registriesKey
    = Some mc /\
    (mc = registriesMC "v1" \/ mcOwnerReferences mc = [imageOwnerReference exampleImage]).
Proof.
  destruct (@image_pass_writes_stamped readingHelpers exampleCtrl exampleImage None exampleCC []
              [workerPool] (policyWorld [registriesMC "v1"])) as [Hnames Hst].
  - intros pool. apply readKey_sameMachineConfigs.
  - destruct (Hnames registriesKey) as [mc Hmc]; [eexists; reflexivity|].
    exists mc. split; [exact Hmc|].
    destruct (Hst registriesKey mc Hmc) as [Hold | (_ & _ & Hown)].
    + left. cbn in Hold. rewrite lookup_insert_eq in Hold. by injection Hold.
    + right. exact Hown.
Defined.
